(** * pisikyolu: the audio-player controller of [src/scripts/audio-player.ts]

    A shallow embedding of the player widget: the media element, the
    [PlayerState] object, the page elements the controller binds to, the
    timers and the play promises, with every event listener of the script as
    a function on that world.  The second script of the repository, an
    earlier version of the same widget, is embedded in [Module Variant]. *)

From Stdlib Require Import ZArith QArith Qabs Qround Lqa Lia Bool List.
From Stdlib Require Import Ascii String DecimalString.
Import ListNotations.

Local Open Scope Q_scope.

(** ** JavaScript numbers

    A [number] is [NaN], an infinity or a finite value.  Finite values are
    exact rationals: the rounding of binary64 arithmetic and the sign of zero
    are left out, the values that steer the control flow of the script
    ([NaN] for an unknown duration, [Infinity] for a stream) are kept. *)

Inductive number : Type :=
| NaN
| NegInf
| Fin (q : Q)
| PosInf.

Module JS.

Definition isNaN (x : number) : bool :=
  match x with NaN => true | _ => false end.

Definition isFinite (x : number) : bool :=
  match x with Fin _ => true | _ => false end.

(** ToBoolean on a number: [NaN] and [0] are falsy. *)
Definition truthy (x : number) : bool :=
  match x with
  | NaN => false
  | Fin q => negb (Qeq_bool q 0)
  | _ => true
  end.

(** [a || b] on numbers. *)
Definition or (a b : number) : number := if truthy a then a else b.

(** [a === b] on numbers. *)
Definition seq (a b : number) : bool :=
  match a, b with
  | Fin x, Fin y => Qeq_bool x y
  | PosInf, PosInf | NegInf, NegInf => true
  | _, _ => false
  end.

(** [a < b]; false as soon as one side is [NaN]. *)
Definition lt (a b : number) : bool :=
  match a, b with
  | NaN, _ | _, NaN => false
  | _, NegInf => false
  | NegInf, _ => true
  | PosInf, _ => false
  | Fin _, PosInf => true
  | Fin x, Fin y => negb (Qle_bool y x)
  end.

(** [a <= b]. *)
Definition le (a b : number) : bool :=
  match a, b with
  | NaN, _ | _, NaN => false
  | NegInf, _ => true
  | _, PosInf => true
  | _, NegInf => false
  | PosInf, _ => false
  | Fin x, Fin y => Qle_bool x y
  end.

Definition max (a b : number) : number :=
  match a, b with
  | NaN, _ | _, NaN => NaN
  | _, _ => if lt a b then b else a
  end.

Definition min (a b : number) : number :=
  match a, b with
  | NaN, _ | _, NaN => NaN
  | _, _ => if lt b a then b else a
  end.

Definition neg (a : number) : number :=
  match a with
  | NaN => NaN
  | NegInf => PosInf
  | PosInf => NegInf
  | Fin q => Fin (- q)
  end.

Definition add (a b : number) : number :=
  match a, b with
  | NaN, _ | _, NaN => NaN
  | PosInf, NegInf | NegInf, PosInf => NaN
  | PosInf, _ | _, PosInf => PosInf
  | NegInf, _ | _, NegInf => NegInf
  | Fin x, Fin y => Fin (x + y)
  end.

Definition sub (a b : number) : number := add a (neg b).

(** The infinity of the sign of [s * t], [NaN] when that product is 0. *)
Definition signedInf (s t : Q) : number :=
  match (s * t ?= 0) with
  | Gt => PosInf
  | Lt => NegInf
  | Eq => NaN
  end.

Definition mul (a b : number) : number :=
  match a, b with
  | NaN, _ | _, NaN => NaN
  | Fin x, Fin y => Fin (x * y)
  | PosInf, Fin y | Fin y, PosInf => signedInf 1 y
  | NegInf, Fin y | Fin y, NegInf => signedInf (-1) y
  | PosInf, PosInf | NegInf, NegInf => PosInf
  | PosInf, NegInf | NegInf, PosInf => NegInf
  end.

(** Division; the only zero is the positive one. *)
Definition div (a b : number) : number :=
  match a, b with
  | NaN, _ | _, NaN => NaN
  | Fin x, Fin y => if Qeq_bool y 0 then signedInf x 1 else Fin (x / y)
  | Fin _, _ => Fin 0
  | PosInf, Fin y => if Qle_bool 0 y then PosInf else NegInf
  | NegInf, Fin y => if Qle_bool 0 y then NegInf else PosInf
  | _, _ => NaN
  end.

(** Rounding of a rational toward zero. *)
Definition Qtrunc (q : Q) : Z := Z.quot (Qnum q) (Zpos (Qden q)).

(** [a % b]: the remainder has the sign of the dividend. *)
Definition rem (a b : number) : number :=
  match a, b with
  | Fin x, Fin y =>
      if Qeq_bool y 0 then NaN else Fin (x - y * inject_Z (Qtrunc (x / y)))
  | Fin x, (PosInf | NegInf) => Fin x
  | _, _ => NaN
  end.

Definition floor (a : number) : number :=
  match a with
  | Fin q => Fin (inject_Z (Qfloor q))
  | _ => a
  end.

(** [Math.round]: to the nearest integer, halves upward. *)
Definition round (a : number) : number :=
  match a with
  | Fin q => Fin (inject_Z (Qfloor (q + (1 # 2))))
  | _ => a
  end.

(** *** Numbers as text

    A numeric text of the page (a slider value, a [data-speed] attribute)
    is kept as the number it renders; the text itself is what
    [Number.prototype.toString] gives for that number.  That text is in
    plain decimal notation for 0 and for an absolute value from 1e-6 up to,
    but not including, 1e21, and in exponent notation otherwise. *)
Definition plainNotation (q : Q) : bool :=
  Qeq_bool q 0 ||
  (Qle_bool (1 # 1000000) (Qabs q) &&
   negb (Qle_bool (1000000000000000000000 # 1) (Qabs q))).

(** For [0 < n < d]: the least [k] with [d <= n * 10^k], and [n * 10^k]. *)
Fixpoint scaleUp (fuel : nat) (n d : Z) : Z * Z :=
  match fuel with
  | O => (0%Z, n)
  | S fuel' =>
      if (d <=? n)%Z then (0%Z, n)
      else let (k, n') := scaleUp fuel' (10 * n)%Z d in ((1 + k)%Z, n')
  end.

(** For [0 < d <= n]: the least [k] with [n < 10 * d * 10^k], and
    [d * 10^k]. *)
Fixpoint scaleDown (fuel : nat) (n d : Z) : Z * Z :=
  match fuel with
  | O => (0%Z, d)
  | S fuel' =>
      if (n <? 10 * d)%Z then (0%Z, d)
      else let (k, d') := scaleDown fuel' n (10 * d)%Z in ((1 + k)%Z, d')
  end.

(** A positive [n / d] as [n' / d' * 10^e] with [1 <= n' / d' < 10]:
    the exponent [e], then [n'] and [d']. *)
Definition normalize (n d : Z) : Z * Z * Z :=
  if (d <=? n)%Z then
    let (k, d') := scaleDown (S (Z.to_nat (Z.log2 n))) n d in (k, n, d')
  else
    let (k, n') := scaleUp (S (Z.to_nat (Z.log2 d))) n d in ((- k)%Z, n', d).

(** The digit before the point in exponent notation. *)
Definition leadDigit (q : Q) : Z :=
  let '(_, n, d) := normalize (Z.abs (Qnum q)) (Zpos (Qden q)) in (n / d)%Z.

(** [parseFloat] reads the whole text of a number back, so it is the
    identity.  [parseInt] reads the digits in front of the first character
    that is not one: the whole part in plain notation, the digit before the
    point in exponent notation, and nothing ([NaN]) in [Infinity] and
    [NaN]. *)
Definition parseFloat (value : number) : number := value.

Definition intPrefix (q : Q) : Z :=
  if plainNotation q then Qtrunc q else (Z.sgn (Qnum q) * leadDigit q)%Z.

Definition parseInt (value : number) : number :=
  match value with
  | Fin q => Fin (inject_Z (intPrefix q))
  | _ => NaN
  end.

(** Digits of the fraction [n / d] (with [0 <= n < d]), at most [fuel]. *)
Fixpoint fracDigits (fuel : nat) (n : Z) (d : Z) : string :=
  match fuel with
  | O => EmptyString
  | S fuel' =>
      if (n =? 0)%Z then EmptyString
      else
        let n10 := (10 * n)%Z in
        (NilZero.string_of_int (Z.to_int (n10 / d)) ++
         fracDigits fuel' (n10 mod d) d)%string
  end.

(** [Number.prototype.toString]: plain or exponent notation as the
    language has it; the digits are those of the exact value, at most 17
    after the point, which is what the language prints for every number the
    controller renders into a text (whole seconds and percents, the
    supported speeds). *)
Definition toString (a : number) : string :=
  match a with
  | NaN => "NaN"%string
  | PosInf => "Infinity"%string
  | NegInf => "-Infinity"%string
  | Fin q =>
      let n := Qnum q in
      let d := Zpos (Qden q) in
      if plainNotation q then
        let i := Z.quot n d in
        let r := Z.abs (Z.rem n d) in
        let sign := if ((n <? 0) && (i =? 0))%Z then "-"%string else ""%string in
        if (r =? 0)%Z then NilZero.string_of_int (Z.to_int i)
        else (sign ++ NilZero.string_of_int (Z.to_int i) ++ "." ++
              fracDigits 17 r d)%string
      else
        let '(e, n', d') := normalize (Z.abs n) d in
        let sign := if (n <? 0)%Z then "-"%string else ""%string in
        let frac := fracDigits 17 (n' mod d') d' in
        (sign ++ NilZero.string_of_int (Z.to_int (n' / d')) ++
         (if String.eqb frac "" then "" else "." ++ frac) ++
         "e" ++ (if (e <? 0)%Z then "-" else "+") ++
         NilZero.string_of_int (Z.to_int (Z.abs e)))%string
  end.

(** [s.padStart(n, c)] for a one-character pad. *)
Definition padStart (n : nat) (c : ascii) (s : string) : string :=
  (string_of_list_ascii (repeat c (n - String.length s)) ++ s)%string.

End JS.

(** ** The media element

    [HTMLAudioElement], as far as the script reads and writes it.  The
    element belongs to the browser: the model keeps it as a passive record
    that holds whatever the script last wrote, and the browser's own changes
    to it arrive from outside, between two listeners. *)

Module Audio.

Record t : Type := mk {
  currentTime : number;
  duration : number;
  paused : bool;
  volume : number;
  muted : bool;
  playbackRate : number
}.

Definition set_currentTime (v : number) (x : t) : t :=
  mk v (duration x) (paused x) (volume x) (muted x) (playbackRate x).
Definition set_duration (v : number) (x : t) : t :=
  mk (currentTime x) v (paused x) (volume x) (muted x) (playbackRate x).
Definition set_paused (v : bool) (x : t) : t :=
  mk (currentTime x) (duration x) v (volume x) (muted x)
    (playbackRate x).
Definition set_volume (v : number) (x : t) : t :=
  mk (currentTime x) (duration x) (paused x) v (muted x)
    (playbackRate x).
Definition set_muted (v : bool) (x : t) : t :=
  mk (currentTime x) (duration x) (paused x) (volume x) v
    (playbackRate x).
Definition set_playbackRate (v : number) (x : t) : t :=
  mk (currentTime x) (duration x) (paused x) (volume x) (muted x) v.

End Audio.

(** ** [interface PlayerState] *)

Module State.

Record t : Type := mk {
  isPlaying : bool;
  isMuted : bool;
  volume : number;
  playbackRate : number;
  isSeeking : bool;
  lastVolume : number
}.

Definition set_isPlaying (v : bool) (x : t) : t :=
  mk v (isMuted x) (volume x) (playbackRate x) (isSeeking x)
    (lastVolume x).
Definition set_isMuted (v : bool) (x : t) : t :=
  mk (isPlaying x) v (volume x) (playbackRate x) (isSeeking x)
    (lastVolume x).
Definition set_volume (v : number) (x : t) : t :=
  mk (isPlaying x) (isMuted x) v (playbackRate x) (isSeeking x)
    (lastVolume x).
Definition set_playbackRate (v : number) (x : t) : t :=
  mk (isPlaying x) (isMuted x) (volume x) v (isSeeking x)
    (lastVolume x).
Definition set_isSeeking (v : bool) (x : t) : t :=
  mk (isPlaying x) (isMuted x) (volume x) (playbackRate x) v
    (lastVolume x).
Definition set_lastVolume (v : number) (x : t) : t :=
  mk (isPlaying x) (isMuted x) (volume x) (playbackRate x) (isSeeking x)
    v.

End State.

(** ** Page elements

    Each element carries the properties the script touches.  A numeric text
    (a slider value, a [datetime], a width in percent) is kept as the number
    it renders. *)

(** An element that is shown or hidden by the class [hidden]. *)
Record Icon : Type := mkIcon { hidden : bool }.

(** A button, with its [aria-label]. *)
Record Button : Type := mkButton { ariaLabel : string }.

Record TimeEl : Type := mkTimeEl {
  time_textContent : string;
  time_datetime : number
}.

Definition set_time_textContent (v : string) (x : TimeEl) : TimeEl :=
  mkTimeEl v (time_datetime x).
Definition set_time_datetime (v : number) (x : TimeEl) : TimeEl :=
  mkTimeEl (time_textContent x) v.

Record ProgressBar : Type := mkProgressBar {
  bar_width : number;
  bar_ariaValueNow : number
}.

Definition set_bar_width (v : number) (x : ProgressBar) : ProgressBar :=
  mkProgressBar v (bar_ariaValueNow x).
Definition set_bar_ariaValueNow (v : number) (x : ProgressBar) : ProgressBar :=
  mkProgressBar (bar_width x) v.

Record SeekSlider : Type := mkSeekSlider {
  seek_value : number;
  seek_disabled : bool;
  seek_ariaValueMax : number
}.

Definition set_seek_value (v : number) (x : SeekSlider) : SeekSlider :=
  mkSeekSlider v (seek_disabled x) (seek_ariaValueMax x).
Definition set_seek_disabled (v : bool) (x : SeekSlider) : SeekSlider :=
  mkSeekSlider (seek_value x) v (seek_ariaValueMax x).
Definition set_seek_ariaValueMax (v : number) (x : SeekSlider) : SeekSlider :=
  mkSeekSlider (seek_value x) (seek_disabled x) v.

Record VolumeSlider : Type := mkVolumeSlider {
  vol_value : number;
  vol_background : number
}.

Definition set_vol_value (v : number) (x : VolumeSlider) : VolumeSlider :=
  mkVolumeSlider v (vol_background x).
Definition set_vol_background (v : number) (x : VolumeSlider) : VolumeSlider :=
  mkVolumeSlider (vol_value x) v.

Record FeedbackEl : Type := mkFeedbackEl {
  fb_className : string;
  fb_opacity : string;
  fb_timeout : option nat
}.

Definition set_fb_className (v : string) (x : FeedbackEl) : FeedbackEl :=
  mkFeedbackEl v (fb_opacity x) (fb_timeout x).
Definition set_fb_opacity (v : string) (x : FeedbackEl) : FeedbackEl :=
  mkFeedbackEl (fb_className x) v (fb_timeout x).
Definition set_fb_timeout (v : (option nat)) (x : FeedbackEl) : FeedbackEl :=
  mkFeedbackEl (fb_className x) (fb_opacity x) v.

Record SpeedButton : Type := mkSpeedButton {
  sb_textContent : string;
  sb_ariaLabel : string;
  sb_ariaExpanded : bool
}.

Definition set_sb_textContent (v : string) (x : SpeedButton) : SpeedButton :=
  mkSpeedButton v (sb_ariaLabel x) (sb_ariaExpanded x).
Definition set_sb_ariaLabel (v : string) (x : SpeedButton) : SpeedButton :=
  mkSpeedButton (sb_textContent x) v (sb_ariaExpanded x).
Definition set_sb_ariaExpanded (v : bool) (x : SpeedButton) : SpeedButton :=
  mkSpeedButton (sb_textContent x) (sb_ariaLabel x) v.

Record SpeedOption : Type := mkSpeedOption {
  dataSpeed : option number;
  opt_bgGreen : bool;
  opt_textGreen : bool;
  opt_ariaChecked : bool
}.

Definition set_dataSpeed (v : (option number)) (x : SpeedOption) : SpeedOption :=
  mkSpeedOption v (opt_bgGreen x) (opt_textGreen x) (opt_ariaChecked x).
Definition set_opt_bgGreen (v : bool) (x : SpeedOption) : SpeedOption :=
  mkSpeedOption (dataSpeed x) v (opt_textGreen x) (opt_ariaChecked x).
Definition set_opt_textGreen (v : bool) (x : SpeedOption) : SpeedOption :=
  mkSpeedOption (dataSpeed x) (opt_bgGreen x) v (opt_ariaChecked x).
Definition set_opt_ariaChecked (v : bool) (x : SpeedOption) : SpeedOption :=
  mkSpeedOption (dataSpeed x) (opt_bgGreen x) (opt_textGreen x) v.

(** Callbacks handed to [setTimeout]. *)
Inductive Task : Type :=
| HideFeedback       (* () => feedbackEl.style.opacity = '0' *)
| SeekPreview.       (* the function wrapped by debounce(..., 100) *)

(** What is chained on the promise returned by [play()].  The caller of
    [window.audioPlayer.play] is handed the promise and chains what it
    likes: [catches] tells whether that includes a rejection handler. *)
Inductive Reaction : Type :=
| CatchPlaybackFailed   (* .catch(error => ...) of togglePlayPause *)
| NoReaction            (* nothing: the promise is dropped *)
| CallersReaction (catches : bool).

(** ** The world of the script

    The constants and variables of the [DOMContentLoaded] closure, under the
    names the script gives them, then the browser's timer table, the pending
    play promises, the console and the errors nobody caught.
    [audioElement] and [playPauseBtn] are plain fields: the script returns
    before it installs anything when one of them is missing. *)

Record World : Type := mkWorld {
  audioElement : Audio.t;
  state : State.t;
  playPauseBtn : Button;
  playIcon : option Icon;
  pauseIcon : option Icon;
  currentTimeEl : option TimeEl;
  durationEl : option TimeEl;
  progressBar : option ProgressBar;
  seekSlider : option SeekSlider;
  volumeBtn : option Button;
  volumeIcon : option Icon;
  muteIcon : option Icon;
  volumeSlider : option VolumeSlider;
  feedbackEl : option FeedbackEl;
  feedbackText : option string;
  speedButton : option SpeedButton;
  speedMenu : option Icon;
  speedOptions : list SpeedOption;
  timers : list (nat * Task);
  nextTimerId : nat;
  seekTimeoutId : option nat;
  playPromises : list Reaction;
  console : list string;
  uncaught : list string
}.

Definition set_audioElement (v : Audio.t) (x : World) : World :=
  mkWorld v (state x) (playPauseBtn x) (playIcon x) (pauseIcon x)
    (currentTimeEl x) (durationEl x) (progressBar x) (seekSlider x)
    (volumeBtn x) (volumeIcon x) (muteIcon x) (volumeSlider x)
    (feedbackEl x) (feedbackText x) (speedButton x) (speedMenu x)
    (speedOptions x) (timers x) (nextTimerId x) (seekTimeoutId x)
    (playPromises x) (console x) (uncaught x).
Definition set_state (v : State.t) (x : World) : World :=
  mkWorld (audioElement x) v (playPauseBtn x) (playIcon x) (pauseIcon x)
    (currentTimeEl x) (durationEl x) (progressBar x) (seekSlider x)
    (volumeBtn x) (volumeIcon x) (muteIcon x) (volumeSlider x)
    (feedbackEl x) (feedbackText x) (speedButton x) (speedMenu x)
    (speedOptions x) (timers x) (nextTimerId x) (seekTimeoutId x)
    (playPromises x) (console x) (uncaught x).
Definition set_playPauseBtn (v : Button) (x : World) : World :=
  mkWorld (audioElement x) (state x) v (playIcon x) (pauseIcon x)
    (currentTimeEl x) (durationEl x) (progressBar x) (seekSlider x)
    (volumeBtn x) (volumeIcon x) (muteIcon x) (volumeSlider x)
    (feedbackEl x) (feedbackText x) (speedButton x) (speedMenu x)
    (speedOptions x) (timers x) (nextTimerId x) (seekTimeoutId x)
    (playPromises x) (console x) (uncaught x).
Definition set_playIcon (v : (option Icon)) (x : World) : World :=
  mkWorld (audioElement x) (state x) (playPauseBtn x) v (pauseIcon x)
    (currentTimeEl x) (durationEl x) (progressBar x) (seekSlider x)
    (volumeBtn x) (volumeIcon x) (muteIcon x) (volumeSlider x)
    (feedbackEl x) (feedbackText x) (speedButton x) (speedMenu x)
    (speedOptions x) (timers x) (nextTimerId x) (seekTimeoutId x)
    (playPromises x) (console x) (uncaught x).
Definition set_pauseIcon (v : (option Icon)) (x : World) : World :=
  mkWorld (audioElement x) (state x) (playPauseBtn x) (playIcon x) v
    (currentTimeEl x) (durationEl x) (progressBar x) (seekSlider x)
    (volumeBtn x) (volumeIcon x) (muteIcon x) (volumeSlider x)
    (feedbackEl x) (feedbackText x) (speedButton x) (speedMenu x)
    (speedOptions x) (timers x) (nextTimerId x) (seekTimeoutId x)
    (playPromises x) (console x) (uncaught x).
Definition set_currentTimeEl (v : (option TimeEl)) (x : World) : World :=
  mkWorld (audioElement x) (state x) (playPauseBtn x) (playIcon x)
    (pauseIcon x) v (durationEl x) (progressBar x) (seekSlider x)
    (volumeBtn x) (volumeIcon x) (muteIcon x) (volumeSlider x)
    (feedbackEl x) (feedbackText x) (speedButton x) (speedMenu x)
    (speedOptions x) (timers x) (nextTimerId x) (seekTimeoutId x)
    (playPromises x) (console x) (uncaught x).
Definition set_durationEl (v : (option TimeEl)) (x : World) : World :=
  mkWorld (audioElement x) (state x) (playPauseBtn x) (playIcon x)
    (pauseIcon x) (currentTimeEl x) v (progressBar x) (seekSlider x)
    (volumeBtn x) (volumeIcon x) (muteIcon x) (volumeSlider x)
    (feedbackEl x) (feedbackText x) (speedButton x) (speedMenu x)
    (speedOptions x) (timers x) (nextTimerId x) (seekTimeoutId x)
    (playPromises x) (console x) (uncaught x).
Definition set_progressBar (v : (option ProgressBar)) (x : World) : World :=
  mkWorld (audioElement x) (state x) (playPauseBtn x) (playIcon x)
    (pauseIcon x) (currentTimeEl x) (durationEl x) v (seekSlider x)
    (volumeBtn x) (volumeIcon x) (muteIcon x) (volumeSlider x)
    (feedbackEl x) (feedbackText x) (speedButton x) (speedMenu x)
    (speedOptions x) (timers x) (nextTimerId x) (seekTimeoutId x)
    (playPromises x) (console x) (uncaught x).
Definition set_seekSlider (v : (option SeekSlider)) (x : World) : World :=
  mkWorld (audioElement x) (state x) (playPauseBtn x) (playIcon x)
    (pauseIcon x) (currentTimeEl x) (durationEl x) (progressBar x) v
    (volumeBtn x) (volumeIcon x) (muteIcon x) (volumeSlider x)
    (feedbackEl x) (feedbackText x) (speedButton x) (speedMenu x)
    (speedOptions x) (timers x) (nextTimerId x) (seekTimeoutId x)
    (playPromises x) (console x) (uncaught x).
Definition set_volumeBtn (v : (option Button)) (x : World) : World :=
  mkWorld (audioElement x) (state x) (playPauseBtn x) (playIcon x)
    (pauseIcon x) (currentTimeEl x) (durationEl x) (progressBar x)
    (seekSlider x) v (volumeIcon x) (muteIcon x) (volumeSlider x)
    (feedbackEl x) (feedbackText x) (speedButton x) (speedMenu x)
    (speedOptions x) (timers x) (nextTimerId x) (seekTimeoutId x)
    (playPromises x) (console x) (uncaught x).
Definition set_volumeIcon (v : (option Icon)) (x : World) : World :=
  mkWorld (audioElement x) (state x) (playPauseBtn x) (playIcon x)
    (pauseIcon x) (currentTimeEl x) (durationEl x) (progressBar x)
    (seekSlider x) (volumeBtn x) v (muteIcon x) (volumeSlider x)
    (feedbackEl x) (feedbackText x) (speedButton x) (speedMenu x)
    (speedOptions x) (timers x) (nextTimerId x) (seekTimeoutId x)
    (playPromises x) (console x) (uncaught x).
Definition set_muteIcon (v : (option Icon)) (x : World) : World :=
  mkWorld (audioElement x) (state x) (playPauseBtn x) (playIcon x)
    (pauseIcon x) (currentTimeEl x) (durationEl x) (progressBar x)
    (seekSlider x) (volumeBtn x) (volumeIcon x) v (volumeSlider x)
    (feedbackEl x) (feedbackText x) (speedButton x) (speedMenu x)
    (speedOptions x) (timers x) (nextTimerId x) (seekTimeoutId x)
    (playPromises x) (console x) (uncaught x).
Definition set_volumeSlider (v : (option VolumeSlider)) (x : World) : World :=
  mkWorld (audioElement x) (state x) (playPauseBtn x) (playIcon x)
    (pauseIcon x) (currentTimeEl x) (durationEl x) (progressBar x)
    (seekSlider x) (volumeBtn x) (volumeIcon x) (muteIcon x) v
    (feedbackEl x) (feedbackText x) (speedButton x) (speedMenu x)
    (speedOptions x) (timers x) (nextTimerId x) (seekTimeoutId x)
    (playPromises x) (console x) (uncaught x).
Definition set_feedbackEl (v : (option FeedbackEl)) (x : World) : World :=
  mkWorld (audioElement x) (state x) (playPauseBtn x) (playIcon x)
    (pauseIcon x) (currentTimeEl x) (durationEl x) (progressBar x)
    (seekSlider x) (volumeBtn x) (volumeIcon x) (muteIcon x)
    (volumeSlider x) v (feedbackText x) (speedButton x) (speedMenu x)
    (speedOptions x) (timers x) (nextTimerId x) (seekTimeoutId x)
    (playPromises x) (console x) (uncaught x).
Definition set_feedbackText (v : (option string)) (x : World) : World :=
  mkWorld (audioElement x) (state x) (playPauseBtn x) (playIcon x)
    (pauseIcon x) (currentTimeEl x) (durationEl x) (progressBar x)
    (seekSlider x) (volumeBtn x) (volumeIcon x) (muteIcon x)
    (volumeSlider x) (feedbackEl x) v (speedButton x) (speedMenu x)
    (speedOptions x) (timers x) (nextTimerId x) (seekTimeoutId x)
    (playPromises x) (console x) (uncaught x).
Definition set_speedButton (v : (option SpeedButton)) (x : World) : World :=
  mkWorld (audioElement x) (state x) (playPauseBtn x) (playIcon x)
    (pauseIcon x) (currentTimeEl x) (durationEl x) (progressBar x)
    (seekSlider x) (volumeBtn x) (volumeIcon x) (muteIcon x)
    (volumeSlider x) (feedbackEl x) (feedbackText x) v (speedMenu x)
    (speedOptions x) (timers x) (nextTimerId x) (seekTimeoutId x)
    (playPromises x) (console x) (uncaught x).
Definition set_speedMenu (v : (option Icon)) (x : World) : World :=
  mkWorld (audioElement x) (state x) (playPauseBtn x) (playIcon x)
    (pauseIcon x) (currentTimeEl x) (durationEl x) (progressBar x)
    (seekSlider x) (volumeBtn x) (volumeIcon x) (muteIcon x)
    (volumeSlider x) (feedbackEl x) (feedbackText x) (speedButton x) v
    (speedOptions x) (timers x) (nextTimerId x) (seekTimeoutId x)
    (playPromises x) (console x) (uncaught x).
Definition set_speedOptions (v : (list SpeedOption)) (x : World) : World :=
  mkWorld (audioElement x) (state x) (playPauseBtn x) (playIcon x)
    (pauseIcon x) (currentTimeEl x) (durationEl x) (progressBar x)
    (seekSlider x) (volumeBtn x) (volumeIcon x) (muteIcon x)
    (volumeSlider x) (feedbackEl x) (feedbackText x) (speedButton x)
    (speedMenu x) v (timers x) (nextTimerId x) (seekTimeoutId x)
    (playPromises x) (console x) (uncaught x).
Definition set_timers (v : (list (nat * Task))) (x : World) : World :=
  mkWorld (audioElement x) (state x) (playPauseBtn x) (playIcon x)
    (pauseIcon x) (currentTimeEl x) (durationEl x) (progressBar x)
    (seekSlider x) (volumeBtn x) (volumeIcon x) (muteIcon x)
    (volumeSlider x) (feedbackEl x) (feedbackText x) (speedButton x)
    (speedMenu x) (speedOptions x) v (nextTimerId x) (seekTimeoutId x)
    (playPromises x) (console x) (uncaught x).
Definition set_nextTimerId (v : nat) (x : World) : World :=
  mkWorld (audioElement x) (state x) (playPauseBtn x) (playIcon x)
    (pauseIcon x) (currentTimeEl x) (durationEl x) (progressBar x)
    (seekSlider x) (volumeBtn x) (volumeIcon x) (muteIcon x)
    (volumeSlider x) (feedbackEl x) (feedbackText x) (speedButton x)
    (speedMenu x) (speedOptions x) (timers x) v (seekTimeoutId x)
    (playPromises x) (console x) (uncaught x).
Definition set_seekTimeoutId (v : (option nat)) (x : World) : World :=
  mkWorld (audioElement x) (state x) (playPauseBtn x) (playIcon x)
    (pauseIcon x) (currentTimeEl x) (durationEl x) (progressBar x)
    (seekSlider x) (volumeBtn x) (volumeIcon x) (muteIcon x)
    (volumeSlider x) (feedbackEl x) (feedbackText x) (speedButton x)
    (speedMenu x) (speedOptions x) (timers x) (nextTimerId x) v
    (playPromises x) (console x) (uncaught x).
Definition set_playPromises (v : (list Reaction)) (x : World) : World :=
  mkWorld (audioElement x) (state x) (playPauseBtn x) (playIcon x)
    (pauseIcon x) (currentTimeEl x) (durationEl x) (progressBar x)
    (seekSlider x) (volumeBtn x) (volumeIcon x) (muteIcon x)
    (volumeSlider x) (feedbackEl x) (feedbackText x) (speedButton x)
    (speedMenu x) (speedOptions x) (timers x) (nextTimerId x)
    (seekTimeoutId x) v (console x) (uncaught x).
Definition set_console (v : (list string)) (x : World) : World :=
  mkWorld (audioElement x) (state x) (playPauseBtn x) (playIcon x)
    (pauseIcon x) (currentTimeEl x) (durationEl x) (progressBar x)
    (seekSlider x) (volumeBtn x) (volumeIcon x) (muteIcon x)
    (volumeSlider x) (feedbackEl x) (feedbackText x) (speedButton x)
    (speedMenu x) (speedOptions x) (timers x) (nextTimerId x)
    (seekTimeoutId x) (playPromises x) v (uncaught x).
Definition set_uncaught (v : (list string)) (x : World) : World :=
  mkWorld (audioElement x) (state x) (playPauseBtn x) (playIcon x)
    (pauseIcon x) (currentTimeEl x) (durationEl x) (progressBar x)
    (seekSlider x) (volumeBtn x) (volumeIcon x) (muteIcon x)
    (volumeSlider x) (feedbackEl x) (feedbackText x) (speedButton x)
    (speedMenu x) (speedOptions x) (timers x) (nextTimerId x)
    (seekTimeoutId x) (playPromises x) (console x) v.

Local Open Scope string_scope.

(** [try { ... } catch]: how a block of the script ends. *)
Inductive Completion : Type :=
| Normal (w : World)
| Throw (err : string) (w : World).

Definition bind (c : Completion) (k : World -> Completion) : Completion :=
  match c with
  | Normal w => k w
  | Throw err w => Throw err w
  end.

Definition tryCatch (body : Completion) (handler : string -> World -> Completion)
  : Completion :=
  match body with
  | Normal w => Normal w
  | Throw err w => handler err w
  end.

Notation "'do' w <- c ;; k" := (bind c (fun w => k))
  (at level 10, w name, c at level 100, k at level 200, only parsing).

(** ** Browser services *)

Definition console_error (message : string) (w : World) : World :=
  set_console (console w ++ [message])%list w.

(** [setTimeout(task, _)]: a fresh id, the task appended to the table. *)
Definition setTimeout (task : Task) (w : World) : nat * World :=
  let id := nextTimerId w in
  (id, set_nextTimerId (S id) (set_timers (timers w ++ [(id, task)])%list w)).

(** [clearTimeout(id)]; [None] stands for [undefined]. *)
Definition clearTimeout (id : option nat) (w : World) : World :=
  match id with
  | Some i =>
      set_timers (filter (fun t => negb (Nat.eqb (fst t) i)) (timers w)) w
  | None => w
  end.

(** What the browser does when [audioElement.play()] is called: it starts
    (the element leaves the paused state) and returns a promise, or it
    returns a promise and leaves the element paused (a request it is about
    to reject), or the call itself throws. *)
Inductive PlayReply : Type :=
| PlayStarts
| PlayStaysPaused
| PlayThrows (err : string).

(** [audioElement.play()] with [reaction] chained on the promise. *)
Definition play (reply : PlayReply) (reaction : Reaction) (w : World)
  : Completion :=
  match reply with
  | PlayStarts =>
      Normal (set_playPromises (playPromises w ++ [reaction])%list
                (set_audioElement (Audio.set_paused false (audioElement w)) w))
  | PlayStaysPaused =>
      Normal (set_playPromises (playPromises w ++ [reaction])%list w)
  | PlayThrows err => Throw err w
  end.

(** [audioElement.pause()]. *)
Definition pause (w : World) : World :=
  set_audioElement (Audio.set_paused true (audioElement w)) w.

(** [audioElement.currentTime = time].  The attribute is a [double] of the
    media element interface: a value that is not finite is refused with a
    [TypeError] before anything is written. *)
Definition assignCurrentTime (time : number) (w : World) : Completion :=
  if JS.isFinite time then
    Normal (set_audioElement (Audio.set_currentTime time (audioElement w)) w)
  else
    Throw "TypeError: currentTime is set to a value that is not finite" w.

(** ** Constants *)

Definition SEEK_JUMP : number := Fin 10.
Definition VOLUME_JUMP : number := Fin 0.05.
Definition SUPPORTED_SPEEDS : list number :=
  [Fin 0.5; Fin 0.75; Fin 1; Fin 1.25; Fin 1.5; Fin 1.75; Fin 2].

(** [Array.prototype.includes] compares with SameValueZero. *)
Definition sameValueZero (a b : number) : bool :=
  match a, b with
  | NaN, NaN => true
  | _, _ => JS.seq a b
  end.

Definition includes (l : list number) (x : number) : bool :=
  existsb (sameValueZero x) l.

(** ** Speed control *)

Record SpeedControl : Type := mkSpeedControl {
  sc_button : SpeedButton;
  sc_menu : Icon;
  sc_options : list SpeedOption
}.

(** The markup built by [createSpeedControl] (text content without the
    white space of the template). *)
Definition createSpeedControl : SpeedControl :=
  mkSpeedControl
    (mkSpeedButton "1x" "Playback Speed" false)
    (mkIcon true)
    (map (fun speed =>
            mkSpeedOption (Some speed) (JS.seq speed (Fin 1))
              (JS.seq speed (Fin 1)) (JS.seq speed (Fin 1)))
       SUPPORTED_SPEEDS).

(** The control is inserted before the shortcuts button, when the page has
    one; [speedButton] and [speedMenu] are looked up afterwards. *)
Definition insertSpeedControl (shortcutsBtn : bool) (w : World) : World :=
  if shortcutsBtn then
    let speedControl := createSpeedControl in
    set_speedOptions (sc_options speedControl)
      (set_speedMenu (Some (sc_menu speedControl))
         (set_speedButton (Some (sc_button speedControl)) w))
  else w.

(** ** Utility functions *)

Definition formatTime (seconds : number) : string :=
  if JS.isNaN seconds || JS.lt seconds (Fin 0) then "00:00"
  else
    let mins := JS.floor (JS.div seconds (Fin 60)) in
    let secs := JS.floor (JS.rem seconds (Fin 60)) in
    JS.padStart 2 "0" (JS.toString mins) ++ ":" ++
    JS.padStart 2 "0" (JS.toString secs).

(** ** Player functions *)

Definition updateProgress (w : World) : World :=
  if State.isSeeking (state w) then w
  else
    let currentTime := Audio.currentTime (audioElement w) in
    let duration := JS.or (Audio.duration (audioElement w)) (Fin 0) in
    let progressPercent :=
      if JS.truthy duration
      then JS.mul (JS.div currentTime duration) (Fin 100)
      else Fin 0 in
    let w :=
      match currentTimeEl w with
      | Some el =>
          set_currentTimeEl
            (Some (set_time_datetime currentTime
                     (set_time_textContent (formatTime currentTime) el))) w
      | None => w
      end in
    let w :=
      match progressBar w with
      | Some el =>
          set_progressBar
            (Some (set_bar_ariaValueNow progressPercent
                     (set_bar_width progressPercent el))) w
      | None => w
      end in
    match seekSlider w with
    | Some el => set_seekSlider (Some (set_seek_value progressPercent el)) w
    | None => w
    end.

Definition updateDuration (w : World) : World :=
  match durationEl w with
  | None => w
  | Some el =>
      let duration := Audio.duration (audioElement w) in
      if negb (JS.isNaN duration) && JS.isFinite duration then
        let w :=
          set_durationEl
            (Some (set_time_datetime duration
                     (set_time_textContent (formatTime duration) el))) w in
        match seekSlider w with
        | Some sl =>
            set_seekSlider
              (Some (set_seek_ariaValueMax duration
                       (set_seek_disabled false sl))) w
        | None => w
        end
      else w
  end.

Definition updatePlayPauseIcon (w : World) : World :=
  match playIcon w, pauseIcon w with
  | Some _, Some _ =>
      let paused := Audio.paused (audioElement w) in
      let isPlaying := negb paused in
      let w := set_state (State.set_isPlaying isPlaying (state w)) w in
      let w := set_playIcon (Some (mkIcon (negb paused))) w in
      let w := set_pauseIcon (Some (mkIcon paused)) w in
      set_playPauseBtn (mkButton (if isPlaying then "Pause" else "Play")) w
  | _, _ => w
  end.

Inductive FeedbackType : Type := info | error.

Definition feedbackClassName (type : FeedbackType) : string :=
  "absolute -top-12 left-1/2 -translate-x-1/2 px-4 py-2 rounded-lg backdrop-blur-sm transition-opacity duration-300 "
  ++ match type with
     | error => "bg-red-500/20 text-red-300"
     | info => "bg-his-hover/90 text-his-text"
     end.

Definition showFeedback (message : string) (type : FeedbackType) (w : World)
  : World :=
  match feedbackEl w, feedbackText w with
  | Some el, Some _ =>
      let w := set_feedbackText (Some message) w in
      let el := set_fb_opacity "1" (set_fb_className (feedbackClassName type) el) in
      let existingTimeout := fb_timeout el in
      let w := clearTimeout existingTimeout w in
      let (timeoutId, w) := setTimeout HideFeedback w in
      set_feedbackEl (Some (set_fb_timeout (Some timeoutId) el)) w
  | _, _ => w
  end.

Definition togglePlayPause (reply : PlayReply) (w : World) : Completion :=
  tryCatch
    (do w <- (if Audio.paused (audioElement w)
              then play reply CatchPlaybackFailed w
              else Normal (pause w)) ;;
     Normal (updatePlayPauseIcon w))
    (fun err w => Normal (console_error ("Playback error: " ++ err) w)).

Definition setPlaybackSpeed (speed : number) (w : World) : World :=
  if negb (includes SUPPORTED_SPEEDS speed) then w
  else
    let w := set_audioElement (Audio.set_playbackRate speed (audioElement w)) w in
    let w := set_state (State.set_playbackRate speed (state w)) w in
    let w :=
      match speedButton w with
      | Some b =>
          set_speedButton
            (Some (set_sb_ariaLabel
                     ("Playback speed: " ++ JS.toString speed ++ "x")
                     (set_sb_textContent (JS.toString speed ++ "x") b))) w
      | None => w
      end in
    let w :=
      set_speedOptions
        (map (fun option =>
                let optionSpeed :=
                  JS.parseFloat
                    (match dataSpeed option with
                     | Some s => s
                     | None => Fin 1
                     end) in
                let isActive := JS.seq optionSpeed speed in
                set_opt_ariaChecked isActive
                  (set_opt_textGreen isActive
                     (set_opt_bgGreen isActive option)))
           (speedOptions w)) w in
    let w := showFeedback ("Speed: " ++ JS.toString speed ++ "x") info w in
    match speedMenu w with
    | Some _ =>
        let w := set_speedMenu (Some (mkIcon true)) w in
        match speedButton w with
        | Some b => set_speedButton (Some (set_sb_ariaExpanded false b)) w
        | None => w
        end
    | None => w
    end.

Definition updateVolumeSliderBackground (w : World) : World :=
  match volumeSlider w with
  | Some sl => set_volumeSlider (Some (set_vol_background (vol_value sl) sl)) w
  | None => w
  end.

Definition updateVolume (volume : number) (w : World) : World :=
  let clampedVolume := JS.max (Fin 0) (JS.min (Fin 1) volume) in
  let w := set_audioElement (Audio.set_volume clampedVolume (audioElement w)) w in
  let w := set_state (State.set_volume clampedVolume (state w)) w in
  let isMuted := JS.seq clampedVolume (Fin 0) in
  let w := set_audioElement (Audio.set_muted isMuted (audioElement w)) w in
  let w := set_state (State.set_isMuted isMuted (state w)) w in
  let w :=
    match volumeIcon w, muteIcon w with
    | Some _, Some _ =>
        set_muteIcon (Some (mkIcon (negb isMuted)))
          (set_volumeIcon (Some (mkIcon isMuted)) w)
    | _, _ => w
    end in
  let w :=
    match volumeSlider w with
    | Some sl =>
        updateVolumeSliderBackground
          (set_volumeSlider
             (Some (set_vol_value (JS.mul clampedVolume (Fin 100)) sl)) w)
    | None => w
    end in
  match volumeBtn w with
  | Some _ => set_volumeBtn (Some (mkButton (if isMuted then "Unmute" else "Mute"))) w
  | None => w
  end.

(** ** Event listeners *)

(** [audioElement] 'ended'. *)
Definition onEnded (w : World) : World :=
  updatePlayPauseIcon (showFeedback "Playback completed" info w).

(** [audioElement] 'waiting'. *)
Definition onWaiting (w : World) : World := showFeedback "Buffering..." info w.

(** [audioElement] 'canplay'. *)
Definition onCanPlay (w : World) : World :=
  match feedbackEl w, feedbackText w with
  | Some el, Some text =>
      if String.eqb text "Buffering..."
      then set_feedbackEl (Some (set_fb_opacity "0" el)) w
      else w
  | _, _ => w
  end.

(** [audioElement] 'error'. *)
Definition onError (w : World) : World :=
  showFeedback "Failed to load audio" error (console_error "Audio error:" w).

(** The function handed to [debounce] for the 'input' event of the seek
    slider. *)
Definition seekPreview (w : World) : World :=
  match seekSlider w with
  | None => w
  | Some sl =>
      let w := set_state (State.set_isSeeking true (state w)) w in
      let value := JS.parseFloat (seek_value sl) in
      let duration := JS.or (Audio.duration (audioElement w)) (Fin 0) in
      let currentTime := JS.mul (JS.div value (Fin 100)) duration in
      let w :=
        match currentTimeEl w with
        | Some el =>
            set_currentTimeEl
              (Some (set_time_textContent (formatTime currentTime) el)) w
        | None => w
        end in
      match progressBar w with
      | Some el => set_progressBar (Some (set_bar_width value el)) w
      | None => w
      end
  end.

(** [seekSlider] 'input': the debounced listener only restarts its timer. *)
Definition onSeekInput (w : World) : World :=
  match seekSlider w with
  | None => w
  | Some _ =>
      let w := clearTimeout (seekTimeoutId w) w in
      let (timeoutId, w) := setTimeout SeekPreview w in
      set_seekTimeoutId (Some timeoutId) w
  end.

(** [seekSlider] 'change'. *)
Definition onSeekChange (w : World) : Completion :=
  match seekSlider w with
  | None => Normal w
  | Some sl =>
      let value := JS.parseFloat (seek_value sl) in
      let duration := JS.or (Audio.duration (audioElement w)) (Fin 0) in
      do w <- assignCurrentTime (JS.mul (JS.div value (Fin 100)) duration) w ;;
      let w := set_state (State.set_isSeeking false (state w)) w in
      Normal
        (showFeedback
           ("Jumped to " ++ formatTime (Audio.currentTime (audioElement w)))
           info w)
  end.

(** [volumeBtn] 'click'. *)
Definition onVolumeBtnClick (w : World) : World :=
  match volumeBtn w with
  | None => w
  | Some _ =>
      let w :=
        if State.isMuted (state w) then
          updateVolume (JS.or (State.lastVolume (state w)) (Fin 0.5)) w
        else
          let w :=
            set_state
              (State.set_lastVolume (Audio.volume (audioElement w)) (state w))
              w in
          updateVolume (Fin 0) w in
      set_state (State.set_isMuted (negb (State.isMuted (state w))) (state w)) w
  end.

(** [volumeSlider] 'input'. *)
Definition onVolumeInput (w : World) : World :=
  match volumeSlider w with
  | None => w
  | Some sl =>
      let volume := JS.div (JS.parseInt (vol_value sl)) (Fin 100) in
      updateVolume volume w
  end.

(** [speedButton] 'click'; the event does not reach the document. *)
Definition onSpeedButtonClick (w : World) : World :=
  match speedButton w, speedMenu w with
  | Some b, Some m =>
      let isExpanded := negb (hidden m) in
      set_speedButton (Some (set_sb_ariaExpanded (negb isExpanded) b))
        (set_speedMenu (Some (mkIcon isExpanded)) w)
  | _, _ => w
  end.

(** Where a click that reaches the document landed. *)
Inductive ClickTarget : Type :=
| OnSpeedOption (i : nat)     (* the i-th element of class speed-option *)
| InSpeedMenu                 (* elsewhere inside the speed menu *)
| InSpeedButton
| Elsewhere.

(** [document] 'click'. *)
Definition onDocumentClick (target : ClickTarget) (w : World) : World :=
  match target with
  | OnSpeedOption i =>
      match nth_error (speedOptions w) i with
      | Some option =>
          let speed :=
            JS.parseFloat
              (match dataSpeed option with
               | Some s => s
               | None => Fin 1
               end) in
          setPlaybackSpeed speed w
      | None => w
      end
  | InSpeedMenu | InSpeedButton => w
  | Elsewhere =>
      match speedMenu w with
      | Some _ =>
          let w := set_speedMenu (Some (mkIcon true)) w in
          match speedButton w with
          | Some b => set_speedButton (Some (set_sb_ariaExpanded false b)) w
          | None => w
          end
      | None => w
      end
  end.

(** ** Keyboard shortcuts *)

Record KeyboardEvent : Type := mkKeyboardEvent {
  key : string;
  (* the target is an INPUT, a TEXTAREA, editable, or inside a textbox *)
  targetTakesText : bool
}.

(** [String.prototype.toLowerCase] on a key made of ASCII characters, as
    the names of the shortcut keys are; characters outside ASCII are left
    as they are. *)
Definition toLowerCase (s : string) : string :=
  string_of_list_ascii
    (map (fun c =>
            let n := nat_of_ascii c in
            if (65 <=? n)%nat && (n <=? 90)%nat then ascii_of_nat (n + 32) else c)
       (list_ascii_of_string s)).

(** [document] 'keydown'; [hasFocus] is [document.hasFocus()] and [reply]
    the browser's answer should the key start playback.  The positions
    written by "j", "k" and Home are finite whenever the position read from
    the element is finite, as every position a media element reports is
    (and a duration is never negative); the one written by End is the
    duration, which is [Infinity] on a stream. *)
Definition onKeyDown (reply : PlayReply) (hasFocus : bool) (e : KeyboardEvent)
    (w : World) : Completion :=
  if targetTakesText e then Normal w
  else if negb hasFocus then Normal w
  else
    let k := toLowerCase (key e) in
    if String.eqb k " " then
      do w <- togglePlayPause reply w ;;
      Normal (showFeedback
                (if Audio.paused (audioElement w) then "Paused" else "Playing")
                info w)
    else if String.eqb k "m" then
      match volumeBtn w with
      | Some _ => Normal (onDocumentClick Elsewhere (onVolumeBtnClick w))
      | None => Normal w
      end
    else if String.eqb k "j" then
      let w :=
        set_audioElement
          (Audio.set_currentTime
             (JS.max (Fin 0)
                (JS.sub (Audio.currentTime (audioElement w)) SEEK_JUMP))
             (audioElement w)) w in
      Normal (showFeedback
                ("-" ++ JS.toString SEEK_JUMP ++ "s (" ++
                 formatTime (Audio.currentTime (audioElement w)) ++ ")")
                info w)
    else if String.eqb k "k" then
      let w :=
        set_audioElement
          (Audio.set_currentTime
             (JS.min (JS.or (Audio.duration (audioElement w)) (Fin 0))
                (JS.add (Audio.currentTime (audioElement w)) SEEK_JUMP))
             (audioElement w)) w in
      Normal (showFeedback
                ("+" ++ JS.toString SEEK_JUMP ++ "s (" ++
                 formatTime (Audio.currentTime (audioElement w)) ++ ")")
                info w)
    else if String.eqb k "l" then
      match speedButton w with
      | Some _ => Normal (onSpeedButtonClick w)
      | None => Normal w
      end
    else if String.eqb k "arrowup" then
      match volumeSlider w with
      | Some _ =>
          let newVolume :=
            JS.min (Fin 1) (JS.add (Audio.volume (audioElement w)) VOLUME_JUMP) in
          let w := updateVolume newVolume w in
          Normal (showFeedback
                    ("Volume: " ++
                     JS.toString (JS.round (JS.mul newVolume (Fin 100))) ++ "%")
                    info w)
      | None => Normal w
      end
    else if String.eqb k "arrowdown" then
      match volumeSlider w with
      | Some _ =>
          let newVolume :=
            JS.max (Fin 0) (JS.sub (Audio.volume (audioElement w)) VOLUME_JUMP) in
          let w := updateVolume newVolume w in
          Normal (showFeedback
                    ("Volume: " ++
                     JS.toString (JS.round (JS.mul newVolume (Fin 100))) ++ "%")
                    info w)
      | None => Normal w
      end
    else if String.eqb k "home" then
      let w :=
        set_audioElement (Audio.set_currentTime (Fin 0) (audioElement w)) w in
      Normal (showFeedback "Start" info w)
    else if String.eqb k "end" then
      if negb (JS.isNaN (Audio.duration (audioElement w))) then
        do w <- assignCurrentTime (Audio.duration (audioElement w)) w ;;
        Normal (showFeedback "End" info w)
      else Normal w
    else Normal w.

(** ** [window.audioPlayer] *)

Module audioPlayer.

(** The promise of [play()] is returned to the caller; [callerCatches]
    tells whether the caller chains a rejection handler on it. *)
Definition play (reply : PlayReply) (callerCatches : bool) (w : World)
  : Completion :=
  play reply (CallersReaction callerCatches) w.

Definition pause (w : World) : World := pause w.

Definition setSpeed (speed : number) (w : World) : World :=
  setPlaybackSpeed speed w.

Definition seekTo (time : number) (w : World) : Completion :=
  assignCurrentTime time w.

End audioPlayer.

(** ** Timers and promises *)

Definition runTask (task : Task) (w : World) : World :=
  match task with
  | HideFeedback =>
      match feedbackEl w with
      | Some el => set_feedbackEl (Some (set_fb_opacity "0" el)) w
      | None => w
      end
  | SeekPreview => seekPreview w
  end.

(** The timer [id] expires: it leaves the table and its task runs. *)
Definition onTimer (id : nat) (w : World) : World :=
  match find (fun t => Nat.eqb (fst t) id) (timers w) with
  | Some (_, task) => runTask task (clearTimeout (Some id) w)
  | None => w
  end.

Inductive Outcome : Type :=
| Fulfilled
| Rejected (err : string).

(** The [i]-th pending play promise settles and its reaction runs; a
    rejection without a reaction is reported as uncaught.  What a handler
    of the caller does is the caller's. *)
Definition onPlaySettled (i : nat) (outcome : Outcome) (w : World) : World :=
  match nth_error (playPromises w) i with
  | None => w
  | Some reaction =>
      let w :=
        set_playPromises
          (firstn i (playPromises w) ++ skipn (S i) (playPromises w))%list w in
      match outcome, reaction with
      | Fulfilled, _ => w
      | Rejected err, CatchPlaybackFailed =>
          showFeedback "Playback failed" error
            (console_error ("Playback failed: " ++ err) w)
      | Rejected err, NoReaction | Rejected err, CallersReaction false =>
          set_uncaught (uncaught w ++ [err])%list w
      | Rejected err, CallersReaction true => w
      end
  end.

(** ** The event loop *)

Inductive Event : Type :=
| BrowserUpdates (audio : Audio.t)    (* the element changes on its own *)
| MediaPlay
| MediaPause
| MediaTimeUpdate
| MediaLoadedMetadata
| MediaEnded
| MediaWaiting
| MediaCanPlay
| MediaError
| PlayPauseClick (reply : PlayReply)
| SeekInput (value : number)          (* the thumb is dragged to [value] *)
| SeekChange (value : number)         (* the thumb is released at [value] *)
| VolumeBtnClick
| VolumeInput (value : number)
| SpeedButtonClick
| DocumentClick (target : ClickTarget)
| KeyDown (reply : PlayReply) (hasFocus : bool) (e : KeyboardEvent)
| TimerFires (id : nat)
| PlaySettles (i : nat) (outcome : Outcome).

(** An exception that leaves a listener is reported by the browser. *)
Definition report (c : Completion) : World :=
  match c with
  | Normal w => w
  | Throw err w => set_uncaught (uncaught w ++ [err])%list w
  end.

Definition userSetsSeek (value : number) (w : World) : World :=
  match seekSlider w with
  | Some sl => set_seekSlider (Some (set_seek_value value sl)) w
  | None => w
  end.

Definition userSetsVolume (value : number) (w : World) : World :=
  match volumeSlider w with
  | Some sl => set_volumeSlider (Some (set_vol_value value sl)) w
  | None => w
  end.

(** One turn of the event loop; a click on a control goes on to the
    listener of the document. *)
Definition dispatch (ev : Event) (w : World) : World :=
  match ev with
  | BrowserUpdates audio => set_audioElement audio w
  | MediaPlay | MediaPause => updatePlayPauseIcon w
  | MediaTimeUpdate => updateProgress w
  | MediaLoadedMetadata => updateDuration w
  | MediaEnded => onEnded w
  | MediaWaiting => onWaiting w
  | MediaCanPlay => onCanPlay w
  | MediaError => onError w
  | PlayPauseClick reply =>
      onDocumentClick Elsewhere (report (togglePlayPause reply w))
  | SeekInput value => onSeekInput (userSetsSeek value w)
  | SeekChange value => report (onSeekChange (userSetsSeek value w))
  | VolumeBtnClick => onDocumentClick Elsewhere (onVolumeBtnClick w)
  | VolumeInput value => onVolumeInput (userSetsVolume value w)
  | SpeedButtonClick => onSpeedButtonClick w
  | DocumentClick target => onDocumentClick target w
  | KeyDown reply hasFocus e => report (onKeyDown reply hasFocus e w)
  | TimerFires id => onTimer id w
  | PlaySettles i outcome => onPlaySettled i outcome w
  end.

Definition run (evs : list Event) (w : World) : World :=
  fold_left (fun w ev => dispatch ev w) evs w.

(** ** The earlier version of the widget

    Same page, no [PlayerState] object and no [try]: only the functions that
    differ from the ones above are given. *)

Module Variant.

Definition updatePlayPauseIcon (w : World) : World :=
  match playIcon w, pauseIcon w with
  | Some _, Some _ =>
      if Audio.paused (audioElement w) then
        set_pauseIcon (Some (mkIcon true)) (set_playIcon (Some (mkIcon false)) w)
      else
        set_pauseIcon (Some (mkIcon false)) (set_playIcon (Some (mkIcon true)) w)
  | _, _ => w
  end.

(** The [else] branch is the expression statement [audioElement.paused;]:
    it reads the flag and does nothing with it. *)
Definition togglePlayPause (reply : PlayReply) (w : World) : Completion :=
  do w <- (if Audio.paused (audioElement w)
           then play reply NoReaction w
           else
             let _ := Audio.paused (audioElement w) in
             Normal w) ;;
  Normal (updatePlayPauseIcon w).

(** [showFeedback]: the timer is started and never cleared. *)
Definition showFeedback (message : string) (w : World) : World :=
  match feedbackEl w, feedbackText w with
  | Some el, Some _ =>
      let w := set_feedbackText (Some message) w in
      let w := set_feedbackEl (Some (set_fb_opacity "1" el)) w in
      let (_, w) := setTimeout HideFeedback w in
      w
  | _, _ => w
  end.

(** [volumeBtn] 'click': the muted flag of the element is toggled. *)
Definition onVolumeBtnClick (w : World) : World :=
  match volumeBtn w, volumeIcon w, muteIcon w with
  | Some _, Some _, Some _ =>
      let w :=
        set_audioElement
          (Audio.set_muted (negb (Audio.muted (audioElement w)))
             (audioElement w)) w in
      let muted := Audio.muted (audioElement w) in
      let w := set_volumeIcon (Some (mkIcon muted)) w in
      let w := set_muteIcon (Some (mkIcon (negb muted))) w in
      showFeedback (if muted then "Muted" else "Unmuted") w
  | _, _, _ => w
  end.

End Variant.

(** ** A page with every element, before any event *)

Definition initialAudio : Audio.t :=
  Audio.mk (Fin 0) (Fin 200) true (Fin 0.5) false (Fin 1).

Definition initialState : State.t :=
  State.mk false false (Fin 0.5) (Fin 1) false (Fin 0.5).

Definition initialWorld : World :=
  insertSpeedControl true
    (mkWorld initialAudio initialState (mkButton "Play")
       (Some (mkIcon false)) (Some (mkIcon true))
       (Some (mkTimeEl "00:00" (Fin 0))) (Some (mkTimeEl "00:00" (Fin 0)))
       (Some (mkProgressBar (Fin 0) (Fin 0)))
       (Some (mkSeekSlider (Fin 0) false (Fin 200)))
       (Some (mkButton "Mute")) (Some (mkIcon false)) (Some (mkIcon true))
       (Some (mkVolumeSlider (Fin 50) (Fin 50)))
       (Some (mkFeedbackEl "" "0" None)) (Some "")
       None None [] [] 1%nat None [] [] []).

(** ** Vocabulary of the specification *)

(** The clamp of [updateVolume]. *)
Definition clamp01 (v : number) : number := JS.max (Fin 0) (JS.min (Fin 1) v).

(** What the play/pause display shows: the two icons and [state.isPlaying]. *)
Definition display (w : World) : option Icon * option Icon * bool :=
  (playIcon w, pauseIcon w, State.isPlaying (state w)).

(** The display agrees with the paused flag of the media element. *)
Definition reconciled (w : World) : Prop :=
  let paused := Audio.paused (audioElement w) in
  display w = (Some (mkIcon (negb paused)), Some (mkIcon paused), negb paused).

(** Playback is paused, for the media element and for the controller. *)
Definition left_paused (w : World) : Prop :=
  Audio.paused (audioElement w) = true /\ State.isPlaying (state w) = false.

(** The speed options are the ones [createSpeedControl] built. *)
Definition speedOptionsCreated (w : World) : Prop :=
  map dataSpeed (speedOptions w) = map dataSpeed (sc_options createSpeedControl).

(** The speed an option stands for: [parseFloat(data-speed || '1')]. *)
Definition optionSpeed (option : SpeedOption) : number :=
  JS.parseFloat (match dataSpeed option with Some s => s | None => Fin 1 end).

(** ** Vocabulary of the further properties *)

Definition Task_eqb (a b : Task) : bool :=
  match a, b with
  | HideFeedback, HideFeedback | SeekPreview, SeekPreview => true
  | _, _ => false
  end.

(** How many timers with the given task are pending. *)
Definition pending (task : Task) (w : World) : nat :=
  List.length (filter (fun t => Task_eqb (snd t) task) (timers w)).

(** What the timer bookkeeping of the script consists of. *)
Definition timerView (w : World)
  : list (nat * Task) * nat * option (option nat) * option nat :=
  (timers w, nextTimerId w, option_map fb_timeout (feedbackEl w),
   seekTimeoutId w).

(** Every pending timer has an id the browser already handed out, no id is
    pending twice, a pending hide timer is the one recorded on the feedback
    element and a pending preview timer is the one the debounce closure
    holds; the recorded ids were handed out by the browser as well. *)
Definition timersTracked (w : World) : Prop :=
  (forall t, In t (timers w) -> (fst t < nextTimerId w)%nat) /\
  NoDup (map fst (timers w)) /\
  (forall id, In (id, HideFeedback) (timers w) ->
              option_map fb_timeout (feedbackEl w) = Some (Some id)) /\
  (forall id, In (id, SeekPreview) (timers w) -> seekTimeoutId w = Some id) /\
  (forall id, option_map fb_timeout (feedbackEl w) = Some (Some id) ->
              (id < nextTimerId w)%nat) /\
  (forall id, seekTimeoutId w = Some id -> (id < nextTimerId w)%nat).

(** The timer table after [clearTimeout(id)]. *)
Definition cleared (id : option nat) (l : list (nat * Task))
  : list (nat * Task) :=
  match id with
  | Some i => filter (fun t => negb (Nat.eqb (fst t) i)) l
  | None => l
  end.

(** The speed button and the speed menu, as far as they concern each
    other: [aria-expanded] of the button and the menu itself. *)
Definition menuView (w : World) : option bool * option Icon :=
  (option_map sb_ariaExpanded (speedButton w), speedMenu w).

(** [aria-expanded] of the speed button tells whether the menu is shown. *)
Definition menuConsistent (w : World) : Prop :=
  forall expanded m,
    menuView w = (Some expanded, Some m) -> expanded = negb (hidden m).

(** A natural number in decimal, padded to two digits as [formatTime]
    pads minutes and seconds. *)
Definition twoDigits (n : nat) : string :=
  JS.padStart 2 "0" (NilZero.string_of_int (Z.to_int (Z.of_nat n))).

(** The pending play promises and the errors nobody caught. *)
Definition promiseView (w : World) : list Reaction * list string :=
  (playPromises w, uncaught w).

(** Every pending play promise carries the [.catch] of [togglePlayPause]. *)
Definition promisesGuarded (w : World) : Prop :=
  Forall (fun r => r = CatchPlaybackFailed) (playPromises w).

(** The events that ask for playback or bring the answer: a click on the
    play/pause button, the space bar, and the settling of a play promise. *)
Definition playEvent (ev : Event) : Prop :=
  match ev with
  | PlayPauseClick _ | PlaySettles _ _ => True
  | KeyDown _ _ e => toLowerCase (key e) = " "
  | _ => False
  end.

(** The keys of the shortcut table, as [onKeyDown] compares them. *)
Definition shortcutKeys : list string :=
  [" "; "m"; "j"; "k"; "l"; "arrowup"; "arrowdown"; "home"; "end"].

(** A key made of ASCII characters only. *)
Definition isAscii (s : string) : bool :=
  forallb (fun c => (nat_of_ascii c <? 128)%nat) (list_ascii_of_string s).

(** The position a release of the seek slider at [value] asks for. *)
Definition seekTarget (value : number) (w : World) : number :=
  JS.mul (JS.div value (Fin 100))
    (JS.or (Audio.duration (audioElement w)) (Fin 0)).

(** * Properties *)

(** ** Numbers *)

Ltac qprop :=
  repeat match goal with
    | H : Qle_bool _ _ = true |- _ => apply Qle_bool_iff in H
    | H : Qle_bool _ _ = false |- _ =>
        apply not_true_iff_false in H; rewrite Qle_bool_iff in H
    | H : Qeq_bool _ _ = true |- _ => apply Qeq_bool_iff in H
    | H : Qeq_bool _ _ = false |- _ => apply Qeq_bool_neq in H
    | H : negb _ = true |- _ => apply negb_true_iff in H
    | H : negb _ = false |- _ => apply negb_false_iff in H
    | |- negb _ = true => apply negb_true_iff
    | |- negb _ = false => apply negb_false_iff
    | |- Qle_bool _ _ = true => apply Qle_bool_iff
    | |- Qeq_bool _ _ = true => apply Qeq_bool_iff
    | |- _ = false => apply not_true_iff_false; intro
    end.

Ltac qsolve := qprop; try reflexivity; try discriminate; try lra.

(** Case analysis on the innermost [match] of the goal. *)
Ltac break_match :=
  match goal with
  | |- context [match ?x with _ => _ end] =>
      lazymatch x with
      | context [match _ with _ => _ end] => fail
      | _ => destruct x eqn:?
      end
  end.

Ltac crush_matches := simpl; repeat (break_match; simpl).

Lemma min_Fin (a b : Q) :
  JS.min (Fin a) (Fin b) = if Qle_bool a b then Fin a else Fin b.
Proof. cbn. destruct (Qle_bool a b); reflexivity. Qed.

Lemma max_Fin (a b : Q) :
  JS.max (Fin a) (Fin b) = if Qle_bool b a then Fin a else Fin b.
Proof. cbn. destruct (Qle_bool b a); reflexivity. Qed.

Lemma clamp01_Fin (q : Q) :
  clamp01 (Fin q) =
  if Qle_bool 1 q then Fin 1 else if Qle_bool q 0 then Fin 0 else Fin q.
Proof.
  unfold clamp01. rewrite min_Fin.
  destruct (Qle_bool 1 q) eqn:E1; rewrite max_Fin; reflexivity.
Qed.

Lemma clamp01_range (v : number) :
  JS.isNaN v = false ->
  JS.le (Fin 0) (clamp01 v) = true /\ JS.le (clamp01 v) (Fin 1) = true.
Proof.
  destruct v as [| |q|]; intros H; try discriminate; try (cbn; auto; fail).
  rewrite clamp01_Fin.
  destruct (Qle_bool 1 q) eqn:E1; [|destruct (Qle_bool q 0) eqn:E0];
    cbn [JS.le]; split; qsolve.
Qed.

Lemma clamp01_inside (v : number) :
  JS.le (Fin 0) v = true -> JS.le v (Fin 1) = true ->
  JS.seq (clamp01 v) v = true.
Proof.
  destruct v as [| |q|]; cbn [JS.le]; intros H0 H1; try discriminate.
  rewrite clamp01_Fin.
  destruct (Qle_bool 1 q) eqn:E1; [|destruct (Qle_bool q 0) eqn:E0];
    cbn [JS.seq]; qsolve.
Qed.

Lemma clamp01_below (v : number) :
  JS.lt v (Fin 0) = true -> clamp01 v = Fin 0.
Proof.
  destruct v as [| |q|]; cbn [JS.lt]; intros H; try discriminate;
    [reflexivity|].
  rewrite clamp01_Fin.
  destruct (Qle_bool 1 q) eqn:E1; [|destruct (Qle_bool q 0) eqn:E0];
    try reflexivity; exfalso; qsolve.
Qed.

Lemma clamp01_above (v : number) :
  JS.lt (Fin 1) v = true -> clamp01 v = Fin 1.
Proof.
  destruct v as [| |q|]; cbn [JS.lt]; intros H; try discriminate;
    [|reflexivity].
  rewrite clamp01_Fin.
  destruct (Qle_bool 1 q) eqn:E1; [|destruct (Qle_bool q 0) eqn:E0];
    try reflexivity; exfalso; qsolve.
Qed.

Lemma clamp01_zero : clamp01 (Fin 0) = Fin 0.
Proof. reflexivity. Qed.

Example formatTime_samples :
  map formatTime [Fin 100; Fin 0; NaN; Fin 3599.5; Fin (-1); PosInf]
  = ["01:40"; "00:00"; "00:00"; "59:59"; "00:00"; "Infinity:NaN"].
Proof. vm_compute. reflexivity. Qed.

Example toString_samples :
  map JS.toString [Fin 0; Fin 0.75; Fin 1.25; Fin 100; Fin 0.05; Fin 2]
  = ["0"; "0.75"; "1.25"; "100"; "0.05"; "2"].
Proof. vm_compute. reflexivity. Qed.

Example exponent_notation_samples :
  map JS.toString
    [Fin (1 # 1000000); Fin (1 # 10000000); Fin (15 # 100000000);
     Fin (123456789012345680000 # 1); Fin (1000000000000000000000 # 1);
     Fin (60000000000000000000000 # 1); Fin (- (1 # 10000000))]
  = ["0.000001"; "1e-7"; "1.5e-7"; "123456789012345680000"; "1e+21";
     "6e+22"; "-1e-7"].
Proof. vm_compute. reflexivity. Qed.

Example parseInt_samples :
  map JS.parseInt
    [Fin 99.9; Fin 0.9; Fin (- (25 # 10)); Fin (1 # 1000000);
     Fin (1 # 10000000); Fin (15 # 100000000);
     Fin (60000000000000000000000 # 1); PosInf; NaN]
  = [Fin 99; Fin 0; Fin (-2); Fin 0; Fin 1; Fin 1; Fin 6; NaN; NaN].
Proof. vm_compute. reflexivity. Qed.

#[local] Arguments JS.max : simpl never.
#[local] Arguments JS.min : simpl never.
#[local] Arguments JS.seq : simpl never.
#[local] Arguments JS.le : simpl never.
#[local] Arguments JS.lt : simpl never.
#[local] Arguments JS.or : simpl never.
#[local] Arguments JS.add : simpl never.
#[local] Arguments JS.sub : simpl never.
#[local] Arguments JS.mul : simpl never.
#[local] Arguments JS.div : simpl never.
#[local] Arguments JS.round : simpl never.
#[local] Arguments JS.toString : simpl never.
#[local] Arguments formatTime : simpl never.
#[local] Arguments String.append : simpl never.
#[local] Arguments String.eqb : simpl never.
#[local] Arguments toLowerCase : simpl never.
#[local] Arguments feedbackClassName : simpl never.
#[local] Arguments includes : simpl never.

(** ** Volume *)

Lemma updateVolume_audio (v : number) (w : World) :
  audioElement (updateVolume v w) =
  Audio.set_muted (JS.seq (clamp01 v) (Fin 0))
    (Audio.set_volume (clamp01 v) (audioElement w)).
Proof.
  unfold updateVolume, updateVolumeSliderBackground, clamp01.
  crush_matches; reflexivity.
Qed.

Lemma updateVolume_state (v : number) (w : World) :
  state (updateVolume v w) =
  State.set_isMuted (JS.seq (clamp01 v) (Fin 0))
    (State.set_volume (clamp01 v) (state w)).
Proof.
  unfold updateVolume, updateVolumeSliderBackground, clamp01.
  crush_matches; reflexivity.
Qed.

Lemma updateVolume_volumeBtn (v : number) (w : World) :
  volumeBtn (updateVolume v w) = None <-> volumeBtn w = None.
Proof.
  unfold updateVolume, updateVolumeSliderBackground, clamp01.
  crush_matches; split; congruence.
Qed.

(** C1.  [updateVolume(v)], for a [v] that is a number: the value written to
    the media element is [v] clamped to [0,1] ([v] itself inside the
    interval, the nearer end outside), the state holds the same value, and
    the muted flag of the element and [state.isMuted] are true exactly when
    the clamped volume is 0. *)
Theorem updateVolume_clamps_and_mutes (v : number) (w : World) :
  JS.isNaN v = false ->
  let w' := updateVolume v w in
  let clamped := Audio.volume (audioElement w') in
  clamped = clamp01 v /\
  JS.le (Fin 0) clamped = true /\ JS.le clamped (Fin 1) = true /\
  (JS.le (Fin 0) v = true -> JS.le v (Fin 1) = true ->
   JS.seq clamped v = true) /\
  (JS.lt v (Fin 0) = true -> clamped = Fin 0) /\
  (JS.lt (Fin 1) v = true -> clamped = Fin 1) /\
  State.volume (state w') = clamped /\
  (Audio.muted (audioElement w') = true <-> JS.seq clamped (Fin 0) = true) /\
  (State.isMuted (state w') = true <-> JS.seq clamped (Fin 0) = true).
Proof.
  intros Hnan w' clamped. subst w' clamped.
  rewrite updateVolume_audio, updateVolume_state. simpl.
  destruct (clamp01_range v Hnan) as [H0 H1].
  repeat split; auto using clamp01_inside, clamp01_below, clamp01_above.
Qed.

Lemma updateVolume_clamps_and_mutes_witness :
  JS.isNaN (Fin 0) = false /\
  (Audio.muted (audioElement (updateVolume (Fin 0) initialWorld)) = true <->
   JS.seq (Audio.volume (audioElement (updateVolume (Fin 0) initialWorld)))
     (Fin 0) = true).
Proof.
  split; [reflexivity|].
  apply (updateVolume_clamps_and_mutes (Fin 0) initialWorld); reflexivity.
Defined.

(** Projections of the world across its setters, by rewriting: the
    equations are proved on variables, so that no large term is ever
    compared by conversion. *)
Ltac is_world_setter s :=
  lazymatch s with
  | set_audioElement => idtac | set_state => idtac | set_playPauseBtn => idtac
  | set_playIcon => idtac | set_pauseIcon => idtac | set_currentTimeEl => idtac
  | set_durationEl => idtac | set_progressBar => idtac | set_seekSlider => idtac
  | set_volumeBtn => idtac | set_volumeIcon => idtac | set_muteIcon => idtac
  | set_volumeSlider => idtac | set_feedbackEl => idtac
  | set_feedbackText => idtac | set_speedButton => idtac
  | set_speedMenu => idtac | set_speedOptions => idtac | set_timers => idtac
  | set_nextTimerId => idtac | set_seekTimeoutId => idtac
  | set_playPromises => idtac | set_console => idtac | set_uncaught => idtac
  end.

Ltac getset_step :=
  match goal with
  | |- context [?p (?s ?v ?x)] =>
      is_world_setter s;
      let H := fresh "Hgs" in
      first
        [ assert (H : forall a b, p (s a b) = p b) by (intros; reflexivity)
        | assert (H : forall a b, p (s a b) = a) by (intros; reflexivity) ];
      rewrite !H; clear H
  end.

Ltac getset := repeat getset_step.

Lemma onVolumeBtnClick_unmuted (w : World) :
  volumeBtn w <> None -> State.isMuted (state w) = false ->
  audioElement (onVolumeBtnClick w) =
    Audio.set_muted true (Audio.set_volume (Fin 0) (audioElement w)) /\
  state (onVolumeBtnClick w) =
    State.set_isMuted false
      (State.set_volume (Fin 0)
         (State.set_lastVolume (Audio.volume (audioElement w)) (state w))) /\
  volumeBtn (onVolumeBtnClick w) <> None.
Proof.
  intros Hbtn Hm. unfold onVolumeBtnClick.
  destruct (volumeBtn w) eqn:Eb; [clear Hbtn|congruence].
  rewrite Hm. cbv zeta. getset.
  rewrite updateVolume_state, updateVolume_audio, clamp01_zero. getset.
  split; [reflexivity|]. split; [reflexivity|].
  rewrite updateVolume_volumeBtn. getset. congruence.
Qed.

(** C2.  What the listener of the mute button does when it runs twice from
    an unmuted state: [updateVolume(0)] has already set [state.isMuted], the
    listener then negates it, so the second click takes the muting branch
    again; the volume stays 0 and the volume to restore is overwritten
    with 0. *)
Theorem volumeBtn_click_twice_stays_silent (w : World) :
  volumeBtn w <> None ->
  State.isMuted (state w) = false ->
  let w2 := onVolumeBtnClick (onVolumeBtnClick w) in
  Audio.volume (audioElement w2) = Fin 0 /\
  Audio.muted (audioElement w2) = true /\
  State.isMuted (state w2) = false /\
  State.lastVolume (state w2) = Fin 0.
Proof.
  intros Hbtn Hm w2. subst w2.
  destruct (onVolumeBtnClick_unmuted w Hbtn Hm) as (Ha & Hs & Hb).
  assert (Hm1 : State.isMuted (state (onVolumeBtnClick w)) = false)
    by (rewrite Hs; reflexivity).
  destruct (onVolumeBtnClick_unmuted _ Hb Hm1) as (Ha2 & Hs2 & _).
  rewrite Ha2, Hs2, Ha. simpl. auto.
Qed.

Lemma volumeBtn_click_twice_stays_silent_witness :
  volumeBtn initialWorld <> None /\
  State.isMuted (state initialWorld) = false /\
  Audio.volume (audioElement initialWorld) = Fin 0.5 /\
  Audio.volume
    (audioElement (onVolumeBtnClick (onVolumeBtnClick initialWorld))) = Fin 0.
Proof.
  split; [discriminate|]. split; [reflexivity|]. split; [reflexivity|].
  apply (volumeBtn_click_twice_stays_silent initialWorld);
    [discriminate|reflexivity].
Defined.

(** ** Frame lemmas: what the helpers leave alone *)

Ltac showFeedback_frame :=
  unfold showFeedback, clearTimeout, setTimeout; crush_matches; reflexivity.

Lemma showFeedback_audioElement (m : string) (t : FeedbackType) (w : World) :
  audioElement (showFeedback m t w) = audioElement w.
Proof. showFeedback_frame. Qed.

Lemma showFeedback_state (m : string) (t : FeedbackType) (w : World) :
  state (showFeedback m t w) = state w.
Proof. showFeedback_frame. Qed.

Lemma showFeedback_playPauseBtn (m : string) (t : FeedbackType) (w : World) :
  playPauseBtn (showFeedback m t w) = playPauseBtn w.
Proof. showFeedback_frame. Qed.

Lemma showFeedback_playIcon (m : string) (t : FeedbackType) (w : World) :
  playIcon (showFeedback m t w) = playIcon w.
Proof. showFeedback_frame. Qed.

Lemma showFeedback_pauseIcon (m : string) (t : FeedbackType) (w : World) :
  pauseIcon (showFeedback m t w) = pauseIcon w.
Proof. showFeedback_frame. Qed.

Lemma showFeedback_currentTimeEl (m : string) (t : FeedbackType) (w : World) :
  currentTimeEl (showFeedback m t w) = currentTimeEl w.
Proof. showFeedback_frame. Qed.

Lemma showFeedback_durationEl (m : string) (t : FeedbackType) (w : World) :
  durationEl (showFeedback m t w) = durationEl w.
Proof. showFeedback_frame. Qed.

Lemma showFeedback_progressBar (m : string) (t : FeedbackType) (w : World) :
  progressBar (showFeedback m t w) = progressBar w.
Proof. showFeedback_frame. Qed.

Lemma showFeedback_seekSlider (m : string) (t : FeedbackType) (w : World) :
  seekSlider (showFeedback m t w) = seekSlider w.
Proof. showFeedback_frame. Qed.

Lemma showFeedback_volumeBtn (m : string) (t : FeedbackType) (w : World) :
  volumeBtn (showFeedback m t w) = volumeBtn w.
Proof. showFeedback_frame. Qed.

Lemma showFeedback_volumeIcon (m : string) (t : FeedbackType) (w : World) :
  volumeIcon (showFeedback m t w) = volumeIcon w.
Proof. showFeedback_frame. Qed.

Lemma showFeedback_muteIcon (m : string) (t : FeedbackType) (w : World) :
  muteIcon (showFeedback m t w) = muteIcon w.
Proof. showFeedback_frame. Qed.

Lemma showFeedback_volumeSlider (m : string) (t : FeedbackType) (w : World) :
  volumeSlider (showFeedback m t w) = volumeSlider w.
Proof. showFeedback_frame. Qed.

Lemma showFeedback_speedButton (m : string) (t : FeedbackType) (w : World) :
  speedButton (showFeedback m t w) = speedButton w.
Proof. showFeedback_frame. Qed.

Lemma showFeedback_speedMenu (m : string) (t : FeedbackType) (w : World) :
  speedMenu (showFeedback m t w) = speedMenu w.
Proof. showFeedback_frame. Qed.

Lemma showFeedback_speedOptions (m : string) (t : FeedbackType) (w : World) :
  speedOptions (showFeedback m t w) = speedOptions w.
Proof. showFeedback_frame. Qed.

Lemma showFeedback_seekTimeoutId (m : string) (t : FeedbackType) (w : World) :
  seekTimeoutId (showFeedback m t w) = seekTimeoutId w.
Proof. showFeedback_frame. Qed.

Lemma showFeedback_playPromises (m : string) (t : FeedbackType) (w : World) :
  playPromises (showFeedback m t w) = playPromises w.
Proof. showFeedback_frame. Qed.

Lemma showFeedback_console (m : string) (t : FeedbackType) (w : World) :
  console (showFeedback m t w) = console w.
Proof. showFeedback_frame. Qed.

Lemma showFeedback_uncaught (m : string) (t : FeedbackType) (w : World) :
  uncaught (showFeedback m t w) = uncaught w.
Proof. showFeedback_frame. Qed.

Create Rewrite HintDb frame.

#[local] Hint Rewrite
  showFeedback_audioElement showFeedback_state showFeedback_playPauseBtn
  showFeedback_playIcon showFeedback_pauseIcon showFeedback_currentTimeEl
  showFeedback_durationEl showFeedback_progressBar showFeedback_seekSlider
  showFeedback_volumeBtn showFeedback_volumeIcon showFeedback_muteIcon
  showFeedback_volumeSlider showFeedback_speedButton
  showFeedback_speedMenu showFeedback_speedOptions
  showFeedback_seekTimeoutId showFeedback_playPromises
  showFeedback_console showFeedback_uncaught
  : frame.

Ltac frame := getset; autorewrite with frame; getset.

Lemma showFeedback_display (m : string) (t : FeedbackType) (w : World) :
  display (showFeedback m t w) = display w.
Proof. unfold display. autorewrite with frame. reflexivity. Qed.

Lemma updateVolume_display (v : number) (w : World) :
  display (updateVolume v w) = display w.
Proof.
  unfold display. rewrite updateVolume_state.
  unfold updateVolume, updateVolumeSliderBackground.
  crush_matches; reflexivity.
Qed.

Lemma setPlaybackSpeed_display (r : number) (w : World) :
  display (setPlaybackSpeed r w) = display w.
Proof.
  unfold setPlaybackSpeed, display.
  destruct (includes SUPPORTED_SPEEDS r); [|reflexivity]. cbv beta iota zeta delta [negb].
  repeat (break_match; frame); reflexivity.
Qed.

Lemma updateProgress_display (w : World) :
  display (updateProgress w) = display w.
Proof. unfold updateProgress, display. crush_matches; reflexivity. Qed.

Lemma updateDuration_display (w : World) :
  display (updateDuration w) = display w.
Proof. unfold updateDuration, display. crush_matches; reflexivity. Qed.

Lemma onCanPlay_display (w : World) : display (onCanPlay w) = display w.
Proof. unfold onCanPlay, display. crush_matches; reflexivity. Qed.

Lemma seekPreview_display (w : World) : display (seekPreview w) = display w.
Proof. unfold seekPreview, display. crush_matches; reflexivity. Qed.

Lemma onSeekInput_display (w : World) : display (onSeekInput w) = display w.
Proof.
  unfold onSeekInput, display, clearTimeout, setTimeout.
  crush_matches; reflexivity.
Qed.

Lemma onSeekChange_display (w : World) :
  display (report (onSeekChange w)) = display w.
Proof.
  unfold onSeekChange, assignCurrentTime, display.
  destruct (seekSlider w); [|reflexivity].
  cbv zeta. destruct (JS.isFinite _); cbv beta iota delta [bind report].
  - frame. reflexivity.
  - reflexivity.
Qed.

Lemma onVolumeBtnClick_display (w : World) :
  display (onVolumeBtnClick w) = display w.
Proof.
  unfold onVolumeBtnClick. destruct (volumeBtn w); [|reflexivity].
  cbv zeta. unfold display at 1. getset.
  destruct (State.isMuted (state w)).
  - match goal with
    | |- context [updateVolume ?v ?x] =>
        pose proof (updateVolume_display v x) as H
    end.
    unfold display in H. injection H as -> -> H.
    rewrite updateVolume_state in *. reflexivity.
  - match goal with
    | |- context [updateVolume ?v ?x] =>
        pose proof (updateVolume_display v x) as H
    end.
    unfold display in H. injection H as -> -> H.
    rewrite updateVolume_state in *. getset. reflexivity.
Qed.

Lemma onVolumeInput_display (w : World) :
  display (onVolumeInput w) = display w.
Proof.
  unfold onVolumeInput. destruct (volumeSlider w); [|reflexivity].
  apply updateVolume_display.
Qed.

Lemma onSpeedButtonClick_display (w : World) :
  display (onSpeedButtonClick w) = display w.
Proof. unfold onSpeedButtonClick, display. crush_matches; reflexivity. Qed.

Lemma onDocumentClick_display (target : ClickTarget) (w : World) :
  display (onDocumentClick target w) = display w.
Proof.
  destruct target; unfold onDocumentClick; try reflexivity.
  - destruct (nth_error (speedOptions w) i); [|reflexivity].
    apply setPlaybackSpeed_display.
  - unfold display. crush_matches; reflexivity.
Qed.

Lemma onDocumentClick_Elsewhere_audio (w : World) :
  audioElement (onDocumentClick Elsewhere w) = audioElement w.
Proof. unfold onDocumentClick. crush_matches; reflexivity. Qed.

Lemma onTimer_display (id : nat) (w : World) :
  display (onTimer id w) = display w.
Proof.
  unfold onTimer. destruct (find _ (timers w)) as [[? task]|]; [|reflexivity].
  destruct task; unfold runTask.
  - unfold display, clearTimeout. crush_matches; reflexivity.
  - rewrite seekPreview_display. reflexivity.
Qed.

Lemma onPlaySettled_display (i : nat) (o : Outcome) (w : World) :
  display (onPlaySettled i o w) = display w.
Proof.
  unfold onPlaySettled.
  destruct (nth_error (playPromises w) i) as [r|]; [|reflexivity].
  destruct o, r as [| |[|]]; cbv zeta; rewrite ?showFeedback_display;
    reflexivity.
Qed.

Lemma userSetsSeek_display (v : number) (w : World) :
  display (userSetsSeek v w) = display w.
Proof. unfold userSetsSeek, display. crush_matches; reflexivity. Qed.

Lemma userSetsVolume_display (v : number) (w : World) :
  display (userSetsVolume v w) = display w.
Proof. unfold userSetsVolume, display. crush_matches; reflexivity. Qed.

(** ** Play and pause *)

Lemma updatePlayPauseIcon_audio (w : World) :
  audioElement (updatePlayPauseIcon w) = audioElement w.
Proof. unfold updatePlayPauseIcon. crush_matches; reflexivity. Qed.

Lemma updatePlayPauseIcon_reconciled (w : World) :
  playIcon w <> None -> pauseIcon w <> None ->
  reconciled (updatePlayPauseIcon w).
Proof.
  intros Hp Hq. unfold reconciled, display, updatePlayPauseIcon.
  destruct (playIcon w); [|congruence].
  destruct (pauseIcon w); [|congruence]. reflexivity.
Qed.

Lemma reconciled_frame (w w' : World) :
  display w' = display w -> audioElement w' = audioElement w ->
  reconciled w -> reconciled w'.
Proof. unfold reconciled. intros Hd Ha H. rewrite Hd, Ha. exact H. Qed.

Lemma togglePlayPause_display (reply : PlayReply) (w : World) :
  playIcon w <> None -> pauseIcon w <> None ->
  exists w1, togglePlayPause reply w = Normal w1 /\
             (reconciled w1 \/ display w1 = display w).
Proof.
  intros Hp Hq. unfold togglePlayPause.
  destruct (Audio.paused (audioElement w)).
  - destruct reply; simpl; eexists; split; try reflexivity.
    + left. apply updatePlayPauseIcon_reconciled; assumption.
    + left. apply updatePlayPauseIcon_reconciled; assumption.
    + right. reflexivity.
  - simpl. eexists; split; [reflexivity|].
    left. apply updatePlayPauseIcon_reconciled; assumption.
Qed.

Lemma report_Normal (w : World) : report (Normal w) = w.
Proof. reflexivity. Qed.

Lemma bind_Normal (w : World) (k : World -> Completion) :
  bind (Normal w) k = k w.
Proof. reflexivity. Qed.

Lemma onKeyDown_display (reply : PlayReply) (hasFocus : bool)
    (e : KeyboardEvent) (w : World) :
  playIcon w <> None -> pauseIcon w <> None ->
  let w' := report (onKeyDown reply hasFocus e w) in
  reconciled w' \/ display w' = display w.
Proof.
  intros Hp Hq. unfold onKeyDown.
  destruct (targetTakesText e); [right; reflexivity|].
  destruct hasFocus; [|right; reflexivity]. cbv beta iota zeta delta [negb].
  repeat match goal with
         | |- context [String.eqb ?a ?b] => destruct (String.eqb a b)
         end.
  - destruct (togglePlayPause_display reply w Hp Hq) as (w1 & -> & H).
    rewrite bind_Normal, report_Normal.
    destruct H as [H|H]; [left|right].
    + eapply reconciled_frame; [| |exact H];
        [apply showFeedback_display|apply showFeedback_audioElement].
    + rewrite showFeedback_display. exact H.
  - right. destruct (volumeBtn w); rewrite report_Normal; [|reflexivity].
    rewrite onDocumentClick_display. apply onVolumeBtnClick_display.
  - right. rewrite report_Normal, showFeedback_display. reflexivity.
  - right. rewrite report_Normal, showFeedback_display. reflexivity.
  - right. destruct (speedButton w); rewrite report_Normal; [|reflexivity].
    apply onSpeedButtonClick_display.
  - right. destruct (volumeSlider w); rewrite report_Normal; [|reflexivity].
    rewrite showFeedback_display. apply updateVolume_display.
  - right. destruct (volumeSlider w); rewrite report_Normal; [|reflexivity].
    rewrite showFeedback_display. apply updateVolume_display.
  - right. rewrite report_Normal, showFeedback_display. reflexivity.
  - right. destruct (JS.isNaN _); cbv beta iota delta [negb];
      [reflexivity|].
    unfold assignCurrentTime.
    destruct (JS.isFinite _); cbv beta iota delta [bind report];
      [|reflexivity].
    rewrite showFeedback_display. reflexivity.
  - right. reflexivity.
Qed.

(** C3.  With both icons on the page, the icon refresh leaves the display
    in one of two states fixed by the paused flag of the media element: the
    play icon is visible exactly when the flag is set, the pause icon
    exactly when it is not, and [state.isPlaying] is the negation of the
    flag; the refresh does not touch the element.  The listeners of the
    element's play, pause and ended events end in that state, and every
    event of the loop either ends in it or leaves the display as it was. *)
Theorem display_follows_paused_flag (w : World) :
  playIcon w <> None -> pauseIcon w <> None ->
  (let w' := updatePlayPauseIcon w in
   let paused := Audio.paused (audioElement w') in
   audioElement w' = audioElement w /\
   (forall icon, playIcon w' = Some icon ->
                 (hidden icon = false <-> paused = true)) /\
   (forall icon, pauseIcon w' = Some icon ->
                 (hidden icon = false <-> paused = false)) /\
   playIcon w' <> None /\ pauseIcon w' <> None /\
   State.isPlaying (state w') = negb paused) /\
  reconciled (dispatch MediaPlay w) /\
  reconciled (dispatch MediaPause w) /\
  reconciled (dispatch MediaEnded w) /\
  (forall ev, reconciled (dispatch ev w) \/
              display (dispatch ev w) = display w).
Proof.
  intros Hp Hq.
  pose proof (updatePlayPauseIcon_reconciled w Hp Hq) as Hrec.
  assert (Hended : reconciled (onEnded w)).
  { unfold onEnded. apply updatePlayPauseIcon_reconciled;
      autorewrite with frame; assumption. }
  split; [|split; [|split; [|split]]].
  - cbv zeta. rewrite updatePlayPauseIcon_audio.
    unfold reconciled, display in Hrec.
    rewrite updatePlayPauseIcon_audio in Hrec.
    injection Hrec as H1 H2 H3. rewrite H1, H2, H3.
    split; [reflexivity|].
    split; [intros icon E; injection E as <-;
            destruct (Audio.paused (audioElement w)); simpl; split; congruence|].
    split; [intros icon E; injection E as <-;
            destruct (Audio.paused (audioElement w)); simpl; split; congruence|].
    repeat split; congruence.
  - exact Hrec.
  - exact Hrec.
  - exact Hended.
  - intros ev. destruct ev; unfold dispatch.
    + right. reflexivity.
    + left; exact Hrec.
    + left; exact Hrec.
    + right. apply updateProgress_display.
    + right. apply updateDuration_display.
    + left; exact Hended.
    + right. apply showFeedback_display.
    + right. apply onCanPlay_display.
    + right. unfold onError. rewrite showFeedback_display. reflexivity.
    + destruct (togglePlayPause_display reply w Hp Hq) as (w1 & -> & H).
      rewrite report_Normal. destruct H as [H|H]; [left|right].
      * eapply reconciled_frame; [| |exact H];
          [apply onDocumentClick_display|apply onDocumentClick_Elsewhere_audio].
      * rewrite onDocumentClick_display. exact H.
    + right. rewrite onSeekInput_display. apply userSetsSeek_display.
    + right. rewrite onSeekChange_display. apply userSetsSeek_display.
    + right. rewrite onDocumentClick_display.
      apply onVolumeBtnClick_display.
    + right. rewrite onVolumeInput_display. apply userSetsVolume_display.
    + right. apply onSpeedButtonClick_display.
    + right. apply onDocumentClick_display.
    + destruct (onKeyDown_display reply hasFocus e w Hp Hq) as [H|H];
        [left|right]; exact H.
    + right. apply onTimer_display.
    + right. apply onPlaySettled_display.
Qed.

Lemma display_follows_paused_flag_witness :
  playIcon initialWorld <> None /\ pauseIcon initialWorld <> None /\
  reconciled (dispatch MediaPlay initialWorld).
Proof.
  split; [discriminate|]. split; [discriminate|].
  apply (display_follows_paused_flag initialWorld); discriminate.
Defined.

Ltac updatePlayPauseIcon_frame :=
  unfold updatePlayPauseIcon; crush_matches; reflexivity.

Lemma updatePlayPauseIcon_currentTimeEl (w : World) :
  currentTimeEl (updatePlayPauseIcon w) = currentTimeEl w.
Proof. updatePlayPauseIcon_frame. Qed.

Lemma updatePlayPauseIcon_durationEl (w : World) :
  durationEl (updatePlayPauseIcon w) = durationEl w.
Proof. updatePlayPauseIcon_frame. Qed.

Lemma updatePlayPauseIcon_progressBar (w : World) :
  progressBar (updatePlayPauseIcon w) = progressBar w.
Proof. updatePlayPauseIcon_frame. Qed.

Lemma updatePlayPauseIcon_seekSlider (w : World) :
  seekSlider (updatePlayPauseIcon w) = seekSlider w.
Proof. updatePlayPauseIcon_frame. Qed.

Lemma updatePlayPauseIcon_volumeBtn (w : World) :
  volumeBtn (updatePlayPauseIcon w) = volumeBtn w.
Proof. updatePlayPauseIcon_frame. Qed.

Lemma updatePlayPauseIcon_volumeIcon (w : World) :
  volumeIcon (updatePlayPauseIcon w) = volumeIcon w.
Proof. updatePlayPauseIcon_frame. Qed.

Lemma updatePlayPauseIcon_muteIcon (w : World) :
  muteIcon (updatePlayPauseIcon w) = muteIcon w.
Proof. updatePlayPauseIcon_frame. Qed.

Lemma updatePlayPauseIcon_volumeSlider (w : World) :
  volumeSlider (updatePlayPauseIcon w) = volumeSlider w.
Proof. updatePlayPauseIcon_frame. Qed.

Lemma updatePlayPauseIcon_feedbackEl (w : World) :
  feedbackEl (updatePlayPauseIcon w) = feedbackEl w.
Proof. updatePlayPauseIcon_frame. Qed.

Lemma updatePlayPauseIcon_feedbackText (w : World) :
  feedbackText (updatePlayPauseIcon w) = feedbackText w.
Proof. updatePlayPauseIcon_frame. Qed.

Lemma updatePlayPauseIcon_speedButton (w : World) :
  speedButton (updatePlayPauseIcon w) = speedButton w.
Proof. updatePlayPauseIcon_frame. Qed.

Lemma updatePlayPauseIcon_speedMenu (w : World) :
  speedMenu (updatePlayPauseIcon w) = speedMenu w.
Proof. updatePlayPauseIcon_frame. Qed.

Lemma updatePlayPauseIcon_speedOptions (w : World) :
  speedOptions (updatePlayPauseIcon w) = speedOptions w.
Proof. updatePlayPauseIcon_frame. Qed.

Lemma updatePlayPauseIcon_timers (w : World) :
  timers (updatePlayPauseIcon w) = timers w.
Proof. updatePlayPauseIcon_frame. Qed.

Lemma updatePlayPauseIcon_nextTimerId (w : World) :
  nextTimerId (updatePlayPauseIcon w) = nextTimerId w.
Proof. updatePlayPauseIcon_frame. Qed.

Lemma updatePlayPauseIcon_seekTimeoutId (w : World) :
  seekTimeoutId (updatePlayPauseIcon w) = seekTimeoutId w.
Proof. updatePlayPauseIcon_frame. Qed.

Lemma updatePlayPauseIcon_playPromises (w : World) :
  playPromises (updatePlayPauseIcon w) = playPromises w.
Proof. updatePlayPauseIcon_frame. Qed.

Lemma updatePlayPauseIcon_console (w : World) :
  console (updatePlayPauseIcon w) = console w.
Proof. updatePlayPauseIcon_frame. Qed.

Lemma updatePlayPauseIcon_uncaught (w : World) :
  uncaught (updatePlayPauseIcon w) = uncaught w.
Proof. updatePlayPauseIcon_frame. Qed.

#[local] Hint Rewrite updatePlayPauseIcon_audio
  updatePlayPauseIcon_currentTimeEl updatePlayPauseIcon_durationEl
  updatePlayPauseIcon_progressBar updatePlayPauseIcon_seekSlider
  updatePlayPauseIcon_volumeBtn updatePlayPauseIcon_volumeIcon
  updatePlayPauseIcon_muteIcon updatePlayPauseIcon_volumeSlider
  updatePlayPauseIcon_feedbackEl updatePlayPauseIcon_feedbackText
  updatePlayPauseIcon_speedButton updatePlayPauseIcon_speedMenu
  updatePlayPauseIcon_speedOptions updatePlayPauseIcon_timers
  updatePlayPauseIcon_nextTimerId updatePlayPauseIcon_seekTimeoutId
  updatePlayPauseIcon_playPromises updatePlayPauseIcon_console
  updatePlayPauseIcon_uncaught
  : frame.

(** What a toast looks like once [showFeedback] ran on a page that has the
    feedback elements. *)
Lemma showFeedback_shown (m : string) (t : FeedbackType) (w : World)
    (el : FeedbackEl) (text : string) :
  feedbackEl w = Some el -> feedbackText w = Some text ->
  feedbackText (showFeedback m t w) = Some m /\
  feedbackEl (showFeedback m t w) =
    Some (mkFeedbackEl (feedbackClassName t) "1" (Some (nextTimerId w))).
Proof.
  intros Hel Htext. unfold showFeedback, clearTimeout, setTimeout.
  rewrite Hel, Htext. destruct el as [c o [id|]]; simpl; split; reflexivity.
Qed.

Lemma togglePlayPause_never_throws (reply : PlayReply) (w : World) :
  exists w1, togglePlayPause reply w = Normal w1.
Proof.
  unfold togglePlayPause.
  destruct (Audio.paused (audioElement w)); [destruct reply|];
    simpl; eexists; reflexivity.
Qed.

Lemma nth_error_snoc {A : Type} (l : list A) (x : A) :
  nth_error (l ++ [x])%list (List.length l) = Some x.
Proof. induction l; simpl; auto. Qed.

Lemma remove_snoc {A : Type} (l : list A) (x : A) :
  (firstn (List.length l) (l ++ [x]) ++
   skipn (S (List.length l)) (l ++ [x]))%list = l.
Proof.
  induction l as [|a l IH]; [reflexivity|].
  change (a :: (firstn (List.length l) (l ++ [x]) ++
                skipn (S (List.length l)) (l ++ [x])) = a :: l)%list.
  rewrite IH. reflexivity.
Qed.

(** The world right after [audioElement.play()] returned a promise. *)
Lemma togglePlayPause_requests_play (reply : PlayReply) (w : World) :
  Audio.paused (audioElement w) = true ->
  (forall e, reply <> PlayThrows e) ->
  exists w0,
    togglePlayPause reply w = Normal (updatePlayPauseIcon w0) /\
    playPromises w0 = (playPromises w ++ [CatchPlaybackFailed])%list /\
    Audio.paused (audioElement w0) =
      match reply with PlayStarts => false | _ => true end /\
    uncaught w0 = uncaught w /\ console w0 = console w /\
    feedbackEl w0 = feedbackEl w /\ feedbackText w0 = feedbackText w /\
    playIcon w0 = playIcon w /\ pauseIcon w0 = pauseIcon w.
Proof.
  intros Hpaused Hreply. unfold togglePlayPause. rewrite Hpaused.
  destruct reply as [| |e]; [| |destruct (Hreply e); reflexivity];
    unfold play; eexists; (split; [reflexivity|]); simpl;
    rewrite ?Hpaused; repeat split.
Qed.

Ltac frames :=
  unfold console_error;
  repeat first [progress autorewrite with frame | getset_step].

(** C4, as the script has it.  [togglePlayPause] never throws.  When it
    asks a paused element to play and the promise is later rejected, the
    rejection is handled (nothing is reported as uncaught), the toast reads
    "Playback failed" in the error style, and the handler changes neither
    the element nor the display: the display still agrees with the paused
    flag, so playback is left paused when the browser left the element
    paused. *)
Theorem rejected_play_is_caught_and_reported
    (reply : PlayReply) (err : string) (w : World)
    (el : FeedbackEl) (text : string) :
  Audio.paused (audioElement w) = true ->
  feedbackEl w = Some el -> feedbackText w = Some text ->
  playIcon w <> None -> pauseIcon w <> None ->
  (forall e, reply <> PlayThrows e) ->
  (forall reply' w', exists w1, togglePlayPause reply' w' = Normal w1) /\
  exists w1,
    togglePlayPause reply w = Normal w1 /\
    playPromises w1 = (playPromises w ++ [CatchPlaybackFailed])%list /\
    let w2 := onPlaySettled (List.length (playPromises w)) (Rejected err) w1 in
    uncaught w2 = uncaught w /\
    playPromises w2 = playPromises w /\
    console w2 = (console w ++ [("Playback failed: " ++ err)%string])%list /\
    feedbackText w2 = Some "Playback failed" /\
    (exists el2, feedbackEl w2 = Some el2 /\
                 fb_className el2 = feedbackClassName error /\
                 fb_opacity el2 = "1") /\
    audioElement w2 = audioElement w1 /\
    display w2 = display w1 /\
    reconciled w2 /\
    (reply = PlayStaysPaused -> left_paused w2).
Proof.
  intros Hpaused Hel Htext Hp Hq Hreply.
  split; [intros; apply togglePlayPause_never_throws|].
  destruct (togglePlayPause_requests_play reply w Hpaused Hreply)
    as (w0 & Htog & Hprom & Hflag & Hunc & Hcon & Hfe & Hft & Hpi & Hqi).
  exists (updatePlayPauseIcon w0). split; [exact Htog|].
  assert (Hrec : reconciled (updatePlayPauseIcon w0))
    by (apply updatePlayPauseIcon_reconciled; congruence).
  split; [rewrite updatePlayPauseIcon_playPromises; exact Hprom|].
  cbv zeta.
  assert (Hsettled :
    onPlaySettled (List.length (playPromises w)) (Rejected err)
      (updatePlayPauseIcon w0) =
    showFeedback "Playback failed" error
      (console_error ("Playback failed: " ++ err)
         (set_playPromises (playPromises w) (updatePlayPauseIcon w0)))).
  { unfold onPlaySettled.
    rewrite updatePlayPauseIcon_playPromises, Hprom, nth_error_snoc,
      remove_snoc. reflexivity. }
  rewrite Hsettled. clear Hsettled.
  match goal with
  | |- context [showFeedback ?m ?t ?x] =>
      destruct (showFeedback_shown m t x el text) as [Ht2 He2]
  end.
  { frames. congruence. }
  { frames. congruence. }
  assert (Haudio :
    audioElement
      (showFeedback "Playback failed" error
         (console_error ("Playback failed: " ++ err)
            (set_playPromises (playPromises w) (updatePlayPauseIcon w0)))) =
    audioElement (updatePlayPauseIcon w0)).
  { frames. reflexivity. }
  assert (Hdisplay :
    display
      (showFeedback "Playback failed" error
         (console_error ("Playback failed: " ++ err)
            (set_playPromises (playPromises w) (updatePlayPauseIcon w0)))) =
    display (updatePlayPauseIcon w0)).
  { rewrite showFeedback_display. unfold display. frames. reflexivity. }
  assert (Hrec2 : reconciled
      (showFeedback "Playback failed" error
         (console_error ("Playback failed: " ++ err)
            (set_playPromises (playPromises w) (updatePlayPauseIcon w0)))))
    by (eapply reconciled_frame; eassumption).
  split; [frames; exact Hunc|].
  split; [frames; reflexivity|].
  split; [frames; rewrite Hcon; reflexivity|].
  split; [exact Ht2|].
  split; [eexists; split; [exact He2|split; reflexivity]|].
  split; [exact Haudio|]. split; [exact Hdisplay|]. split; [exact Hrec2|].
  intros ->. unfold left_paused.
  unfold reconciled in Hrec2. rewrite Haudio in *.
  rewrite updatePlayPauseIcon_audio in *. rewrite Hflag in *.
  split; [reflexivity|].
  unfold display in Hrec2. injection Hrec2 as _ _ H. exact H.
Qed.

Lemma rejected_play_is_caught_and_reported_witness :
  Audio.paused (audioElement initialWorld) = true /\
  playIcon initialWorld <> None /\ pauseIcon initialWorld <> None /\
  exists w1,
    togglePlayPause PlayStaysPaused initialWorld = Normal w1 /\
    left_paused (onPlaySettled 0 (Rejected "NotAllowedError") w1).
Proof.
  split; [reflexivity|]. split; [discriminate|]. split; [discriminate|].
  destruct (rejected_play_is_caught_and_reported PlayStaysPaused
              "NotAllowedError" initialWorld (mkFeedbackEl "" "0" None) "")
    as (_ & w1 & Hw1 & _ & H);
    try reflexivity; try discriminate.
  exists w1. split; [exact Hw1|].
  apply H. reflexivity.
Defined.

(** C4, as the claim words it, fails: the browser starts playback (the
    element leaves the paused state), the promise is rejected afterwards,
    and nothing brings the display back to paused. *)
Lemma rejected_play_after_start_is_not_paused :
  let w1 := report (togglePlayPause PlayStarts initialWorld) in
  let w2 := onPlaySettled 0 (Rejected "NotSupportedError") w1 in
  Audio.paused (audioElement initialWorld) = true /\
  nth_error (playPromises w1) 0 = Some CatchPlaybackFailed /\
  uncaught w2 = [] /\
  feedbackText w2 = Some "Playback failed" /\
  Audio.paused (audioElement w2) = false /\
  State.isPlaying (state w2) = true /\
  ~ left_paused w2.
Proof.
  vm_compute. repeat split. intros [H _]. discriminate.
Qed.

(** ** Seeking *)

Lemma seekPreview_eq (w : World) (sl : SeekSlider) :
  seekSlider w = Some sl ->
  let target :=
    JS.mul (JS.div (seek_value sl) (Fin 100))
      (JS.or (Audio.duration (audioElement w)) (Fin 0)) in
  seekPreview w =
  set_progressBar (option_map (set_bar_width (seek_value sl)) (progressBar w))
    (set_currentTimeEl
       (option_map (set_time_textContent (formatTime target))
          (currentTimeEl w))
       (set_state (State.set_isSeeking true (state w)) w)).
Proof.
  intros Hsl target. subst target. unfold seekPreview. rewrite Hsl.
  unfold JS.parseFloat. simpl.
  destruct (currentTimeEl w) eqn:E1; simpl;
    destruct (progressBar w) eqn:E2; simpl;
    unfold set_progressBar, set_currentTimeEl, set_state; simpl;
    rewrite ?E1, ?E2; reflexivity.
Qed.



(** ** Playback speed *)

Lemma setPlaybackSpeed_unsupported (r : number) (w : World) :
  includes SUPPORTED_SPEEDS r = false -> setPlaybackSpeed r w = w.
Proof. intros H. unfold setPlaybackSpeed. rewrite H. reflexivity. Qed.

Ltac setPlaybackSpeed_frame H :=
  unfold setPlaybackSpeed; rewrite H; cbv beta iota zeta delta [negb];
  repeat (break_match; frame); reflexivity.

Lemma setPlaybackSpeed_audio (r : number) (w : World) :
  includes SUPPORTED_SPEEDS r = true ->
  audioElement (setPlaybackSpeed r w) =
  Audio.set_playbackRate r (audioElement w).
Proof. intros H. setPlaybackSpeed_frame H. Qed.

Lemma setPlaybackSpeed_state (r : number) (w : World) :
  includes SUPPORTED_SPEEDS r = true ->
  state (setPlaybackSpeed r w) = State.set_playbackRate r (state w).
Proof. intros H. setPlaybackSpeed_frame H. Qed.

Lemma setPlaybackSpeed_speedOptions (r : number) (w : World) :
  includes SUPPORTED_SPEEDS r = true ->
  speedOptions (setPlaybackSpeed r w) =
  map (fun option =>
         let isActive := JS.seq (optionSpeed option) r in
         set_opt_ariaChecked isActive
           (set_opt_textGreen isActive (set_opt_bgGreen isActive option)))
    (speedOptions w).
Proof. intros H. setPlaybackSpeed_frame H. Qed.

Lemma setPlaybackSpeed_speedButton (r : number) (w : World) :
  includes SUPPORTED_SPEEDS r = true ->
  option_map sb_textContent (speedButton (setPlaybackSpeed r w)) =
  option_map (fun _ => JS.toString r ++ "x") (speedButton w).
Proof.
  intros H. unfold setPlaybackSpeed. rewrite H.
  cbv beta iota zeta delta [negb].
  destruct (speedButton w) as [b|] eqn:Eb;
    repeat first [ progress (frame; rewrite ?Eb; cbv beta iota)
                 | break_match ];
    reflexivity.
Qed.

(** How many of the created options stand for the speed [r]. *)
Lemma one_supported_speed (r : number) :
  includes SUPPORTED_SPEEDS r = true ->
  List.length (filter (fun s => JS.seq s r) SUPPORTED_SPEEDS) = 1%nat.
Proof.
  unfold includes, SUPPORTED_SPEEDS.
  destruct r as [| |q|]; try discriminate.
  unfold existsb, sameValueZero, filter, JS.seq.
  rewrite !(Qeq_bool_comm q).
  repeat match goal with
         | |- context [Qeq_bool ?a q] => destruct (Qeq_bool a q) eqn:?
         end;
    try reflexivity; try discriminate; intros _; exfalso; qprop; lra.
Qed.

Lemma filter_map_length {A B : Type} (f : A -> B) (p : B -> bool)
    (l : list A) :
  List.length (filter p (map f l)) =
  List.length (filter (fun a => p (f a)) l).
Proof.
  induction l as [|a l IH]; [reflexivity|].
  cbn [map filter]. destruct (p (f a)); cbn [List.length]; rewrite IH;
    reflexivity.
Qed.

Lemma checked_count (r : number) (l : list SpeedOption) :
  List.length
    (filter opt_ariaChecked
       (map (fun option =>
               let isActive := JS.seq (optionSpeed option) r in
               set_opt_ariaChecked isActive
                 (set_opt_textGreen isActive
                    (set_opt_bgGreen isActive option))) l)) =
  List.length
    (filter (fun d => JS.seq (JS.parseFloat
                                (match d with Some s => s | None => Fin 1 end)) r)
       (map dataSpeed l)).
Proof. rewrite !filter_map_length. reflexivity. Qed.

(** C6.  On a page that has the speed control built by
    [createSpeedControl]: for a supported rate [r], [setPlaybackSpeed(r)]
    writes [r] to the playback rate of the media element and of the state,
    the speed button reads "{r}x", and exactly one speed option is checked,
    an option being checked exactly when it stands for [r]; for any other
    [r] the call changes nothing at all. *)
Theorem setPlaybackSpeed_supported_or_noop
    (r : number) (w : World) (b : SpeedButton) :
  speedButton w = Some b ->
  speedOptionsCreated w ->
  let w' := setPlaybackSpeed r w in
  (includes SUPPORTED_SPEEDS r = true ->
   Audio.playbackRate (audioElement w') = r /\
   State.playbackRate (state w') = r /\
   option_map sb_textContent (speedButton w') = Some (JS.toString r ++ "x") /\
   List.length (filter opt_ariaChecked (speedOptions w')) = 1%nat /\
   (forall o, In o (speedOptions w') ->
              opt_ariaChecked o = JS.seq (optionSpeed o) r) /\
   speedOptionsCreated w') /\
  (includes SUPPORTED_SPEEDS r = false -> w' = w).
Proof.
  intros Hb Hcreated w'. subst w'.
  split; [|apply setPlaybackSpeed_unsupported].
  intros Hr.
  rewrite (setPlaybackSpeed_audio r w Hr), (setPlaybackSpeed_state r w Hr),
    (setPlaybackSpeed_speedButton r w Hr), Hb.
  unfold speedOptionsCreated in *.
  rewrite (setPlaybackSpeed_speedOptions r w Hr).
  split; [reflexivity|]. split; [reflexivity|]. split; [reflexivity|].
  split; [|split].
  - rewrite checked_count, Hcreated.
    change (map dataSpeed (sc_options createSpeedControl))
      with (map Some SUPPORTED_SPEEDS).
    rewrite filter_map_length. apply (one_supported_speed r Hr).
  - intros o Ho. apply in_map_iff in Ho. destruct Ho as (o' & <- & _).
    reflexivity.
  - rewrite map_map. rewrite <- Hcreated. apply map_ext. reflexivity.
Qed.

Lemma setPlaybackSpeed_supported_or_noop_witness :
  speedButton initialWorld = Some (mkSpeedButton "1x" "Playback Speed" false) /\
  speedOptionsCreated initialWorld /\
  includes SUPPORTED_SPEEDS (Fin 1.5) = true /\
  includes SUPPORTED_SPEEDS (Fin 3) = false /\
  option_map sb_textContent (speedButton (setPlaybackSpeed (Fin 1.5) initialWorld))
    = Some "1.5x" /\
  setPlaybackSpeed (Fin 3) initialWorld = initialWorld.
Proof.
  split; [reflexivity|]. split; [reflexivity|].
  split; [reflexivity|]. split; [reflexivity|].
  destruct (setPlaybackSpeed_supported_or_noop (Fin 1.5) initialWorld _
              eq_refl eq_refl) as [H _].
  destruct (setPlaybackSpeed_supported_or_noop (Fin 3) initialWorld _
              eq_refl eq_refl) as [_ H3].
  split; [apply (H eq_refl)|apply (H3 eq_refl)].
Defined.

(** ** Keyboard seeking *)

Ltac qcases :=
  repeat match goal with
         | |- context [Qle_bool ?a ?b] => destruct (Qle_bool a b) eqn:?
         | |- context [Qeq_bool ?a ?b] => destruct (Qeq_bool a b) eqn:?
         end.

Lemma seek_back_range (p d : number) :
  JS.le (Fin 0) p = true -> JS.le p d = true ->
  let x := JS.max (Fin 0) (JS.sub p SEEK_JUMP) in
  JS.le (Fin 0) x = true /\ JS.le x d = true.
Proof.
  unfold SEEK_JUMP, JS.max, JS.sub, JS.add, JS.neg, JS.lt, JS.le.
  destruct p as [| |q|], d as [| |r|]; cbv zeta; intros H0 H1;
    try discriminate; try (split; reflexivity);
    repeat first [progress cbv beta iota delta [negb] | progress qcases];
    split; qsolve.
Qed.

Lemma seek_forward_range (p d : number) :
  JS.le (Fin 0) p = true -> JS.le p d = true ->
  let x := JS.min (JS.or d (Fin 0)) (JS.add p SEEK_JUMP) in
  JS.le (Fin 0) x = true /\ JS.le x d = true /\
  JS.seq x (JS.min d (JS.add p SEEK_JUMP)) = true.
Proof.
  unfold SEEK_JUMP, JS.min, JS.or, JS.truthy, JS.add, JS.lt, JS.le, JS.seq.
  destruct p as [| |q|], d as [| |r|]; cbv zeta; intros H0 H1;
    try discriminate; try (repeat split; reflexivity);
    repeat first [progress cbv beta iota delta [negb] | progress qcases];
    repeat split; qsolve.
Qed.

Lemma onKeyDown_j (reply : PlayReply) (w : World) :
  onKeyDown reply true (mkKeyboardEvent "j" false) w =
  Normal
    (showFeedback
       ("-" ++ JS.toString SEEK_JUMP ++ "s (" ++
        formatTime (JS.max (Fin 0)
                      (JS.sub (Audio.currentTime (audioElement w)) SEEK_JUMP))
        ++ ")") info
       (set_audioElement
          (Audio.set_currentTime
             (JS.max (Fin 0)
                (JS.sub (Audio.currentTime (audioElement w)) SEEK_JUMP))
             (audioElement w)) w)).
Proof. reflexivity. Qed.

Lemma onKeyDown_k (reply : PlayReply) (w : World) :
  onKeyDown reply true (mkKeyboardEvent "k" false) w =
  Normal
    (showFeedback
       ("+" ++ JS.toString SEEK_JUMP ++ "s (" ++
        formatTime
          (JS.min (JS.or (Audio.duration (audioElement w)) (Fin 0))
             (JS.add (Audio.currentTime (audioElement w)) SEEK_JUMP))
        ++ ")") info
       (set_audioElement
          (Audio.set_currentTime
             (JS.min (JS.or (Audio.duration (audioElement w)) (Fin 0))
                (JS.add (Audio.currentTime (audioElement w)) SEEK_JUMP))
             (audioElement w)) w)).
Proof. reflexivity. Qed.

(** C7.  From a position [p] with [0 <= p <= d], [d] the duration, and
    with the shortcut dispatched (focus on the document, not in a text
    entry): "j" sets the position to [max(0, p - 10)], "k" sets it to
    [min(d, p + 10)], both inside [0, d], and the duration is untouched. *)
Theorem keyboard_seek_stays_in_range (reply : PlayReply) (w : World) :
  let p := Audio.currentTime (audioElement w) in
  let d := Audio.duration (audioElement w) in
  JS.le (Fin 0) p = true -> JS.le p d = true ->
  (exists w',
     onKeyDown reply true (mkKeyboardEvent "j" false) w = Normal w' /\
     Audio.currentTime (audioElement w') = JS.max (Fin 0) (JS.sub p SEEK_JUMP) /\
     Audio.duration (audioElement w') = d /\
     JS.le (Fin 0) (Audio.currentTime (audioElement w')) = true /\
     JS.le (Audio.currentTime (audioElement w')) d = true) /\
  (exists w',
     onKeyDown reply true (mkKeyboardEvent "k" false) w = Normal w' /\
     JS.seq (Audio.currentTime (audioElement w'))
       (JS.min d (JS.add p SEEK_JUMP)) = true /\
     Audio.duration (audioElement w') = d /\
     JS.le (Fin 0) (Audio.currentTime (audioElement w')) = true /\
     JS.le (Audio.currentTime (audioElement w')) d = true).
Proof.
  intros p d H0 H1. split.
  - rewrite onKeyDown_j. eexists. split; [reflexivity|].
    rewrite showFeedback_audioElement. getset.
    destruct (seek_back_range p d H0 H1) as [Ha Hb].
    repeat split; assumption.
  - rewrite onKeyDown_k. eexists. split; [reflexivity|].
    rewrite showFeedback_audioElement. getset.
    destruct (seek_forward_range p d H0 H1) as (Ha & Hb & Hc).
    repeat split; assumption.
Qed.

Lemma keyboard_seek_stays_in_range_witness :
  let w := set_audioElement
             (Audio.mk (Fin 3) (Fin 120) false (Fin 0.5) false (Fin 1))
             initialWorld in
  JS.le (Fin 0) (Fin 3) = true /\ JS.le (Fin 3) (Fin 120) = true /\
  exists w',
    onKeyDown PlayStarts true (mkKeyboardEvent "j" false) w = Normal w' /\
    Audio.currentTime (audioElement w') = Fin 0.
Proof.
  intros w. split; [reflexivity|]. split; [reflexivity|].
  destruct (keyboard_seek_stays_in_range PlayStarts w eq_refl eq_refl)
    as [(w' & Hw' & Ht & _) _].
  exists w'. split; [exact Hw'|exact Ht].
Defined.

(** ** Committing a seek *)

Lemma userSetsSeek_audio (value : number) (w : World) :
  audioElement (userSetsSeek value w) = audioElement w.
Proof. unfold userSetsSeek. destruct (seekSlider w); reflexivity. Qed.

Lemma userSetsSeek_seekSlider (value : number) (w : World) :
  seekSlider (userSetsSeek value w) =
  option_map (set_seek_value value) (seekSlider w).
Proof.
  unfold userSetsSeek. destruct (seekSlider w) eqn:E; [reflexivity|exact E].
Qed.

Lemma onSeekChange_Normal (w : World) (sl : SeekSlider) :
  seekSlider w = Some sl ->
  JS.isFinite (seekTarget (seek_value sl) w) = true ->
  onSeekChange w =
  Normal
    (showFeedback
       ("Jumped to " ++ formatTime (seekTarget (seek_value sl) w)) info
       (set_state (State.set_isSeeking false (state w))
          (set_audioElement
             (Audio.set_currentTime (seekTarget (seek_value sl) w)
                (audioElement w)) w))).
Proof.
  intros Hsl Hfin. unfold onSeekChange, assignCurrentTime, JS.parseFloat.
  rewrite Hsl. cbv zeta. fold (seekTarget (seek_value sl) w). rewrite Hfin.
  reflexivity.
Qed.

Lemma onSeekChange_Throw (w : World) (sl : SeekSlider) :
  seekSlider w = Some sl ->
  JS.isFinite (seekTarget (seek_value sl) w) = false ->
  exists err, onSeekChange w = Throw err w.
Proof.
  intros Hsl Hfin. unfold onSeekChange, assignCurrentTime, JS.parseFloat.
  rewrite Hsl. cbv zeta. fold (seekTarget (seek_value sl) w). rewrite Hfin.
  eexists. reflexivity.
Qed.

Lemma onSeekChange_absent (w : World) :
  seekSlider w = None -> onSeekChange w = Normal w.
Proof. intros Hsl. unfold onSeekChange. rewrite Hsl. reflexivity. Qed.

Lemma onSeekChange_seekSlider (w : World) :
  seekSlider (report (onSeekChange w)) = seekSlider w.
Proof.
  unfold onSeekChange, assignCurrentTime.
  destruct (seekSlider w) eqn:E; [|exact E].
  cbv zeta. destruct (JS.isFinite _); cbv beta iota delta [bind report].
  - rewrite showFeedback_seekSlider. getset. exact E.
  - exact E.
Qed.

Lemma seekTarget_frame (value : number) (w w' : World) :
  Audio.duration (audioElement w') = Audio.duration (audioElement w) ->
  seekTarget value w' = seekTarget value w.
Proof. intros H. unfold seekTarget. rewrite H. reflexivity. Qed.

(** A release of the slider at a value whose position is finite. *)
Lemma dispatch_SeekChange (value : number) (w : World) (sl : SeekSlider) :
  seekSlider w = Some sl ->
  JS.isFinite (seekTarget value w) = true ->
  let w1 := dispatch (SeekChange value) w in
  audioElement w1 =
    Audio.set_currentTime (seekTarget value w) (audioElement w) /\
  seekSlider w1 = Some (set_seek_value value sl) /\
  State.isSeeking (state w1) = false /\
  uncaught w1 = uncaught w.
Proof.
  intros Hsl Hfin.
  assert (Hsl' : seekSlider (userSetsSeek value w) =
                 Some (set_seek_value value sl))
    by (rewrite userSetsSeek_seekSlider, Hsl; reflexivity).
  assert (Ht : seekTarget (seek_value (set_seek_value value sl))
                 (userSetsSeek value w) = seekTarget value w)
    by (apply seekTarget_frame; rewrite userSetsSeek_audio; reflexivity).
  assert (Hfin' : JS.isFinite
                    (seekTarget (seek_value (set_seek_value value sl))
                       (userSetsSeek value w)) = true)
    by (rewrite Ht; exact Hfin).
  cbv zeta. unfold dispatch.
  rewrite (onSeekChange_Normal _ _ Hsl' Hfin'), Ht, report_Normal.
  rewrite showFeedback_audioElement, showFeedback_seekSlider,
    showFeedback_state, showFeedback_uncaught.
  getset. rewrite userSetsSeek_audio.
  split; [reflexivity|]. split; [exact Hsl'|]. split; [reflexivity|].
  unfold userSetsSeek. rewrite Hsl. reflexivity.
Qed.

Lemma dispatch_SeekChange_absent (value : number) (w : World) :
  seekSlider w = None -> dispatch (SeekChange value) w = w.
Proof.
  intros Hsl. unfold dispatch, userSetsSeek. rewrite Hsl.
  rewrite (onSeekChange_absent w Hsl). reflexivity.
Qed.

(** A release of the slider at a value whose position is not finite. *)
Lemma dispatch_SeekChange_refused (value : number) (w : World)
    (sl : SeekSlider) :
  seekSlider w = Some sl ->
  JS.isFinite (seekTarget value w) = false ->
  let w1 := dispatch (SeekChange value) w in
  audioElement w1 = audioElement w /\
  seekSlider w1 = Some (set_seek_value value sl).
Proof.
  intros Hsl Hfin.
  assert (Hsl' : seekSlider (userSetsSeek value w) =
                 Some (set_seek_value value sl))
    by (rewrite userSetsSeek_seekSlider, Hsl; reflexivity).
  assert (Ht : seekTarget (seek_value (set_seek_value value sl))
                 (userSetsSeek value w) = seekTarget value w)
    by (apply seekTarget_frame; rewrite userSetsSeek_audio; reflexivity).
  assert (Hfin' : JS.isFinite
                    (seekTarget (seek_value (set_seek_value value sl))
                       (userSetsSeek value w)) = false)
    by (rewrite Ht; exact Hfin).
  cbv zeta. unfold dispatch.
  destruct (onSeekChange_Throw _ _ Hsl' Hfin') as [err ->].
  unfold report. getset. rewrite userSetsSeek_audio.
  split; [reflexivity|exact Hsl'].
Qed.

(** C8.  Releasing the seek slider twice at the same value gives the same
    position both times: the position written depends on the slider value
    and the duration only, and the listener changes neither.  On a page
    with the slider that position is [value / 100 * (duration || 0)]
    whenever this is a finite number (a finite value, a duration that is
    not infinite), and no exception is raised then; a position that is
    not finite is refused by the media element both times. *)
Theorem seek_commit_idempotent (value : number) (w : World) :
  let target :=
    JS.mul (JS.div value (Fin 100))
      (JS.or (Audio.duration (audioElement w)) (Fin 0)) in
  let w1 := dispatch (SeekChange value) w in
  let w2 := dispatch (SeekChange value) w1 in
  Audio.currentTime (audioElement w2) = Audio.currentTime (audioElement w1) /\
  audioElement w2 = audioElement w1 /\
  Audio.duration (audioElement w1) = Audio.duration (audioElement w) /\
  (seekSlider w <> None -> JS.isFinite target = true ->
   Audio.currentTime (audioElement w1) = target /\
   uncaught w2 = uncaught w).
Proof.
  intros target. fold (seekTarget value w) in target. cbv zeta.
  destruct (seekSlider w) as [sl|] eqn:Hsl.
  - destruct (JS.isFinite (seekTarget value w)) eqn:Hfin.
    + destruct (dispatch_SeekChange value w sl Hsl Hfin)
        as (Ha & Hs & _ & Hu).
      cbv zeta in Ha, Hs, Hu.
      assert (Ht : seekTarget value (dispatch (SeekChange value) w) =
                   seekTarget value w)
        by (apply seekTarget_frame; rewrite Ha; reflexivity).
      assert (Hfin1 : JS.isFinite
                        (seekTarget value (dispatch (SeekChange value) w))
                      = true)
        by (rewrite Ht; exact Hfin).
      destruct (dispatch_SeekChange value _ _ Hs Hfin1) as (Ha2 & _ & _ & Hu2).
      cbv zeta in Ha2, Hu2.
      rewrite Ha2, Hu2, Ht, Ha, Hu.
      repeat split; reflexivity.
    + destruct (dispatch_SeekChange_refused value w sl Hsl Hfin) as (Ha & Hs).
      cbv zeta in Ha, Hs.
      assert (Ht : seekTarget value (dispatch (SeekChange value) w) =
                   seekTarget value w)
        by (apply seekTarget_frame; rewrite Ha; reflexivity).
      assert (Hfin1 : JS.isFinite
                        (seekTarget value (dispatch (SeekChange value) w))
                      = false)
        by (rewrite Ht; exact Hfin).
      destruct (dispatch_SeekChange_refused value _ _ Hs Hfin1) as (Ha2 & _).
      cbv zeta in Ha2. rewrite Ha2, Ha.
      repeat split; try reflexivity; exfalso; unfold target in *; congruence.
  - rewrite !(dispatch_SeekChange_absent value w Hsl).
    repeat split; try reflexivity; congruence.
Qed.

Lemma seek_commit_idempotent_witness :
  seekSlider initialWorld <> None /\
  JS.isFinite
    (JS.mul (JS.div (Fin 50) (Fin 100))
       (JS.or (Audio.duration (audioElement initialWorld)) (Fin 0))) = true /\
  JS.seq
    (Audio.currentTime
       (audioElement
          (dispatch (SeekChange (Fin 50))
             (dispatch (SeekChange (Fin 50)) initialWorld))))
    (Fin 100) = true.
Proof.
  assert (Hsl : seekSlider initialWorld <> None) by discriminate.
  split; [exact Hsl|]. split; [reflexivity|].
  destruct (seek_commit_idempotent (Fin 50) initialWorld) as (H2 & _ & _ & H1).
  destruct (H1 Hsl eq_refl) as [Hpos _].
  rewrite H2, Hpos. reflexivity.
Defined.

(** ** The earlier version of [togglePlayPause] *)

(** C9.  On a playing element the earlier [togglePlayPause] only reads the
    paused flag: the element is left as it was, still playing, whereas the
    current [togglePlayPause] pauses it; the two are not equivalent. *)
Theorem variant_toggle_does_not_pause (reply : PlayReply) (w : World) :
  Audio.paused (audioElement w) = false ->
  (exists v,
     Variant.togglePlayPause reply w = Normal v /\
     audioElement v = audioElement w /\
     Audio.paused (audioElement v) = false) /\
  (exists m,
     togglePlayPause reply w = Normal m /\
     audioElement m = Audio.set_paused true (audioElement w) /\
     Audio.paused (audioElement m) = true) /\
  Variant.togglePlayPause reply w <> togglePlayPause reply w.
Proof.
  intros Hplaying.
  assert (Hv : Variant.togglePlayPause reply w =
               Normal (Variant.updatePlayPauseIcon w)).
  { unfold Variant.togglePlayPause. rewrite Hplaying. reflexivity. }
  assert (Hm : togglePlayPause reply w =
               Normal (updatePlayPauseIcon (pause w))).
  { unfold togglePlayPause. rewrite Hplaying. reflexivity. }
  assert (Hva : audioElement (Variant.updatePlayPauseIcon w) = audioElement w).
  { unfold Variant.updatePlayPauseIcon. crush_matches; reflexivity. }
  assert (Hma : audioElement (updatePlayPauseIcon (pause w)) =
                Audio.set_paused true (audioElement w)).
  { rewrite updatePlayPauseIcon_audio. reflexivity. }
  split; [|split].
  - eexists. split; [exact Hv|]. split; [exact Hva|].
    rewrite Hva. exact Hplaying.
  - eexists. split; [exact Hm|]. split; [exact Hma|].
    rewrite Hma. reflexivity.
  - rewrite Hv, Hm. intros E. injection E as E.
    apply (f_equal (fun x => Audio.paused (audioElement x))) in E.
    rewrite Hva, Hma, Hplaying in E. discriminate.
Qed.

Lemma variant_toggle_does_not_pause_witness :
  let w := set_audioElement
             (Audio.mk (Fin 3) (Fin 120) false (Fin 0.5) false (Fin 1))
             initialWorld in
  Audio.paused (audioElement w) = false /\
  Variant.togglePlayPause PlayStarts w <> togglePlayPause PlayStarts w.
Proof.
  intros w. split; [reflexivity|].
  apply (variant_toggle_does_not_pause PlayStarts w). reflexivity.
Defined.

(** ** The exported control surface *)

(** C10.  [window.audioPlayer.seekTo(time)] stores [time] as the position
    of the media element, for every finite [time], be it negative or
    beyond the duration, and changes nothing else: no toast, no timer.
    The "j" shortcut, by contrast, clamps at 0 and shows a toast. *)
Theorem seekTo_writes_unclamped (time : number) (reply : PlayReply)
    (w : World) :
  JS.isFinite time = true ->
  exists w',
    audioPlayer.seekTo time w = Normal w' /\
    Audio.currentTime (audioElement w') = time /\
    audioElement w' = Audio.set_currentTime time (audioElement w) /\
    state w' = state w /\
    feedbackEl w' = feedbackEl w /\ feedbackText w' = feedbackText w /\
    timers w' = timers w /\
    w' = set_audioElement (audioElement w') w /\
    (forall el text,
       feedbackEl w = Some el -> feedbackText w = Some text ->
       exists k,
         onKeyDown reply true (mkKeyboardEvent "j" false) w = Normal k /\
         Audio.currentTime (audioElement k) =
           JS.max (Fin 0)
             (JS.sub (Audio.currentTime (audioElement w)) SEEK_JUMP) /\
         feedbackText k =
           Some ("-10s (" ++
                 formatTime (Audio.currentTime (audioElement k)) ++ ")")).
Proof.
  intros Hfin. unfold audioPlayer.seekTo, assignCurrentTime. rewrite Hfin.
  eexists. split; [reflexivity|].
  repeat (split; [reflexivity|]).
  intros el text Hel Htext. rewrite onKeyDown_j. eexists.
  split; [reflexivity|].
  match goal with
  | |- context [showFeedback ?m ?t ?x] =>
      destruct (showFeedback_shown m t x el text) as [Ht _];
        [exact Hel|exact Htext|]
  end.
  rewrite showFeedback_audioElement. getset.
  split; [reflexivity|].
  rewrite Ht. reflexivity.
Qed.

Lemma seekTo_writes_unclamped_witness :
  JS.isFinite (Fin (-5)) = true /\
  exists w',
    audioPlayer.seekTo (Fin (-5)) initialWorld = Normal w' /\
    Audio.currentTime (audioElement w') = Fin (-5) /\
    feedbackText w' = Some "" /\
    exists k,
      onKeyDown PlayStarts true (mkKeyboardEvent "j" false) initialWorld
        = Normal k /\
      feedbackText k = Some "-10s (00:00)".
Proof.
  split; [reflexivity|].
  destruct (seekTo_writes_unclamped (Fin (-5)) PlayStarts initialWorld eq_refl)
    as (w' & Hw' & H1 & _ & _ & _ & H2 & _ & _ & H3).
  exists w'. split; [exact Hw'|]. split; [exact H1|].
  split; [rewrite H2; reflexivity|].
  destruct (H3 _ _ eq_refl eq_refl) as (k & Hk & Hpos & Htext).
  exists k. split; [exact Hk|].
  rewrite Htext, Hpos. reflexivity.
Defined.

(** ** Invariants of the event loop

    A property of the world that every building block of the listeners
    keeps is kept by every event. *)

Section EventLoopInvariant.

Variable P : World -> Prop.

Hypothesis P_audioElement : forall a w, P w -> P (set_audioElement a w).
Hypothesis P_state : forall s w, P w -> P (set_state s w).
Hypothesis P_console : forall l w, P w -> P (set_console l w).
Hypothesis P_play :
  forall reply w, P w ->
    match play reply CatchPlaybackFailed w with
    | Normal w1 | Throw _ w1 => P w1
    end.
Hypothesis P_onPlaySettled : forall i o w, P w -> P (onPlaySettled i o w).
Hypothesis P_updatePlayPauseIcon : forall w, P w -> P (updatePlayPauseIcon w).
Hypothesis P_updateProgress : forall w, P w -> P (updateProgress w).
Hypothesis P_updateDuration : forall w, P w -> P (updateDuration w).
Hypothesis P_showFeedback : forall m t w, P w -> P (showFeedback m t w).
Hypothesis P_onCanPlay : forall w, P w -> P (onCanPlay w).
Hypothesis P_setPlaybackSpeed : forall r w, P w -> P (setPlaybackSpeed r w).
Hypothesis P_updateVolume : forall v w, P w -> P (updateVolume v w).
Hypothesis P_onSeekInput : forall w, P w -> P (onSeekInput w).
Hypothesis P_userSetsSeek : forall v w, P w -> P (userSetsSeek v w).
Hypothesis P_userSetsVolume : forall v w, P w -> P (userSetsVolume v w).
Hypothesis P_onSpeedButtonClick : forall w, P w -> P (onSpeedButtonClick w).
Hypothesis P_clickElsewhere : forall w, P w -> P (onDocumentClick Elsewhere w).
Hypothesis P_onTimer : forall id w, P w -> P (onTimer id w).
Hypothesis P_uncaught : forall l w, P w -> P (set_uncaught l w).

Lemma P_console_error (m : string) (w : World) :
  P w -> P (console_error m w).
Proof. intros H. unfold console_error. apply P_console, H. Qed.

Lemma P_togglePlayPause (reply : PlayReply) (w : World) :
  P w -> exists w1, togglePlayPause reply w = Normal w1 /\ P w1.
Proof.
  intros H. unfold togglePlayPause.
  destruct (Audio.paused (audioElement w)).
  - pose proof (P_play reply w H) as Hplay.
    destruct (play reply CatchPlaybackFailed w) as [w1|e w1];
      unfold bind, tryCatch; eexists; (split; [reflexivity|]).
    + apply P_updatePlayPauseIcon, Hplay.
    + apply P_console_error, Hplay.
  - unfold bind, tryCatch, pause. eexists. split; [reflexivity|].
    apply P_updatePlayPauseIcon, P_audioElement, H.
Qed.

Lemma P_onSeekChange (w : World) : P w -> P (report (onSeekChange w)).
Proof.
  intros H. unfold onSeekChange, assignCurrentTime.
  destruct (seekSlider w); [|exact H].
  cbv zeta. destruct (JS.isFinite _); cbv beta iota delta [bind report].
  - apply P_showFeedback, P_state, P_audioElement, H.
  - apply P_uncaught, H.
Qed.

Lemma P_onVolumeBtnClick (w : World) : P w -> P (onVolumeBtnClick w).
Proof.
  intros H. unfold onVolumeBtnClick. destruct (volumeBtn w); [|exact H].
  cbv zeta. apply P_state.
  destruct (State.isMuted (state w)).
  - apply P_updateVolume, H.
  - apply P_updateVolume, P_state, H.
Qed.

Lemma P_onVolumeInput (w : World) : P w -> P (onVolumeInput w).
Proof.
  intros H. unfold onVolumeInput. destruct (volumeSlider w); [|exact H].
  apply P_updateVolume, H.
Qed.

Lemma P_onDocumentClick (target : ClickTarget) (w : World) :
  P w -> P (onDocumentClick target w).
Proof.
  intros H. destruct target; try exact H.
  - unfold onDocumentClick.
    destruct (nth_error (speedOptions w) i); [|exact H].
    apply P_setPlaybackSpeed, H.
  - apply P_clickElsewhere, H.
Qed.

Lemma P_onKeyDown (reply : PlayReply) (hasFocus : bool) (e : KeyboardEvent)
    (w : World) :
  P w -> P (report (onKeyDown reply hasFocus e w)).
Proof.
  intros H. unfold onKeyDown.
  destruct (targetTakesText e); [exact H|].
  destruct hasFocus; [|exact H]. cbv beta iota zeta delta [negb].
  repeat match goal with
         | |- context [String.eqb ?a ?b] => destruct (String.eqb a b)
         end.
  - destruct (P_togglePlayPause reply w H) as (w1 & -> & H1).
    rewrite bind_Normal, report_Normal. apply P_showFeedback, H1.
  - destruct (volumeBtn w); rewrite report_Normal; [|exact H].
    apply P_clickElsewhere, P_onVolumeBtnClick, H.
  - rewrite report_Normal. apply P_showFeedback, P_audioElement, H.
  - rewrite report_Normal. apply P_showFeedback, P_audioElement, H.
  - destruct (speedButton w); rewrite report_Normal; [|exact H].
    apply P_onSpeedButtonClick, H.
  - destruct (volumeSlider w); rewrite report_Normal; [|exact H].
    apply P_showFeedback, P_updateVolume, H.
  - destruct (volumeSlider w); rewrite report_Normal; [|exact H].
    apply P_showFeedback, P_updateVolume, H.
  - rewrite report_Normal. apply P_showFeedback, P_audioElement, H.
  - destruct (JS.isNaN _); cbv beta iota delta [negb]; [exact H|].
    unfold assignCurrentTime.
    destruct (JS.isFinite _); cbv beta iota delta [bind report].
    + apply P_showFeedback, P_audioElement, H.
    + apply P_uncaught, H.
  - exact H.
Qed.

Lemma invariant_dispatch (ev : Event) (w : World) :
  P w -> P (dispatch ev w).
Proof.
  intros H. destruct ev; unfold dispatch.
  - apply P_audioElement, H.
  - apply P_updatePlayPauseIcon, H.
  - apply P_updatePlayPauseIcon, H.
  - apply P_updateProgress, H.
  - apply P_updateDuration, H.
  - unfold onEnded. apply P_updatePlayPauseIcon, P_showFeedback, H.
  - apply P_showFeedback, H.
  - apply P_onCanPlay, H.
  - unfold onError. apply P_showFeedback, P_console_error, H.
  - destruct (P_togglePlayPause reply w H) as (w1 & -> & H1).
    rewrite report_Normal. apply P_clickElsewhere, H1.
  - apply P_onSeekInput, P_userSetsSeek, H.
  - apply P_onSeekChange, P_userSetsSeek, H.
  - apply P_clickElsewhere, P_onVolumeBtnClick, H.
  - apply P_onVolumeInput, P_userSetsVolume, H.
  - apply P_onSpeedButtonClick, H.
  - apply P_onDocumentClick, H.
  - apply P_onKeyDown, H.
  - apply P_onTimer, H.
  - apply P_onPlaySettled, H.
Qed.

Lemma invariant_run (evs : list Event) (w : World) : P w -> P (run evs w).
Proof.
  unfold run. revert w.
  induction evs as [|ev evs IH]; intros w H; [exact H|].
  cbn [fold_left]. apply IH, invariant_dispatch, H.
Qed.

End EventLoopInvariant.

(** The two hypotheses on promises, for a property that does not depend
    on the pending promises nor on the list of uncaught errors. *)
Lemma play_preserves (P : World -> Prop) :
  (forall a w, P w -> P (set_audioElement a w)) ->
  (forall l w, P w -> P (set_playPromises l w)) ->
  forall reply w, P w ->
    match play reply CatchPlaybackFailed w with
    | Normal w1 | Throw _ w1 => P w1
    end.
Proof.
  intros Ha Hp reply w H. destruct reply; unfold play.
  - apply Hp, Ha, H.
  - apply Hp, H.
  - exact H.
Qed.

Lemma onPlaySettled_preserves (P : World -> Prop) :
  (forall l w, P w -> P (set_playPromises l w)) ->
  (forall l w, P w -> P (set_console l w)) ->
  (forall l w, P w -> P (set_uncaught l w)) ->
  (forall m t w, P w -> P (showFeedback m t w)) ->
  forall i o w, P w -> P (onPlaySettled i o w).
Proof.
  intros Hp Hc Hu Hf i o w H. unfold onPlaySettled.
  destruct (nth_error (playPromises w) i) as [r|]; [|exact H].
  destruct o, r as [| |[|]]; cbv zeta.
  - apply Hp, H.
  - apply Hp, H.
  - apply Hp, H.
  - apply Hp, H.
  - apply Hf. unfold console_error. apply Hc, Hp, H.
  - apply Hu, Hp, H.
  - apply Hp, H.
  - apply Hu, Hp, H.
Qed.

(** ** Timers *)

Lemma timersTracked_view (w w' : World) :
  timerView w' = timerView w -> timersTracked w -> timersTracked w'.
Proof.
  unfold timerView, timersTracked. intros E H.
  injection E as -> -> -> ->. exact H.
Qed.

Ltac view_frame :=
  intros; unfold timerView; f_equal; [f_equal; [f_equal|]|];
  crush_matches; reflexivity.

Lemma updatePlayPauseIcon_timerView (w : World) :
  timerView (updatePlayPauseIcon w) = timerView w.
Proof. unfold updatePlayPauseIcon. view_frame. Qed.

Lemma updateProgress_timerView (w : World) :
  timerView (updateProgress w) = timerView w.
Proof. unfold updateProgress. view_frame. Qed.

Lemma updateDuration_timerView (w : World) :
  timerView (updateDuration w) = timerView w.
Proof. unfold updateDuration. view_frame. Qed.

Lemma onCanPlay_timerView (w : World) :
  timerView (onCanPlay w) = timerView w.
Proof.
  unfold onCanPlay, timerView.
  destruct (feedbackEl w) as [el|] eqn:E; [|rewrite E; reflexivity].
  destruct (feedbackText w) as [text|]; [|rewrite E; reflexivity].
  destruct (String.eqb text "Buffering..."); [|rewrite E; reflexivity].
  reflexivity.
Qed.

Lemma updateVolume_timerView (v : number) (w : World) :
  timerView (updateVolume v w) = timerView w.
Proof. unfold updateVolume, updateVolumeSliderBackground. view_frame. Qed.

Lemma seekPreview_timerView (w : World) :
  timerView (seekPreview w) = timerView w.
Proof. unfold seekPreview. view_frame. Qed.

Lemma userSetsSeek_timerView (v : number) (w : World) :
  timerView (userSetsSeek v w) = timerView w.
Proof. unfold userSetsSeek. view_frame. Qed.

Lemma userSetsVolume_timerView (v : number) (w : World) :
  timerView (userSetsVolume v w) = timerView w.
Proof. unfold userSetsVolume. view_frame. Qed.

Lemma onSpeedButtonClick_timerView (w : World) :
  timerView (onSpeedButtonClick w) = timerView w.
Proof. unfold onSpeedButtonClick. view_frame. Qed.

Lemma clickElsewhere_timerView (w : World) :
  timerView (onDocumentClick Elsewhere w) = timerView w.
Proof. unfold onDocumentClick. view_frame. Qed.

Lemma In_cleared (id : option nat) (l : list (nat * Task)) (t : nat * Task) :
  In t (cleared id l) <-> In t l /\ id <> Some (fst t).
Proof.
  destruct id as [i|]; unfold cleared.
  - rewrite filter_In, negb_true_iff, Nat.eqb_neq.
    split; intros [H1 H2]; split; try assumption; congruence.
  - split; [intros H; split; [exact H|discriminate]|intros [H _]; exact H].
Qed.

Lemma NoDup_cleared (id : option nat) (l : list (nat * Task)) :
  NoDup (map fst l) -> NoDup (map fst (cleared id l)).
Proof.
  destruct id as [i|]; unfold cleared; [|auto].
  induction l as [|t l IH]; intros H; [exact H|].
  cbn [filter map] in *. inversion H as [|? ? Hnin Hnd]; subst.
  destruct (negb (fst t =? i)%nat); [|auto].
  cbn [map]. constructor; [|auto].
  intros Hin. apply Hnin. apply in_map_iff in Hin.
  destruct Hin as (t' & <- & Hin). apply filter_In in Hin.
  apply in_map. apply Hin.
Qed.

(** A table that tracks its timers still does after one of them is
    replaced: the recorded timer [old] is cleared and a fresh timer for
    [task] is started. *)
Lemma tracked_restart (l : list (nat * Task)) (n : nat) (old : option nat)
    (task : Task) :
  (forall t, In t l -> (fst t < n)%nat) ->
  NoDup (map fst l) ->
  (forall id, In (id, task) l -> old = Some id) ->
  let l' := (cleared old l ++ [(n, task)])%list in
  (forall t, In t l' -> (fst t < S n)%nat) /\
  NoDup (map fst l') /\
  (forall id, In (id, task) l' -> id = n) /\
  (forall id task', task' <> task -> In (id, task') l' -> In (id, task') l).
Proof.
  intros Hlt Hnd Hold l'. subst l'. repeat split.
  - intros t Hin. apply in_app_or in Hin. destruct Hin as [Hin|[<-|[]]].
    + apply In_cleared in Hin. destruct Hin as [Hin _].
      apply Hlt in Hin. lia.
    + cbn. lia.
  - rewrite map_app. cbn [map fst].
    apply NoDup_app; [apply NoDup_cleared, Hnd|repeat constructor; intros []|].
    intros i Hin. cbn. intros [<-|[]].
    apply in_map_iff in Hin. destruct Hin as (t & E & Hin).
    apply In_cleared in Hin. destruct Hin as [Hin _].
    apply Hlt in Hin. lia.
  - intros id Hin. apply in_app_or in Hin. destruct Hin as [Hin|[E|[]]].
    + apply In_cleared in Hin. destruct Hin as [Hin Hne].
      apply Hold in Hin. cbn in Hne. congruence.
    + congruence.
  - intros id task' Hne Hin. apply in_app_or in Hin.
    destruct Hin as [Hin|[E|[]]].
    + apply In_cleared in Hin. apply Hin.
    + congruence.
Qed.

Lemma showFeedback_absent (m : string) (t : FeedbackType) (w : World) :
  feedbackEl w = None \/ feedbackText w = None -> showFeedback m t w = w.
Proof.
  unfold showFeedback. intros [E|E]; rewrite E;
    [reflexivity|destruct (feedbackEl w); reflexivity].
Qed.

Lemma showFeedback_timerView (m : string) (t : FeedbackType) (w : World)
    (el : FeedbackEl) (text : string) :
  feedbackEl w = Some el -> feedbackText w = Some text ->
  timerView (showFeedback m t w) =
  ((cleared (fb_timeout el) (timers w) ++ [(nextTimerId w, HideFeedback)])%list,
   S (nextTimerId w), Some (Some (nextTimerId w)), seekTimeoutId w).
Proof.
  intros Hel Htext.
  unfold timerView, showFeedback, clearTimeout, setTimeout, cleared.
  rewrite Hel, Htext. destruct el as [c o [id|]]; reflexivity.
Qed.

Lemma timersTracked_showFeedback (m : string) (t : FeedbackType) (w : World) :
  timersTracked w -> timersTracked (showFeedback m t w).
Proof.
  intros H.
  destruct (feedbackEl w) as [el|] eqn:Hel;
    [|rewrite showFeedback_absent; auto].
  destruct (feedbackText w) as [text|] eqn:Htext;
    [|rewrite showFeedback_absent; auto].
  pose proof (showFeedback_timerView m t w el text Hel Htext) as Hv.
  unfold timerView in Hv. injection Hv as Ht Hn Hf Hs.
  destruct H as (Hlt & Hnd & Hhide & Hseek & Hrf & Hrs).
  assert (Hold : forall id, In (id, HideFeedback) (timers w) ->
                            fb_timeout el = Some id).
  { intros id Hin. apply Hhide in Hin. rewrite Hel in Hin.
    cbn in Hin. congruence. }
  destruct (tracked_restart (timers w) (nextTimerId w) (fb_timeout el)
              HideFeedback Hlt Hnd Hold) as (H1 & H2 & H3 & H4).
  unfold timersTracked. rewrite Ht, Hn, Hf, Hs.
  repeat split; try assumption.
  - intros id Hin. apply H3 in Hin. congruence.
  - intros id Hin. apply Hseek. apply (H4 id SeekPreview); [discriminate|].
    exact Hin.
  - intros id E. injection E as <-. lia.
  - intros id E. apply Hrs in E. lia.
Qed.

Lemma onSeekInput_timerView (w : World) (sl : SeekSlider) :
  seekSlider w = Some sl ->
  timerView (onSeekInput w) =
  ((cleared (seekTimeoutId w) (timers w) ++ [(nextTimerId w, SeekPreview)])%list,
   S (nextTimerId w), option_map fb_timeout (feedbackEl w),
   Some (nextTimerId w)).
Proof.
  intros Hsl. unfold timerView, onSeekInput, clearTimeout, setTimeout, cleared.
  rewrite Hsl. destruct (seekTimeoutId w); reflexivity.
Qed.

Lemma timersTracked_onSeekInput (w : World) :
  timersTracked w -> timersTracked (onSeekInput w).
Proof.
  intros H.
  destruct (seekSlider w) as [sl|] eqn:Hsl;
    [|unfold onSeekInput; rewrite Hsl; exact H].
  pose proof (onSeekInput_timerView w sl Hsl) as Hv.
  unfold timerView in Hv. injection Hv as Ht Hn Hf Hs.
  destruct H as (Hlt & Hnd & Hhide & Hseek & Hrf & Hrs).
  destruct (tracked_restart (timers w) (nextTimerId w) (seekTimeoutId w)
              SeekPreview Hlt Hnd Hseek) as (H1 & H2 & H3 & H4).
  unfold timersTracked. rewrite Ht, Hn, Hf, Hs.
  repeat split; try assumption.
  - intros id Hin. apply Hhide. apply (H4 id HideFeedback); [discriminate|].
    exact Hin.
  - intros id Hin. apply H3 in Hin. congruence.
  - intros id E. apply Hrf in E. lia.
  - intros id E. injection E as <-. lia.
Qed.

Lemma timersTracked_cleared (id : option nat) (w : World) :
  timersTracked w -> timersTracked (clearTimeout id w).
Proof.
  intros (Hlt & Hnd & Hhide & Hseek & Hrf & Hrs).
  assert (E : timers (clearTimeout id w) = cleared id (timers w))
    by (destruct id; reflexivity).
  assert (En : nextTimerId (clearTimeout id w) = nextTimerId w)
    by (destruct id; reflexivity).
  assert (Ef : feedbackEl (clearTimeout id w) = feedbackEl w)
    by (destruct id; reflexivity).
  assert (Es : seekTimeoutId (clearTimeout id w) = seekTimeoutId w)
    by (destruct id; reflexivity).
  unfold timersTracked. rewrite E, En, Ef, Es.
  repeat split.
  - intros t Hin. apply In_cleared in Hin. apply Hlt, Hin.
  - apply NoDup_cleared, Hnd.
  - intros i Hin. apply In_cleared in Hin. apply Hhide, Hin.
  - intros i Hin. apply In_cleared in Hin. apply Hseek, Hin.
  - exact Hrf.
  - exact Hrs.
Qed.

Lemma runTask_timerView (task : Task) (w : World) :
  timerView (runTask task w) = timerView w.
Proof.
  destruct task; unfold runTask.
  - unfold timerView. destruct (feedbackEl w) eqn:E; [|rewrite E]; reflexivity.
  - apply seekPreview_timerView.
Qed.

Lemma timersTracked_onTimer (id : nat) (w : World) :
  timersTracked w -> timersTracked (onTimer id w).
Proof.
  intros H. unfold onTimer.
  destruct (find _ (timers w)) as [[i task]|]; [|exact H].
  eapply timersTracked_view; [apply runTask_timerView|].
  apply timersTracked_cleared, H.
Qed.

Lemma timersTracked_setPlaybackSpeed (r : number) (w : World) :
  timersTracked w -> timersTracked (setPlaybackSpeed r w).
Proof.
  intros H. unfold setPlaybackSpeed.
  destruct (includes SUPPORTED_SPEEDS r); [|exact H].
  cbv beta iota zeta delta [negb].
  match goal with
  | |- context [showFeedback ?m ?t ?x] =>
      assert (H5 : timersTracked (showFeedback m t x));
        [apply timersTracked_showFeedback;
         eapply timersTracked_view; [|exact H];
         unfold timerView; crush_matches; reflexivity|];
      revert H5; generalize (showFeedback m t x)
  end.
  intros w5 H5.
  eapply timersTracked_view; [|exact H5].
  unfold timerView. crush_matches; reflexivity.
Qed.

(** X: the timer bookkeeping survives every event. *)
Lemma timersTracked_dispatch (ev : Event) (w : World) :
  timersTracked w -> timersTracked (dispatch ev w).
Proof.
  apply invariant_dispatch; clear ev w;
    try (intros; eapply timersTracked_view; [|eassumption];
         first [ reflexivity
               | apply updatePlayPauseIcon_timerView
               | apply updateProgress_timerView
               | apply updateDuration_timerView
               | apply onCanPlay_timerView
               | apply updateVolume_timerView
               | apply userSetsSeek_timerView
               | apply userSetsVolume_timerView
               | apply onSpeedButtonClick_timerView
               | apply clickElsewhere_timerView ]; fail).
  - apply play_preserves; intros; eapply timersTracked_view;
      try eassumption; reflexivity.
  - apply onPlaySettled_preserves; intros;
      try (eapply timersTracked_view; [|eassumption]; reflexivity).
    apply timersTracked_showFeedback; assumption.
  - intros; apply timersTracked_showFeedback; assumption.
  - intros; apply timersTracked_setPlaybackSpeed; assumption.
  - intros; apply timersTracked_onSeekInput; assumption.
  - intros; apply timersTracked_onTimer; assumption.
Qed.

Lemma Task_eqb_eq (a b : Task) : Task_eqb a b = true <-> a = b.
Proof. destruct a, b; cbn; split; congruence. Qed.

Lemma at_most_one_pending (l : list (nat * Task)) (task : Task) (c : nat) :
  NoDup (map fst l) ->
  (forall id, In (id, task) l -> id = c) ->
  (List.length (filter (fun t => Task_eqb (snd t) task) l) <= 1)%nat.
Proof.
  induction l as [|[i k] l IH]; intros Hnd Hc; [cbn; lia|].
  cbn [map fst] in Hnd. inversion Hnd as [|? ? Hnin Hnd']; subst.
  assert (Hc' : forall id, In (id, task) l -> id = c)
    by (intros id Hin; apply Hc; right; exact Hin).
  cbn [filter snd]. destruct (Task_eqb k task) eqn:E; [|apply IH; assumption].
  apply Task_eqb_eq in E. subst k.
  assert (Hi : i = c) by (apply Hc; left; reflexivity).
  assert (Hnone : filter (fun t => Task_eqb (snd t) task) l = []).
  { destruct (filter _ l) as [|[j k] rest] eqn:Ef; [reflexivity|].
    assert (Hin : In (j, k) (filter (fun t => Task_eqb (snd t) task) l))
      by (rewrite Ef; left; reflexivity).
    apply filter_In in Hin. destruct Hin as [Hin Hk].
    cbn in Hk. apply Task_eqb_eq in Hk. subst k.
    exfalso. apply Hnin. apply Hc' in Hin as Hj. subst j i.
    apply (in_map fst) in Hin. exact Hin. }
  rewrite Hnone. cbn. lia.
Qed.

Lemma timersTracked_pending (task : Task) (w : World) :
  timersTracked w -> (pending task w <= 1)%nat.
Proof.
  intros (_ & Hnd & Hhide & Hseek & _). unfold pending. destruct task.
  - apply at_most_one_pending
      with (c := match option_map fb_timeout (feedbackEl w) with
                 | Some (Some c) => c
                 | _ => O
                 end); [exact Hnd|].
    intros id Hin. rewrite (Hhide id Hin). reflexivity.
  - apply at_most_one_pending
      with (c := match seekTimeoutId w with Some c => c | None => O end);
      [exact Hnd|].
    intros id Hin. rewrite (Hseek id Hin). reflexivity.
Qed.

Lemma timersTracked_run (evs : list Event) (w : World) :
  timersTracked w -> timersTracked (run evs w).
Proof.
  unfold run. revert w.
  induction evs as [|ev evs IH]; intros w H; [exact H|].
  cbn [fold_left]. apply IH, timersTracked_dispatch, H.
Qed.

(** X1.  Timers do not leak: when every pending timer is tracked (its id
    was handed out, no id is pending twice, a hide timer is the one
    recorded on the feedback element, a preview timer is the one held by
    the debounce closure, and the recorded ids were handed out too), the
    same holds after any sequence of events, so at most one hide timer and
    at most one preview timer are pending. *)
Theorem timers_never_leak (evs : list Event) (w : World) :
  timersTracked w ->
  let w' := run evs w in
  timersTracked w' /\
  (pending HideFeedback w' <= 1)%nat /\
  (pending SeekPreview w' <= 1)%nat.
Proof.
  intros H w'.
  assert (H' : timersTracked w') by (apply timersTracked_run, H).
  split; [exact H'|]. split; apply timersTracked_pending, H'.
Qed.

Lemma initialWorld_timersTracked : timersTracked initialWorld.
Proof.
  unfold timersTracked. cbn.
  repeat split; try constructor; intros; try tauto; discriminate.
Qed.

Lemma timers_never_leak_witness :
  timersTracked initialWorld /\
  (pending HideFeedback
     (run [MediaWaiting; MediaError; SeekInput (Fin 10); MediaWaiting;
           SeekInput (Fin 20)] initialWorld) <= 1)%nat.
Proof.
  split; [exact initialWorld_timersTracked|].
  apply (timers_never_leak _ initialWorld initialWorld_timersTracked).
Defined.

(** ** Toasts *)

Lemma find_fresh (l : list (nat * Task)) (n : nat) (task : Task) :
  (forall t, In t l -> (fst t < n)%nat) ->
  find (fun t => Nat.eqb (fst t) n) (l ++ [(n, task)])%list = Some (n, task).
Proof.
  induction l as [|t l IH]; intros H.
  - cbn. rewrite Nat.eqb_refl. reflexivity.
  - cbn [app find].
    assert (Ht : (fst t < n)%nat) by (apply H; left; reflexivity).
    destruct (Nat.eqb_spec (fst t) n) as [E|_]; [lia|].
    apply IH. intros t' Hin. apply H. right. exact Hin.
Qed.

Lemma find_absent (l : list (nat * Task)) (n : nat) :
  (forall t, In t l -> fst t <> n) ->
  find (fun t => Nat.eqb (fst t) n) l = None.
Proof.
  induction l as [|t l IH]; intros H; [reflexivity|].
  cbn [find]. destruct (Nat.eqb_spec (fst t) n) as [E|_].
  - exfalso. apply (H t); [left; reflexivity|exact E].
  - apply IH. intros t' Hin. apply H. right. exact Hin.
Qed.

Lemma cleared_fresh (id : option nat) (l : list (nat * Task)) (n : nat) :
  (forall t, In t l -> (fst t < n)%nat) ->
  forall t, In t (cleared id l) -> (fst t < n)%nat.
Proof. intros H t Hin. apply In_cleared in Hin. apply H, Hin. Qed.

Lemma cleared_snoc_self (l : list (nat * Task)) (n : nat) (task : Task) :
  (forall t, In t l -> (fst t < n)%nat) ->
  cleared (Some n) (l ++ [(n, task)]) = l.
Proof.
  intros H. unfold cleared. rewrite filter_app. cbn [filter fst].
  rewrite Nat.eqb_refl. cbn [negb]. rewrite app_nil_r.
  induction l as [|t l IH]; [reflexivity|].
  cbn [filter].
  assert (Ht : (fst t < n)%nat) by (apply H; left; reflexivity).
  destruct (Nat.eqb_spec (fst t) n) as [E|_]; [lia|]. cbn [negb].
  f_equal. apply IH. intros t' Hin. apply H. right. exact Hin.
Qed.

(** X2.  A toast is hidden by its own timer and by no earlier one.  On a
    page with the feedback elements and tracked timers, after
    [showFeedback] the toast is visible and its hide timer is the one the
    browser just handed out; when that timer expires, the toast is hidden,
    keeps its text, and no hide timer is left.  After a second
    [showFeedback] the first timer is gone: its expiry changes nothing and
    the second toast stays visible. *)
Theorem toast_hidden_by_its_own_timer
    (m1 m2 : string) (t1 t2 : FeedbackType) (w : World)
    (el : FeedbackEl) (text : string) :
  feedbackEl w = Some el -> feedbackText w = Some text ->
  timersTracked w ->
  let n := nextTimerId w in
  let w1 := showFeedback m1 t1 w in
  let w2 := showFeedback m2 t2 w1 in
  option_map fb_opacity (feedbackEl w1) = Some "1" /\
  In (n, HideFeedback) (timers w1) /\
  feedbackText (onTimer n w1) = Some m1 /\
  option_map fb_opacity (feedbackEl (onTimer n w1)) = Some "0" /\
  pending HideFeedback (onTimer n w1) = 0%nat /\
  onTimer n w2 = w2 /\
  feedbackText w2 = Some m2 /\
  option_map fb_opacity (feedbackEl w2) = Some "1".
Proof.
  intros Hel Htext Htracked n w1 w2.
  destruct (showFeedback_shown m1 t1 w el text Hel Htext) as [Ht1 He1].
  pose proof (showFeedback_timerView m1 t1 w el text Hel Htext) as Hv1.
  unfold timerView in Hv1. injection Hv1 as Htm1 Hn1 _ _.
  fold w1 in Ht1, He1, Htm1, Hn1. fold n in He1, Htm1, Hn1.
  destruct Htracked as (Hlt & Hnd & Hhide & Hseek & _).
  assert (Hfresh : forall t, In t (cleared (fb_timeout el) (timers w)) ->
                             (fst t < n)%nat)
    by (apply cleared_fresh; exact Hlt).
  split; [rewrite He1; reflexivity|].
  split; [rewrite Htm1; apply in_or_app; right; left; reflexivity|].
  assert (Hfire : onTimer n w1 =
                  set_feedbackEl
                    (Some (mkFeedbackEl (feedbackClassName t1) "0" (Some n)))
                    (set_timers (cleared (fb_timeout el) (timers w)) w1)).
  { unfold onTimer. rewrite Htm1, (find_fresh _ n HideFeedback Hfresh).
    unfold runTask, clearTimeout. getset. rewrite He1, Htm1.
    change (filter (fun t => negb (fst t =? n)%nat)
              (cleared (fb_timeout el) (timers w) ++ [(n, HideFeedback)]))
      with (cleared (Some n)
              (cleared (fb_timeout el) (timers w) ++ [(n, HideFeedback)])).
    rewrite (cleared_snoc_self _ n HideFeedback Hfresh). reflexivity. }
  rewrite Hfire. getset.
  split; [exact Ht1|]. split; [reflexivity|].
  split.
  { unfold pending. getset.
    destruct (filter _ (cleared (fb_timeout el) (timers w)))
      as [|[j k] rest] eqn:Ef; [reflexivity|].
    exfalso.
    assert (Hin : In (j, k)
                    (filter (fun t => Task_eqb (snd t) HideFeedback)
                       (cleared (fb_timeout el) (timers w))))
      by (rewrite Ef; left; reflexivity).
    apply filter_In in Hin. destruct Hin as [Hin Hk].
    cbn in Hk. apply Task_eqb_eq in Hk. subst k.
    apply In_cleared in Hin. destruct Hin as [Hin Hne].
    apply Hhide in Hin. rewrite Hel in Hin. cbn in Hin, Hne. congruence. }
  destruct (showFeedback_shown m2 t2 w1 _ m1 He1 Ht1) as [Ht2 He2].
  pose proof (showFeedback_timerView m2 t2 w1 _ m1 He1 Ht1) as Hv2.
  unfold timerView in Hv2. injection Hv2 as Htm2 Hn2 _ _.
  fold w2 in Ht2, He2, Htm2, Hn2.
  cbn [fb_timeout] in Htm2. rewrite Htm1, Hn1 in Htm2.
  change (filter (fun t => negb (fst t =? n)%nat)
            (cleared (fb_timeout el) (timers w) ++ [(n, HideFeedback)]))
    with (cleared (Some n)
            (cleared (fb_timeout el) (timers w) ++ [(n, HideFeedback)]))
    in Htm2.
  rewrite (cleared_snoc_self _ n HideFeedback Hfresh) in Htm2.
  split; [|split; [exact Ht2|rewrite He2; reflexivity]].
  unfold onTimer. rewrite Htm2, find_absent; [reflexivity|].
  intros t Hin. apply in_app_or in Hin. destruct Hin as [Hin|[<-|[]]].
  - apply Hfresh in Hin. lia.
  - cbn. lia.
Qed.

Lemma toast_hidden_by_its_own_timer_witness :
  feedbackEl initialWorld = Some (mkFeedbackEl "" "0" None) /\
  feedbackText initialWorld = Some "" /\
  timersTracked initialWorld /\
  option_map fb_opacity
    (feedbackEl (onTimer 1 (showFeedback "Buffering..." info initialWorld)))
  = Some "0".
Proof.
  split; [reflexivity|]. split; [reflexivity|].
  split; [exact initialWorld_timersTracked|].
  apply (toast_hidden_by_its_own_timer "Buffering..." "Start" info info
           initialWorld _ _ eq_refl eq_refl initialWorld_timersTracked).
Defined.

(** ** The earlier version: mute button and toasts *)

Lemma Variant_showFeedback_audio (m : string) (w : World) :
  audioElement (Variant.showFeedback m w) = audioElement w.
Proof. unfold Variant.showFeedback, setTimeout. crush_matches; reflexivity. Qed.

Lemma Variant_showFeedback_icons (m : string) (w : World) :
  volumeBtn (Variant.showFeedback m w) = volumeBtn w /\
  volumeIcon (Variant.showFeedback m w) = volumeIcon w /\
  muteIcon (Variant.showFeedback m w) = muteIcon w.
Proof.
  unfold Variant.showFeedback, setTimeout.
  crush_matches; repeat split; reflexivity.
Qed.

Lemma Variant_onVolumeBtnClick_spec (w : World) :
  volumeBtn w <> None -> volumeIcon w <> None -> muteIcon w <> None ->
  let muted := negb (Audio.muted (audioElement w)) in
  audioElement (Variant.onVolumeBtnClick w) =
    Audio.set_muted muted (audioElement w) /\
  volumeBtn (Variant.onVolumeBtnClick w) = volumeBtn w /\
  volumeIcon (Variant.onVolumeBtnClick w) = Some (mkIcon muted) /\
  muteIcon (Variant.onVolumeBtnClick w) = Some (mkIcon (negb muted)).
Proof.
  intros Hb Hv Hm muted. unfold Variant.onVolumeBtnClick.
  destruct (volumeBtn w) eqn:Eb; [|congruence].
  destruct (volumeIcon w) eqn:Ev; [|congruence].
  destruct (muteIcon w) eqn:Em; [|congruence].
  cbv zeta. getset.
  match goal with
  | |- context [Variant.showFeedback ?m ?x] =>
      destruct (Variant_showFeedback_icons m x) as (H1 & H2 & H3);
      rewrite (Variant_showFeedback_audio m x), H1, H2, H3
  end.
  getset. repeat split; try reflexivity. exact Eb.
Qed.

(** X3.  In the earlier version the mute button is a true toggle: with the
    button and both icons on the page, one click negates the muted flag of
    the element and shows the matching icon, the volume is never touched,
    and two clicks give the media element back as it was. *)
Theorem variant_mute_is_a_toggle (w : World) :
  volumeBtn w <> None -> volumeIcon w <> None -> muteIcon w <> None ->
  let w1 := Variant.onVolumeBtnClick w in
  let w2 := Variant.onVolumeBtnClick w1 in
  Audio.muted (audioElement w1) = negb (Audio.muted (audioElement w)) /\
  Audio.volume (audioElement w1) = Audio.volume (audioElement w) /\
  option_map hidden (volumeIcon w1) = Some (Audio.muted (audioElement w1)) /\
  option_map hidden (muteIcon w1) = Some (negb (Audio.muted (audioElement w1))) /\
  audioElement w2 = audioElement w /\
  volumeIcon w2 = Some (mkIcon (Audio.muted (audioElement w))) /\
  muteIcon w2 = Some (mkIcon (negb (Audio.muted (audioElement w)))).
Proof.
  intros Hb Hv Hm w1 w2.
  destruct (Variant_onVolumeBtnClick_spec w Hb Hv Hm) as (Ha & Hb1 & Hv1 & Hm1).
  fold w1 in Ha, Hb1, Hv1, Hm1.
  assert (Hb' : volumeBtn w1 <> None) by congruence.
  assert (Hv' : volumeIcon w1 <> None) by congruence.
  assert (Hm' : muteIcon w1 <> None) by congruence.
  destruct (Variant_onVolumeBtnClick_spec w1 Hb' Hv' Hm')
    as (Ha2 & _ & Hv2 & Hm2).
  fold w2 in Ha2, Hv2, Hm2.
  rewrite Ha2, Hv2, Hm2, Ha, Hv1, Hm1.
  destruct (audioElement w) as [c d p v m r]. cbn.
  rewrite !negb_involutive. repeat split; reflexivity.
Qed.

Lemma variant_mute_is_a_toggle_witness :
  volumeBtn initialWorld <> None /\ volumeIcon initialWorld <> None /\
  muteIcon initialWorld <> None /\
  audioElement (Variant.onVolumeBtnClick (Variant.onVolumeBtnClick initialWorld))
  = audioElement initialWorld.
Proof.
  split; [discriminate|]. split; [discriminate|]. split; [discriminate|].
  apply (variant_mute_is_a_toggle initialWorld); discriminate.
Defined.

Lemma find_app_found {A : Type} (f : A -> bool) (l1 l2 : list A) (x : A) :
  find f l1 = Some x -> find f (l1 ++ l2)%list = Some x.
Proof.
  induction l1 as [|a l1 IH]; [discriminate|].
  cbn [app find]. destruct (f a); [auto|exact IH].
Qed.

(** X4.  In the earlier version [showFeedback] starts a timer and never
    clears one: with the feedback elements on the page and timer ids the
    browser has not used yet, two toasts in a row leave two hide timers
    pending, and when the first expires it hides the second toast, whose
    own timer is still pending. *)
Theorem variant_toast_hidden_early (m1 m2 : string) (w : World)
    (el : FeedbackEl) (text : string) :
  feedbackEl w = Some el -> feedbackText w = Some text ->
  (forall t, In t (timers w) -> (fst t < nextTimerId w)%nat) ->
  let n := nextTimerId w in
  let w2 := Variant.showFeedback m2 (Variant.showFeedback m1 w) in
  timers w2 = (timers w ++ [(n, HideFeedback); (S n, HideFeedback)])%list /\
  feedbackText w2 = Some m2 /\
  option_map fb_opacity (feedbackEl w2) = Some "1" /\
  let w3 := onTimer n w2 in
  feedbackText w3 = Some m2 /\
  option_map fb_opacity (feedbackEl w3) = Some "0" /\
  In (S n, HideFeedback) (timers w3).
Proof.
  intros Hel Htext Hlt n w2.
  assert (H2 : w2 =
    set_nextTimerId (S (S n))
      (set_timers (timers w ++ [(n, HideFeedback); (S n, HideFeedback)])%list
         (set_feedbackEl (Some (set_fb_opacity "1" el))
            (set_feedbackText (Some m2) w)))).
  { subst w2 n. unfold Variant.showFeedback, setTimeout.
    rewrite Hel, Htext. cbn. rewrite <- app_assoc. reflexivity. }
  rewrite H2. getset.
  split; [reflexivity|]. split; [reflexivity|]. split; [reflexivity|].
  cbv zeta. unfold onTimer. getset.
  change (timers w ++ [(n, HideFeedback); (S n, HideFeedback)])%list
    with (timers w ++ ([(n, HideFeedback)] ++ [(S n, HideFeedback)]))%list.
  rewrite app_assoc.
  assert (Hfind :
    find (fun t => Nat.eqb (fst t) n)
      ((timers w ++ [(n, HideFeedback)]) ++ [(S n, HideFeedback)])%list
    = Some (n, HideFeedback)).
  { apply find_app_found, (find_fresh _ n HideFeedback Hlt). }
  rewrite Hfind. unfold runTask, clearTimeout. getset. cbn [set_fb_opacity].
  getset.
  split; [reflexivity|]. split; [reflexivity|].
  apply filter_In. split.
  - apply in_or_app. right. left. reflexivity.
  - cbn [fst]. destruct (Nat.eqb_spec (S n) n); [lia|reflexivity].
Qed.

Lemma variant_toast_hidden_early_witness :
  feedbackEl initialWorld = Some (mkFeedbackEl "" "0" None) /\
  feedbackText initialWorld = Some "" /\
  (forall t, In t (timers initialWorld) ->
             (fst t < nextTimerId initialWorld)%nat) /\
  option_map fb_opacity
    (feedbackEl
       (onTimer 1
          (Variant.showFeedback "Playing"
             (Variant.showFeedback "Paused" initialWorld)))) = Some "0".
Proof.
  split; [reflexivity|]. split; [reflexivity|].
  split; [intros t []|].
  apply (variant_toast_hidden_early "Paused" "Playing" initialWorld _ _
           eq_refl eq_refl).
  intros t [].
Defined.

(** ** Volume keys and the volume slider *)

Ltac qsplit :=
  repeat first [progress cbv beta iota delta [negb] | progress qcases].

Lemma volume_up_range (v : number) :
  JS.le (Fin 0) v = true -> JS.le v (Fin 1) = true ->
  let x := clamp01 (JS.min (Fin 1) (JS.add v VOLUME_JUMP)) in
  JS.le v x = true /\ JS.le x (Fin 1) = true /\
  JS.seq x (JS.min (Fin 1) (JS.add v VOLUME_JUMP)) = true /\
  JS.seq x (Fin 0) = false.
Proof.
  unfold VOLUME_JUMP, JS.add.
  destruct v as [| |q|]; intros H0 H1; try discriminate.
  cbv zeta. rewrite min_Fin. qcases; rewrite clamp01_Fin;
    unfold JS.le, JS.seq in *; qsplit; repeat split; qsolve.
Qed.

Lemma volume_down_range (v : number) :
  JS.le (Fin 0) v = true -> JS.le v (Fin 1) = true ->
  let x := clamp01 (JS.max (Fin 0) (JS.sub v VOLUME_JUMP)) in
  JS.le (Fin 0) x = true /\ JS.le x v = true /\
  JS.seq x (JS.max (Fin 0) (JS.sub v VOLUME_JUMP)) = true /\
  (JS.seq x (Fin 0) = true <-> JS.le v VOLUME_JUMP = true).
Proof.
  unfold VOLUME_JUMP, JS.sub, JS.add, JS.neg.
  destruct v as [| |q|]; intros H0 H1; try discriminate.
  cbv zeta. rewrite max_Fin. qcases; rewrite clamp01_Fin;
    unfold JS.le, JS.seq in *; qsplit; repeat split; intros; qsolve.
Qed.

Lemma onKeyDown_ArrowUp (reply : PlayReply) (w : World) (sl : VolumeSlider) :
  volumeSlider w = Some sl ->
  onKeyDown reply true (mkKeyboardEvent "ArrowUp" false) w =
  Normal
    (showFeedback
       ("Volume: " ++
        JS.toString
          (JS.round
             (JS.mul (JS.min (Fin 1)
                        (JS.add (Audio.volume (audioElement w)) VOLUME_JUMP))
                (Fin 100))) ++ "%") info
       (updateVolume
          (JS.min (Fin 1) (JS.add (Audio.volume (audioElement w)) VOLUME_JUMP))
          w)).
Proof.
  intros H. unfold onKeyDown.
  change (toLowerCase (key (mkKeyboardEvent "ArrowUp" false)))
    with "arrowup".
  cbv beta iota zeta delta [targetTakesText negb].
  change (String.eqb "arrowup" " ") with false.
  change (String.eqb "arrowup" "m") with false.
  change (String.eqb "arrowup" "j") with false.
  change (String.eqb "arrowup" "k") with false.
  change (String.eqb "arrowup" "l") with false.
  change (String.eqb "arrowup" "arrowup") with true.
  cbv beta iota. rewrite H. reflexivity.
Qed.

Lemma onKeyDown_ArrowDown (reply : PlayReply) (w : World) (sl : VolumeSlider) :
  volumeSlider w = Some sl ->
  onKeyDown reply true (mkKeyboardEvent "ArrowDown" false) w =
  Normal
    (showFeedback
       ("Volume: " ++
        JS.toString
          (JS.round
             (JS.mul (JS.max (Fin 0)
                        (JS.sub (Audio.volume (audioElement w)) VOLUME_JUMP))
                (Fin 100))) ++ "%") info
       (updateVolume
          (JS.max (Fin 0) (JS.sub (Audio.volume (audioElement w)) VOLUME_JUMP))
          w)).
Proof.
  intros H. unfold onKeyDown.
  change (toLowerCase (key (mkKeyboardEvent "ArrowDown" false)))
    with "arrowdown".
  cbv beta iota zeta delta [targetTakesText negb].
  change (String.eqb "arrowdown" " ") with false.
  change (String.eqb "arrowdown" "m") with false.
  change (String.eqb "arrowdown" "j") with false.
  change (String.eqb "arrowdown" "k") with false.
  change (String.eqb "arrowdown" "l") with false.
  change (String.eqb "arrowdown" "arrowup") with false.
  change (String.eqb "arrowdown" "arrowdown") with true.
  cbv beta iota. rewrite H. reflexivity.
Qed.

(** X5.  The volume keys keep the volume inside [0,1]: from a volume [v]
    in [0,1], on a page with the volume slider, ArrowUp gives
    [min(1, v + 0.05)], never lower than [v] and never muted, ArrowDown
    gives [max(0, v - 0.05)], never higher than [v], and the element is
    muted after ArrowDown exactly when [v <= 0.05]; the state holds the
    same volume and flag as the element. *)
Theorem volume_keys_stay_in_range (reply : PlayReply) (w : World)
    (sl : VolumeSlider) :
  volumeSlider w = Some sl ->
  let v := Audio.volume (audioElement w) in
  JS.le (Fin 0) v = true -> JS.le v (Fin 1) = true ->
  (exists u,
     onKeyDown reply true (mkKeyboardEvent "ArrowUp" false) w = Normal u /\
     let x := Audio.volume (audioElement u) in
     JS.seq x (JS.min (Fin 1) (JS.add v VOLUME_JUMP)) = true /\
     JS.le v x = true /\ JS.le x (Fin 1) = true /\
     Audio.muted (audioElement u) = false /\
     State.volume (state u) = x /\ State.isMuted (state u) = false) /\
  (exists d,
     onKeyDown reply true (mkKeyboardEvent "ArrowDown" false) w = Normal d /\
     let x := Audio.volume (audioElement d) in
     JS.seq x (JS.max (Fin 0) (JS.sub v VOLUME_JUMP)) = true /\
     JS.le (Fin 0) x = true /\ JS.le x v = true /\
     (Audio.muted (audioElement d) = true <-> JS.le v VOLUME_JUMP = true) /\
     State.volume (state d) = x /\
     State.isMuted (state d) = Audio.muted (audioElement d)).
Proof.
  intros Hsl v H0 H1. split.
  - rewrite (onKeyDown_ArrowUp reply w sl Hsl). eexists.
    split; [reflexivity|]. cbv zeta.
    rewrite showFeedback_audioElement, showFeedback_state,
      updateVolume_audio, updateVolume_state.
    destruct (volume_up_range v H0 H1) as (Ha & Hb & Hc & Hd).
    cbv zeta in Ha, Hb, Hc, Hd. fold v. cbn [Audio.volume Audio.muted
      Audio.set_muted Audio.set_volume State.volume State.isMuted
      State.set_isMuted State.set_volume].
    repeat split; assumption.
  - rewrite (onKeyDown_ArrowDown reply w sl Hsl). eexists.
    split; [reflexivity|]. cbv zeta.
    rewrite showFeedback_audioElement, showFeedback_state,
      updateVolume_audio, updateVolume_state.
    destruct (volume_down_range v H0 H1) as (Ha & Hb & Hc & Hd).
    cbv zeta in Ha, Hb, Hc, Hd. fold v. cbn [Audio.volume Audio.muted
      Audio.set_muted Audio.set_volume State.volume State.isMuted
      State.set_isMuted State.set_volume].
    repeat split; try assumption; apply Hd.
Qed.

Lemma volume_keys_stay_in_range_witness :
  let w := set_audioElement
             (Audio.mk (Fin 0) (Fin 200) true (Fin 0.98) false (Fin 1))
             initialWorld in
  JS.le (Fin 0) (Fin 0.98) = true /\ JS.le (Fin 0.98) (Fin 1) = true /\
  exists u,
    onKeyDown PlayStarts true (mkKeyboardEvent "ArrowUp" false) w = Normal u /\
    JS.seq (Audio.volume (audioElement u)) (Fin 1) = true.
Proof.
  intros w. split; [reflexivity|]. split; [reflexivity|].
  destruct (volume_keys_stay_in_range PlayStarts w _ eq_refl eq_refl eq_refl)
    as [(u & Hu & Hx & _) _].
  exists u. split; [exact Hu|]. exact Hx.
Defined.

Lemma Qtrunc_range (q : Q) :
  0 <= q -> q <= 100 ->
  0 <= inject_Z (JS.Qtrunc q) / 100 /\ inject_Z (JS.Qtrunc q) / 100 <= 1 /\
  (inject_Z (JS.Qtrunc q) / 100 == 0 <-> q < 1).
Proof.
  intros H0 H1. unfold JS.Qtrunc.
  destruct q as [n d]. cbn [Qnum Qden].
  assert (Hn : (0 <= n)%Z).
  { unfold Qle in H0. cbn in H0. lia. }
  assert (Hd : (0 < Z.pos d)%Z) by lia.
  rewrite Z.quot_div_nonneg by lia.
  assert (Hq0 : (0 <= n / Z.pos d)%Z) by (apply Z.div_pos; lia).
  assert (Hq1 : (n / Z.pos d <= 100)%Z).
  { unfold Qle in H1. cbn in H1.
    apply Z.div_le_upper_bound; lia. }
  assert (Hz : (n / Z.pos d = 0)%Z <-> (n < Z.pos d)%Z).
  { split; intros H.
    - apply Z.div_small_iff in H; lia.
    - apply Z.div_small. lia. }
  assert (Hi0 : 0 <= inject_Z (n / Z.pos d))
    by (change 0 with (inject_Z 0); rewrite <- Zle_Qle; exact Hq0).
  assert (Hi1 : inject_Z (n / Z.pos d) <= 100)
    by (change 100 with (inject_Z 100); rewrite <- Zle_Qle; exact Hq1).
  split; [|split].
  - apply Qle_shift_div_l; [reflexivity|]. lra.
  - apply Qle_shift_div_r; [reflexivity|]. lra.
  - split; intros H.
    + assert (Hi : inject_Z (n / Z.pos d) == 0).
      { rewrite <- (Qmult_div_r (inject_Z (n / Z.pos d)) 100) by discriminate.
        rewrite H. reflexivity. }
      change 0 with (inject_Z 0) in Hi.
      apply (proj1 (inject_Z_injective _ _)) in Hi.
      apply Hz in Hi. unfold Qlt. cbn. lia.
    + assert (Hlt : (n < Z.pos d)%Z) by (unfold Qlt in H; cbn in H; lia).
      apply Hz in Hlt. rewrite Hlt. reflexivity.
Qed.

Lemma scaleUp_spec (fuel : nat) (n d : Z) :
  (0 < n)%Z -> (n < 10 * d)%Z -> (d <= n * 2 ^ Z.of_nat fuel)%Z ->
  (d <= snd (JS.scaleUp fuel n d) < 10 * d)%Z.
Proof.
  revert n. induction fuel as [|fuel IH]; intros n Hn Hlt Hf.
  - cbn [JS.scaleUp snd]. change (2 ^ Z.of_nat 0)%Z with 1%Z in Hf. lia.
  - cbn [JS.scaleUp]. destruct (Z.leb_spec d n) as [Hle|Hgt].
    + cbn [snd]. lia.
    + specialize (IH (10 * n)%Z).
      destruct (JS.scaleUp fuel (10 * n) d) as [k n'] eqn:E.
      cbn [snd] in *. apply IH; [lia|lia|].
      rewrite Nat2Z.inj_succ, Z.pow_succ_r in Hf by lia.
      assert (0 < 2 ^ Z.of_nat fuel)%Z by (apply Z.pow_pos_nonneg; lia).
      nia.
Qed.

(** In exponent notation below 1 the digit before the point is not 0. *)
Lemma leadDigit_small (q : Q) :
  0 < q -> q < 1 -> (1 <= JS.leadDigit q <= 9)%Z.
Proof.
  intros H0 H1. destruct q as [n d]. unfold JS.leadDigit, JS.normalize.
  cbn [Qnum Qden].
  assert (Hn : (0 < n)%Z) by (unfold Qlt in H0; cbn in H0; lia).
  assert (Hd : (n < Z.pos d)%Z) by (unfold Qlt in H1; cbn in H1; lia).
  rewrite (Z.abs_eq n) by lia.
  destruct (Z.leb_spec (Z.pos d) n) as [Hle|_]; [lia|].
  pose proof (scaleUp_spec (S (Z.to_nat (Z.log2 (Z.pos d)))) n (Z.pos d)) as Hs.
  destruct (JS.scaleUp _ n (Z.pos d)) as [k n'] eqn:E. cbn [snd] in Hs.
  assert (Hfuel : (Z.pos d <= n * 2 ^ Z.of_nat (S (Z.to_nat (Z.log2 (Z.pos d)))))%Z).
  { rewrite Nat2Z.inj_succ, Z2Nat.id by apply Z.log2_nonneg.
    pose proof (Z.log2_spec (Z.pos d) ltac:(lia)) as [_ Hup].
    assert (0 < 2 ^ Z.succ (Z.log2 (Z.pos d)))%Z
      by (apply Z.pow_pos_nonneg; [lia|]; pose proof (Z.log2_nonneg (Z.pos d)); lia).
    nia. }
  specialize (Hs Hn ltac:(lia) Hfuel).
  split.
  - apply Z.div_le_lower_bound; lia.
  - assert (n' / Z.pos d < 10)%Z by (apply Z.div_lt_upper_bound; lia). lia.
Qed.

Lemma plainNotation_nonneg (q : Q) :
  0 <= q ->
  JS.plainNotation q = true <->
  q == 0 \/ ((1 # 1000000) <= q /\ q < (1000000000000000000000 # 1)).
Proof.
  intros H0. unfold JS.plainNotation.
  assert (Ha : Qabs q == q) by (apply Qabs_pos; exact H0).
  rewrite orb_true_iff, andb_true_iff, negb_true_iff.
  rewrite Qeq_bool_iff, Qle_bool_iff, <- not_true_iff_false, Qle_bool_iff.
  rewrite Ha. split.
  - intros [H|[H1 H2]]; [left; exact H|right].
    split; [exact H1|]. apply Qnot_le_lt. exact H2.
  - intros [H|[H1 H2]]; [left; exact H|right].
    split; [exact H1|]. apply Qlt_not_le. exact H2.
Qed.

(** What [parseInt(volumeSlider.value) / 100] is for a slider value between
    0 and 100: it is 0 exactly for the values whose text starts with "0",
    and those are 0 and the values from 1e-6 up to 1. *)
Lemma intPrefix_range (q : Q) :
  0 <= q -> q <= 100 ->
  0 <= inject_Z (JS.intPrefix q) / 100 /\
  inject_Z (JS.intPrefix q) / 100 <= 1 /\
  (inject_Z (JS.intPrefix q) / 100 == 0 <->
   q == 0 \/ ((1 # 1000000) <= q /\ q < 1)).
Proof.
  intros H0 H1. unfold JS.intPrefix.
  pose proof (plainNotation_nonneg q H0) as Hp.
  destruct (JS.plainNotation q).
  - destruct (Qtrunc_range q H0 H1) as (Ha & Hb & Hc).
    split; [exact Ha|]. split; [exact Hb|].
    rewrite Hc. destruct (proj1 Hp eq_refl) as [Hz|[Hlo Hhi]].
    + split; [intros _; left; exact Hz|intros _; lra].
    + split; [intros Hlt; right; split; assumption|].
      intros [Hz|[_ Hlt]]; [lra|exact Hlt].
  - assert (Hnz : ~ q == 0) by (intros Hz; assert (false = true) by (apply Hp; left; exact Hz); discriminate).
    assert (Hsmall : q < (1 # 1000000)).
    { apply Qnot_le_lt. intros Hlo.
      assert (false = true) by (apply Hp; right; split; [exact Hlo|lra]).
      discriminate. }
    assert (Hpos : 0 < q) by (apply Qle_lteq in H0; destruct H0 as [H0|H0]; [exact H0|exfalso; apply Hnz; symmetry; exact H0]).
    assert (Hlt1 : q < 1) by lra.
    pose proof (leadDigit_small q Hpos Hlt1) as [Hl1 Hl9].
    assert (Hsg : Z.sgn (Qnum q) = 1%Z).
    { apply Z.sgn_pos. unfold Qlt in Hpos. cbn in Hpos. lia. }
    rewrite Hsg, Z.mul_1_l.
    assert (Hi1 : 1 <= inject_Z (JS.leadDigit q))
      by (change 1 with (inject_Z 1); rewrite <- Zle_Qle; exact Hl1).
    assert (Hi9 : inject_Z (JS.leadDigit q) <= 9)
      by (change 9 with (inject_Z 9); rewrite <- Zle_Qle; exact Hl9).
    split; [|split].
    + apply Qle_shift_div_l; [reflexivity|]. lra.
    + apply Qle_shift_div_r; [reflexivity|]. lra.
    + split.
      * intros H. exfalso.
        assert (Hi : inject_Z (JS.leadDigit q) == 0).
        { rewrite <- (Qmult_div_r (inject_Z (JS.leadDigit q)) 100)
            by discriminate.
          rewrite H. reflexivity. }
        lra.
      * intros [Hz|[Hlo _]]; [exfalso; apply Hnz; exact Hz|lra].
Qed.

(** X6.  The volume slider: for a slider value between 0 and 100 the
    listener sets a volume in [0,1].  [parseInt] reads the digits in front
    of the point of the text of the value.  For the value 0 and for the
    values from 1e-6 on, which are written in plain notation, it drops the
    fraction: the element is muted exactly when the value is below 1.  A
    positive value up to 9e-7 is written in exponent notation, [parseInt]
    reads its first digit and the element is not muted.  (Between 9e-7 and
    1e-6 the notation depends on the rounding of the number.)  The state
    follows the element, and with both icons on the page the volume icon
    is hidden exactly when the element is muted and the mute icon exactly
    when it is not. *)
Theorem volume_slider_input (w : World) (sl : VolumeSlider) (q : Q) :
  volumeSlider w = Some sl -> vol_value sl = Fin q ->
  0 <= q -> q <= 100 ->
  let w' := onVolumeInput w in
  let x := Audio.volume (audioElement w') in
  JS.le (Fin 0) x = true /\ JS.le x (Fin 1) = true /\
  (q == 0 \/ (1 # 1000000) <= q ->
   (Audio.muted (audioElement w') = true <-> q < 1)) /\
  (0 < q -> q <= (9 # 10000000) -> Audio.muted (audioElement w') = false) /\
  State.volume (state w') = x /\
  State.isMuted (state w') = Audio.muted (audioElement w') /\
  (volumeIcon w <> None -> muteIcon w <> None ->
   volumeIcon w' = Some (mkIcon (Audio.muted (audioElement w'))) /\
   muteIcon w' = Some (mkIcon (negb (Audio.muted (audioElement w'))))).
Proof.
  intros Hsl Hv H0 H1 w' x. subst x w'.
  unfold onVolumeInput. rewrite Hsl, Hv. unfold JS.parseInt.
  destruct (intPrefix_range q H0 H1) as (Ha & Hb & Hc).
  assert (Hdiv : JS.div (Fin (inject_Z (JS.intPrefix q))) (Fin 100) =
                 Fin (inject_Z (JS.intPrefix q) / 100)) by reflexivity.
  rewrite Hdiv. clear Hdiv.
  set (y := inject_Z (JS.intPrefix q) / 100) in *.
  rewrite updateVolume_audio, updateVolume_state.
  cbn [Audio.volume Audio.muted Audio.set_muted Audio.set_volume
       State.volume State.isMuted State.set_isMuted State.set_volume].
  assert (Hcl : clamp01 (Fin y) = if Qle_bool 1 y then Fin 1
                                  else if Qle_bool y 0 then Fin 0 else Fin y)
    by apply clamp01_Fin.
  assert (Hmuted : JS.seq (clamp01 (Fin y)) (Fin 0) = true <-> y == 0).
  { rewrite Hcl. unfold JS.seq. split.
    - qsplit; intros H; qsolve.
    - intros H. qsplit; qsolve. }
  split; [|split; [|split; [|split; [|split; [reflexivity|split;
    [reflexivity|]]]]]].
  - rewrite Hcl. unfold JS.le. qsplit; qsolve.
  - rewrite Hcl. unfold JS.le. qsplit; qsolve.
  - intros Hplain. rewrite Hmuted, Hc. split.
    + intros [Hz|[_ Hlt]]; [lra|exact Hlt].
    + intros Hlt. destruct Hplain as [Hz|Hlo];
        [left; exact Hz|right; split; assumption].
  - intros Hpos Htiny. apply not_true_is_false. intros Hm.
    apply Hmuted, Hc in Hm. destruct Hm as [Hz|[Hlo _]]; lra.
  - intros Hvi Hmi. unfold updateVolume, updateVolumeSliderBackground.
    cbv zeta. getset.
    destruct (volumeIcon w); [|congruence].
    destruct (muteIcon w); [|congruence].
    getset. rewrite Hsl. getset.
    destruct (volumeBtn w); getset; split; reflexivity.
Qed.

Lemma volume_slider_input_witness :
  let w := userSetsVolume (Fin 0.9) initialWorld in
  volumeSlider w = Some (mkVolumeSlider (Fin 0.9) (Fin 50)) /\
  0 <= 0.9 /\ 0.9 <= 100 /\
  Audio.muted (audioElement (onVolumeInput w)) = true /\
  Audio.muted
    (audioElement
       (onVolumeInput (userSetsVolume (Fin (1 # 10000000)) initialWorld)))
    = false.
Proof.
  intros w. split; [reflexivity|].
  split; [discriminate|]. split; [discriminate|].
  assert (H0 : 0 <= 0.9) by discriminate.
  assert (H1 : 0.9 <= 100) by discriminate.
  destruct (volume_slider_input w _ 0.9 eq_refl eq_refl H0 H1)
    as (_ & _ & Hm & _).
  split.
  - apply Hm; [right; discriminate|reflexivity].
  - assert (H2 : 0 <= (1 # 10000000)) by discriminate.
    assert (H3 : (1 # 10000000) <= 100) by discriminate.
    destruct (volume_slider_input
                (userSetsVolume (Fin (1 # 10000000)) initialWorld) _
                (1 # 10000000) eq_refl eq_refl H2 H3) as (_ & _ & _ & Ht & _).
    apply Ht; [reflexivity|discriminate].
Defined.

(** ** Buffering and progress *)

(** X7.  The 'canplay' listener hides the toast only while it reads
    "Buffering...": after [showFeedback(m)] on a page with the feedback
    elements it sets the opacity to 0 and keeps the text when [m] is that
    message, and does nothing at all for any other message. *)
Theorem canplay_hides_only_buffering (m : string) (t : FeedbackType)
    (w : World) (el : FeedbackEl) (text : string) :
  feedbackEl w = Some el -> feedbackText w = Some text ->
  let w1 := showFeedback m t w in
  (m = "Buffering..." ->
   option_map fb_opacity (feedbackEl (onCanPlay w1)) = Some "0" /\
   feedbackText (onCanPlay w1) = Some m /\
   timers (onCanPlay w1) = timers w1) /\
  (m <> "Buffering..." -> onCanPlay w1 = w1).
Proof.
  intros Hel Htext w1.
  destruct (showFeedback_shown m t w el text Hel Htext) as [Ht He].
  fold w1 in Ht, He. unfold onCanPlay. rewrite He, Ht. split.
  - intros ->. change ("Buffering..." =? "Buffering...")%string with true.
    cbv iota. getset. repeat split; try reflexivity. exact Ht.
  - intros Hne. destruct (String.eqb_spec m "Buffering..."); [congruence|].
    reflexivity.
Qed.

Lemma canplay_hides_only_buffering_witness :
  feedbackEl initialWorld = Some (mkFeedbackEl "" "0" None) /\
  feedbackText initialWorld = Some "" /\
  option_map fb_opacity
    (feedbackEl (dispatch MediaCanPlay (dispatch MediaWaiting initialWorld)))
    = Some "0" /\
  dispatch MediaCanPlay (showFeedback "Start" info initialWorld)
    = showFeedback "Start" info initialWorld.
Proof.
  split; [reflexivity|]. split; [reflexivity|].
  destruct (canplay_hides_only_buffering "Buffering..." info initialWorld
              _ _ eq_refl eq_refl) as [H _].
  destruct (canplay_hides_only_buffering "Start" info initialWorld
              _ _ eq_refl eq_refl) as [_ H'].
  split; [apply H; reflexivity|apply H'; discriminate].
Defined.

Lemma percent_range (c d : Q) :
  0 <= c -> c <= d -> ~ d == 0 ->
  0 <= c / d * 100 /\ c / d * 100 <= 100.
Proof.
  intros H0 H1 Hd.
  assert (Hpos : 0 < d) by lra.
  assert (Ha : 0 <= c / d) by (apply Qle_shift_div_l; lra).
  assert (Hb : c / d <= 1) by (apply Qle_shift_div_r; lra).
  split; lra.
Qed.

(** X8.  What a time update renders when the user is not seeking, on a
    page with the progress bar and the seek slider: the bar width, its
    [aria-valuenow] and the slider value are one and the same percentage;
    it is 0 while the duration is unknown ([NaN]) or 0, so nothing is ever
    divided by zero, and for a position [c] with [0 <= c <= d], [d] a
    finite non-zero duration, it is [c / d * 100], inside [0, 100].  The
    media element is only read. *)
Theorem time_update_percentage (w : World) (bar : ProgressBar)
    (sl : SeekSlider) :
  State.isSeeking (state w) = false ->
  progressBar w = Some bar -> seekSlider w = Some sl ->
  let w' := updateProgress w in
  let c := Audio.currentTime (audioElement w) in
  let d := Audio.duration (audioElement w) in
  audioElement w' = audioElement w /\
  (exists p,
     progressBar w' = Some (mkProgressBar p p) /\
     option_map seek_value (seekSlider w') = Some p /\
     (JS.truthy d = false -> p = Fin 0) /\
     (forall qc qd, c = Fin qc -> d = Fin qd -> 0 <= qc -> qc <= qd ->
                    ~ qd == 0 ->
                    p = Fin (qc / qd * 100) /\
                    JS.le (Fin 0) p = true /\ JS.le p (Fin 100) = true)) /\
  option_map time_textContent (currentTimeEl w') =
    option_map (fun _ => formatTime c) (currentTimeEl w).
Proof.
  intros Hseek Hbar Hsl w' c d. subst w'.
  unfold updateProgress. rewrite Hseek. cbv zeta. fold c d.
  set (p := if JS.truthy (JS.or d (Fin 0))
            then JS.mul (JS.div c (JS.or d (Fin 0))) (Fin 100)
            else Fin 0).
  destruct (currentTimeEl w) as [tel|] eqn:Et; getset; rewrite Hbar; getset;
    rewrite Hsl; getset; rewrite ?Et.
  all: split; [reflexivity|]; split; [|reflexivity].
  all: exists p; split; [reflexivity|]; split; [reflexivity|]; split.
  all: try (intros Hd; subst p; unfold JS.or; rewrite Hd; reflexivity).
  all: intros qc qd Hc Hdq H0 H1 Hne; subst p;
    assert (Ht : JS.truthy (Fin qd) = true)
      by (unfold JS.truthy; destruct (Qeq_bool qd 0) eqn:E;
          [apply Qeq_bool_iff in E; contradiction|reflexivity]);
    unfold JS.or; rewrite Hdq, Ht, Ht, Hc;
    assert (Hdiv : JS.div (Fin qc) (Fin qd) = Fin (qc / qd))
      by (unfold JS.div; destruct (Qeq_bool qd 0) eqn:E;
          [apply Qeq_bool_iff in E; contradiction|reflexivity]);
    rewrite Hdiv; unfold JS.mul;
    destruct (percent_range qc qd H0 H1 Hne) as [Hp0 Hp1];
    split; [reflexivity|]; unfold JS.le; split; qsolve.
Qed.

Lemma time_update_percentage_witness :
  let w := set_audioElement
             (Audio.mk (Fin 50) (Fin 200) false (Fin 0.5) false (Fin 1))
             initialWorld in
  State.isSeeking (state w) = false /\
  exists p,
    option_map seek_value (seekSlider (updateProgress w)) = Some p /\
    JS.seq p (Fin 25) = true.
Proof.
  intros w. split; [reflexivity|].
  destruct (time_update_percentage w _ _ eq_refl eq_refl eq_refl)
    as (_ & (p & _ & Hs & _ & Hp) & _).
  exists p. split; [exact Hs|].
  assert (H0 : 0 <= 50) by discriminate.
  assert (H1 : 50 <= 200) by discriminate.
  assert (Hne : ~ 200 == 0) by discriminate.
  destruct (Hp 50 200 eq_refl eq_refl H0 H1 Hne) as (-> & _).
  reflexivity.
Defined.

(** ** Releasing the slider before the preview runs *)

Lemma find_unique (l : list (nat * Task)) (n : nat) (task : Task) :
  NoDup (map fst l) -> In (n, task) l ->
  find (fun t => Nat.eqb (fst t) n) l = Some (n, task).
Proof.
  induction l as [|[i k] l IH]; intros Hnd Hin; [destruct Hin|].
  cbn [map fst] in Hnd. inversion Hnd as [|? ? Hnin Hnd']; subst.
  cbn [find fst]. destruct Hin as [E|Hin].
  - injection E as -> ->. rewrite Nat.eqb_refl. reflexivity.
  - destruct (Nat.eqb_spec i n) as [->|_]; [|apply IH; assumption].
    exfalso. apply Hnin. apply (in_map fst) in Hin. exact Hin.
Qed.

Lemma showFeedback_keeps_timer (m : string) (t : FeedbackType) (w : World)
    (i : nat) (task : Task) :
  In (i, task) (timers w) ->
  option_map fb_timeout (feedbackEl w) <> Some (Some i) ->
  In (i, task) (timers (showFeedback m t w)).
Proof.
  intros Hin Hne.
  destruct (feedbackEl w) as [el|] eqn:Hel;
    [|rewrite showFeedback_absent; auto].
  destruct (feedbackText w) as [text|] eqn:Htext;
    [|rewrite showFeedback_absent; auto].
  pose proof (showFeedback_timerView m t w el text Hel Htext) as Hv.
  unfold timerView in Hv. injection Hv as Ht _ _ _. rewrite Ht.
  apply in_or_app. left. apply In_cleared. split; [exact Hin|].
  cbn [fst]. cbn in Hne. congruence.
Qed.

Lemma onSeekChange_timerView_before (w : World) (sl : SeekSlider) :
  seekSlider w = Some sl ->
  JS.isFinite (seekTarget (seek_value sl) w) = true ->
  exists m x, report (onSeekChange w) = showFeedback m info x /\
              timerView x = timerView w /\
              audioElement x =
                Audio.set_currentTime (seekTarget (seek_value sl) w)
                  (audioElement w).
Proof.
  intros Hsl Hfin. rewrite (onSeekChange_Normal w sl Hsl Hfin), report_Normal.
  eexists. eexists. split; [reflexivity|]. split; reflexivity.
Qed.

Lemma onSeekChange_refused (w : World) (sl : SeekSlider) :
  seekSlider w = Some sl ->
  JS.isFinite (seekTarget (seek_value sl) w) = false ->
  timerView (report (onSeekChange w)) = timerView w /\
  audioElement (report (onSeekChange w)) = audioElement w /\
  state (report (onSeekChange w)) = state w /\
  feedbackText (report (onSeekChange w)) = feedbackText w /\
  exists err, uncaught (report (onSeekChange w)) = (uncaught w ++ [err])%list.
Proof.
  intros Hsl Hfin.
  destruct (onSeekChange_Throw w sl Hsl Hfin) as [err ->].
  unfold report. repeat split. eexists. reflexivity.
Qed.

Lemma onSeekInput_seekSlider (w : World) :
  seekSlider (onSeekInput w) = seekSlider w.
Proof.
  unfold onSeekInput, clearTimeout, setTimeout.
  destruct (seekSlider w) eqn:E; [|exact E].
  destruct (seekTimeoutId w); exact E.
Qed.

Lemma seekPreview_isSeeking (w : World) (sl : SeekSlider) :
  seekSlider w = Some sl ->
  State.isSeeking (state (seekPreview w)) = true /\
  audioElement (seekPreview w) = audioElement w.
Proof.
  intros Hsl. unfold seekPreview. rewrite Hsl.
  crush_matches; split; reflexivity.
Qed.

(** X9.  A release that comes before the debounced preview has run leaves
    the player in seeking mode.  On a page with the seek slider and tracked
    timers: after the slider is dragged to [value], released there, and the
    preview timer of the drag then expires, [isSeeking] is true, no preview
    timer is pending any more, and every later time update renders
    nothing, wherever the element has moved.  The position stands
    committed when it is a finite number; otherwise the release was
    refused and the media element is as it was. *)
Theorem release_before_preview_freezes_progress
    (value : number) (w : World) (sl : SeekSlider) :
  seekSlider w = Some sl ->
  timersTracked w ->
  let n := nextTimerId w in
  let target :=
    JS.mul (JS.div value (Fin 100))
      (JS.or (Audio.duration (audioElement w)) (Fin 0)) in
  let w3 := run [SeekInput value; SeekChange value; TimerFires n] w in
  State.isSeeking (state w3) = true /\
  (JS.isFinite target = true ->
   Audio.currentTime (audioElement w3) = target) /\
  (JS.isFinite target = false -> audioElement w3 = audioElement w) /\
  pending SeekPreview w3 = 0%nat /\
  forall audio,
    dispatch MediaTimeUpdate (dispatch (BrowserUpdates audio) w3) =
    dispatch (BrowserUpdates audio) w3.
Proof.
  intros Hsl Htr n target w3.
  assert (Etarget : target = seekTarget value w) by reflexivity.
  set (w1 := dispatch (SeekInput value) w).
  set (w2 := dispatch (SeekChange value) w1).
  assert (E3 : w3 = onTimer n w2) by reflexivity.
  assert (Htr1 : timersTracked w1) by (apply timersTracked_dispatch, Htr).
  assert (Htr2 : timersTracked w2) by (apply timersTracked_dispatch, Htr1).
  (* the drag *)
  assert (Hsl0 : seekSlider (userSetsSeek value w) =
                 Some (set_seek_value value sl))
    by (rewrite userSetsSeek_seekSlider, Hsl; reflexivity).
  pose proof (onSeekInput_timerView _ _ Hsl0) as Hv1.
  assert (Hsame : timerView (userSetsSeek value w) = timerView w)
    by apply userSetsSeek_timerView.
  unfold timerView in Hsame. injection Hsame as Hs1 Hs2 Hs3 Hs4.
  rewrite Hs1, Hs2, Hs3, Hs4 in Hv1. fold n in Hv1.
  change (onSeekInput (userSetsSeek value w)) with w1 in Hv1.
  unfold timerView in Hv1. injection Hv1 as Ht1 Hn1 Hf1 Hq1.
  assert (Hsl1 : seekSlider w1 = Some (set_seek_value value sl))
    by (unfold w1, dispatch; rewrite onSeekInput_seekSlider; exact Hsl0).
  assert (Hin1 : In (n, SeekPreview) (timers w1))
    by (rewrite Ht1; apply in_or_app; right; left; reflexivity).
  assert (Ha1 : audioElement w1 = audioElement w).
  { unfold w1, dispatch, onSeekInput, clearTimeout, setTimeout.
    rewrite Hsl0.
    destruct (seekTimeoutId (userSetsSeek value w));
      apply userSetsSeek_audio. }
  (* the release *)
  assert (Hsl1' : seekSlider (userSetsSeek value w1) =
                  Some (set_seek_value value (set_seek_value value sl)))
    by (rewrite userSetsSeek_seekSlider, Hsl1; reflexivity).
  assert (Ht : seekTarget
                 (seek_value (set_seek_value value (set_seek_value value sl)))
                 (userSetsSeek value w1) = seekTarget value w).
  { apply seekTarget_frame. rewrite userSetsSeek_audio, Ha1. reflexivity. }
  destruct Htr as (_ & _ & _ & _ & Hrf & _).
  assert (Hw2 : In (n, SeekPreview) (timers w2) /\
                (JS.isFinite target = true ->
                 Audio.currentTime (audioElement w2) = target) /\
                (JS.isFinite target = false ->
                 audioElement w2 = audioElement w)).
  { rewrite Etarget.
    destruct (JS.isFinite (seekTarget value w)) eqn:Hfin.
    - assert (Hfin' : JS.isFinite
                        (seekTarget
                           (seek_value
                              (set_seek_value value (set_seek_value value sl)))
                           (userSetsSeek value w1)) = true)
        by (rewrite Ht; exact Hfin).
      destruct (onSeekChange_timerView_before _ _ Hsl1' Hfin')
        as (m & x & Ex & Hvx & Hax).
      rewrite userSetsSeek_timerView in Hvx.
      unfold timerView in Hvx. injection Hvx as Hx1 Hx2 Hx3 Hx4.
      assert (E2 : w2 = showFeedback m info x) by exact Ex.
      split; [|split].
      + rewrite E2. apply showFeedback_keeps_timer.
        * rewrite Hx1. exact Hin1.
        * rewrite Hx3, Hf1. intros E. apply Hrf in E. fold n in E. lia.
      + intros _. rewrite E2, showFeedback_audioElement, Hax, Ht.
        reflexivity.
      + intros E. discriminate E.
    - assert (Hfin' : JS.isFinite
                        (seekTarget
                           (seek_value
                              (set_seek_value value (set_seek_value value sl)))
                           (userSetsSeek value w1)) = false)
        by (rewrite Ht; exact Hfin).
      destruct (onSeekChange_refused _ _ Hsl1' Hfin') as (Hv & Ha & _).
      assert (E2 : w2 = report (onSeekChange (userSetsSeek value w1)))
        by reflexivity.
      rewrite userSetsSeek_timerView in Hv.
      unfold timerView in Hv. injection Hv as Hx1 _ _ _.
      split; [|split].
      + rewrite E2, Hx1. exact Hin1.
      + intros E. discriminate E.
      + intros _. rewrite E2, Ha, userSetsSeek_audio. exact Ha1. }
  destruct Hw2 as (Hin2 & Hcommitted & Hrefused).
  assert (Hsl2 : seekSlider w2 <> None).
  { unfold w2, dispatch. rewrite onSeekChange_seekSlider, Hsl1'. discriminate. }
  (* the timer of the drag *)
  destruct Htr2 as (_ & Hnd2 & _ & Hseek2 & _).
  assert (Hfire : w3 = seekPreview (clearTimeout (Some n) w2)).
  { rewrite E3. unfold onTimer.
    rewrite (find_unique _ n SeekPreview Hnd2 Hin2). reflexivity. }
  pose proof (Hseek2 _ Hin2) as Hq2.
  destruct (seekSlider w2) as [sl2|] eqn:Esl2; [|congruence].
  destruct (seekPreview_isSeeking (clearTimeout (Some n) w2) sl2 Esl2)
    as [Hseeking3 Haud3].
  rewrite <- Hfire in Hseeking3, Haud3.
  split; [exact Hseeking3|].
  split; [intros Hf; rewrite Haud3; exact (Hcommitted Hf)|].
  split; [intros Hf; rewrite Haud3; exact (Hrefused Hf)|].
  split.
  - unfold pending.
    assert (Ht3 : timers w3 = cleared (Some n) (timers w2)).
    { rewrite Hfire.
      pose proof (seekPreview_timerView (clearTimeout (Some n) w2)) as Hv.
      apply (f_equal (fun v => fst (fst (fst v)))) in Hv.
      unfold timerView in Hv. cbn [fst] in Hv. rewrite Hv. reflexivity. }
    rewrite Ht3.
    destruct (filter _ (cleared (Some n) (timers w2)))
      as [|[j k] rest] eqn:Ef; [reflexivity|].
    exfalso.
    assert (Hin : In (j, k)
                    (filter (fun t => Task_eqb (snd t) SeekPreview)
                       (cleared (Some n) (timers w2))))
      by (rewrite Ef; left; reflexivity).
    apply filter_In in Hin. destruct Hin as [Hin Hk].
    cbn in Hk. apply Task_eqb_eq in Hk. subst k.
    apply In_cleared in Hin. destruct Hin as [Hin Hne].
    apply Hseek2 in Hin. cbn in Hne. congruence.
  - intros audio. unfold dispatch, updateProgress. getset.
    rewrite Hseeking3.
    reflexivity.
Qed.

Lemma release_before_preview_freezes_progress_witness :
  seekSlider initialWorld = Some (mkSeekSlider (Fin 0) false (Fin 200)) /\
  timersTracked initialWorld /\
  JS.isFinite
    (JS.mul (JS.div (Fin 50) (Fin 100))
       (JS.or (Audio.duration (audioElement initialWorld)) (Fin 0))) = true /\
  State.isSeeking
    (state (run [SeekInput (Fin 50); SeekChange (Fin 50); TimerFires 1]
              initialWorld)) = true /\
  JS.seq
    (Audio.currentTime
       (audioElement
          (run [SeekInput (Fin 50); SeekChange (Fin 50); TimerFires 1]
             initialWorld)))
    (Fin 100) = true.
Proof.
  split; [reflexivity|]. split; [exact initialWorld_timersTracked|].
  split; [reflexivity|].
  destruct (release_before_preview_freezes_progress (Fin 50) initialWorld _
              eq_refl initialWorld_timersTracked) as (Hs & Hc & _).
  split; [exact Hs|].
  assert (E : Audio.currentTime
                (audioElement
                   (run [SeekInput (Fin 50); SeekChange (Fin 50); TimerFires 1]
                      initialWorld)) =
              JS.mul (JS.div (Fin 50) (Fin 100))
                (JS.or (Audio.duration (audioElement initialWorld)) (Fin 0)))
    by exact (Hc eq_refl).
  rewrite E. reflexivity.
Defined.

(** ** Playback requests from outside and from the keyboard *)

(** X10.  [window.audioPlayer.play] hands the promise of [play()] to the
    caller and chains nothing on it: an exception of [play()] reaches the
    caller, the display is not refreshed, and when the promise is rejected
    later the widget shows no toast and logs nothing, unlike
    [togglePlayPause].  Whether the rejection is handled is the caller's
    affair: it is reported as uncaught exactly when the caller chained no
    handler either. *)
Theorem external_play_is_unguarded (reply : PlayReply) (callerCatches : bool)
    (err : string) (w : World) :
  (forall e, audioPlayer.play (PlayThrows e) callerCatches w = Throw e w) /\
  ((forall e, reply <> PlayThrows e) ->
   exists w1,
     audioPlayer.play reply callerCatches w = Normal w1 /\
     display w1 = display w /\
     playPromises w1 =
       (playPromises w ++ [CallersReaction callerCatches])%list /\
     let w2 := onPlaySettled (List.length (playPromises w)) (Rejected err) w1 in
     uncaught w2 =
       (if callerCatches then uncaught w else uncaught w ++ [err])%list /\
     playPromises w2 = playPromises w /\
     feedbackText w2 = feedbackText w /\ feedbackEl w2 = feedbackEl w /\
     timers w2 = timers w /\ console w2 = console w).
Proof.
  split; [reflexivity|].
  intros Hreply. unfold audioPlayer.play, play.
  destruct reply as [| |e]; [| |destruct (Hreply e); reflexivity];
    eexists; (split; [reflexivity|]); (split; [reflexivity|]);
    (split; [reflexivity|]); cbv zeta; unfold onPlaySettled; getset;
    rewrite nth_error_snoc, remove_snoc; cbv beta iota zeta;
    destruct callerCatches; getset; repeat split; reflexivity.
Qed.

Lemma external_play_is_unguarded_witness :
  exists w1,
    audioPlayer.play PlayStaysPaused false initialWorld = Normal w1 /\
    uncaught (onPlaySettled 0 (Rejected "NotAllowedError") w1)
    = ["NotAllowedError"] /\
    feedbackText (onPlaySettled 0 (Rejected "NotAllowedError") w1)
    = Some "".
Proof.
  destruct (external_play_is_unguarded PlayStaysPaused false "NotAllowedError"
              initialWorld) as [_ H].
  destruct H as (w1 & Hw1 & _ & _ & Hu & _ & Hf & _); [discriminate|].
  exists w1. split; [exact Hw1|]. split; [exact Hu|exact Hf].
Defined.

Lemma onKeyDown_space (reply : PlayReply) (w : World) :
  onKeyDown reply true (mkKeyboardEvent " " false) w =
  bind (togglePlayPause reply w)
    (fun w1 =>
       Normal (showFeedback
                 (if Audio.paused (audioElement w1) then "Paused" else "Playing")
                 info w1)).
Proof. reflexivity. Qed.

Lemma togglePlayPause_audio (reply : PlayReply) (w : World) :
  exists w1,
    togglePlayPause reply w = Normal w1 /\
    feedbackEl w1 = feedbackEl w /\ feedbackText w1 = feedbackText w /\
    Audio.paused (audioElement w1) =
      match Audio.paused (audioElement w), reply with
      | true, PlayStarts => false
      | _, _ => true
      end.
Proof.
  unfold togglePlayPause.
  destruct (Audio.paused (audioElement w)) eqn:Ep.
  - destruct reply; unfold play, bind, tryCatch; eexists;
      (split; [reflexivity|]); unfold console_error;
      autorewrite with frame; getset; rewrite ?Ep; repeat split; reflexivity.
  - unfold bind, tryCatch, pause. eexists. split; [reflexivity|].
    autorewrite with frame. getset. repeat split; reflexivity.
Qed.

(** X11.  The toast of the space bar tells the state playback ended up in,
    not the one that was asked for: on a page with the feedback elements it
    reads "Paused" exactly when the media element is paused after the
    toggle.  From a paused element that is "Playing" only if the browser
    started playback; from a playing element it is always "Paused". *)
Theorem space_toast_tells_resulting_state (reply : PlayReply) (w : World)
    (el : FeedbackEl) (text : string) :
  feedbackEl w = Some el -> feedbackText w = Some text ->
  exists w',
    onKeyDown reply true (mkKeyboardEvent " " false) w = Normal w' /\
    feedbackText w' =
      Some (if Audio.paused (audioElement w') then "Paused" else "Playing") /\
    Audio.paused (audioElement w') =
      match Audio.paused (audioElement w), reply with
      | true, PlayStarts => false
      | _, _ => true
      end.
Proof.
  intros Hel Htext. rewrite onKeyDown_space.
  destruct (togglePlayPause_audio reply w) as (w1 & -> & He1 & Ht1 & Hp1).
  rewrite bind_Normal. eexists. split; [reflexivity|].
  rewrite showFeedback_audioElement.
  match goal with
  | |- context [showFeedback ?m ?t ?x] =>
      destruct (showFeedback_shown m t x el text) as [Ht _]
  end; [congruence|congruence|].
  split; [exact Ht|exact Hp1].
Qed.

Lemma space_toast_tells_resulting_state_witness :
  feedbackEl initialWorld = Some (mkFeedbackEl "" "0" None) /\
  feedbackText initialWorld = Some "" /\
  exists w',
    onKeyDown PlayStaysPaused true (mkKeyboardEvent " " false) initialWorld
      = Normal w' /\
    feedbackText w' = Some "Paused".
Proof.
  split; [reflexivity|]. split; [reflexivity|].
  destruct (space_toast_tells_resulting_state PlayStaysPaused initialWorld
              _ _ eq_refl eq_refl) as (w' & Hw' & Ht & Hp).
  exists w'. split; [exact Hw'|]. rewrite Ht, Hp. reflexivity.
Defined.

(** ** The mute button from a muted state *)

Lemma restore_volume_audible (v : number) :
  JS.lt v (Fin 0) = false ->
  let r := JS.or v (Fin 0.5) in
  JS.seq (clamp01 r) (Fin 0) = false /\
  JS.le (clamp01 r) (Fin 1) = true /\
  (JS.truthy v = false -> clamp01 r = Fin 0.5) /\
  (JS.truthy v = true -> JS.le v (Fin 1) = true -> JS.seq (clamp01 r) v = true).
Proof.
  unfold JS.or, JS.truthy, JS.lt.
  destruct v as [| |q|]; intros H; try discriminate; cbv zeta.
  - repeat split; try reflexivity; discriminate.
  - destruct (Qeq_bool q 0) eqn:E; cbv beta iota delta [negb].
    + repeat split; try reflexivity; discriminate.
    + rewrite clamp01_Fin. unfold JS.seq, JS.le.
      qsplit; repeat split; intros; qsolve.
  - repeat split; try reflexivity; discriminate.
Qed.

Lemma onVolumeBtnClick_muted (w : World) :
  volumeBtn w <> None -> State.isMuted (state w) = true ->
  let c := clamp01 (JS.or (State.lastVolume (state w)) (Fin 0.5)) in
  audioElement (onVolumeBtnClick w) =
    Audio.set_muted (JS.seq c (Fin 0)) (Audio.set_volume c (audioElement w)) /\
  state (onVolumeBtnClick w) =
    State.set_isMuted (negb (JS.seq c (Fin 0)))
      (State.set_volume c (state w)) /\
  volumeBtn (onVolumeBtnClick w) <> None.
Proof.
  intros Hbtn Hm c. unfold onVolumeBtnClick.
  destruct (volumeBtn w) eqn:Eb; [clear Hbtn|congruence].
  rewrite Hm. cbv zeta. getset.
  rewrite updateVolume_state, updateVolume_audio. fold c.
  split; [reflexivity|]. split.
  - destruct (state w); reflexivity.
  - rewrite updateVolume_volumeBtn. congruence.
Qed.

(** X12.  The mute button when [state.isMuted] is set, on a page with the
    button and for a remembered volume that is not negative: a click
    writes the remembered volume (0.5 when it is 0 or [NaN]) clamped to
    [0,1], which is never 0, and unmutes the element, but leaves
    [state.isMuted] set and the remembered volume as it was; hence every
    further click does the same and the button never mutes again. *)
Theorem unmute_restores_but_stays_flagged (w : World) :
  volumeBtn w <> None ->
  State.isMuted (state w) = true ->
  JS.lt (State.lastVolume (state w)) (Fin 0) = false ->
  let w1 := onVolumeBtnClick w in
  let x := Audio.volume (audioElement w1) in
  x = clamp01 (JS.or (State.lastVolume (state w)) (Fin 0.5)) /\
  JS.seq x (Fin 0) = false /\ JS.le x (Fin 1) = true /\
  (JS.truthy (State.lastVolume (state w)) = false -> x = Fin 0.5) /\
  (JS.truthy (State.lastVolume (state w)) = true ->
   JS.le (State.lastVolume (state w)) (Fin 1) = true ->
   JS.seq x (State.lastVolume (state w)) = true) /\
  Audio.muted (audioElement w1) = false /\
  State.isMuted (state w1) = true /\
  State.lastVolume (state w1) = State.lastVolume (state w) /\
  audioElement (onVolumeBtnClick w1) = audioElement w1 /\
  state (onVolumeBtnClick w1) = state w1.
Proof.
  intros Hbtn Hm Hneg w1 x.
  destruct (onVolumeBtnClick_muted w Hbtn Hm) as (Ha & Hs & Hb).
  cbv zeta in Ha, Hs. fold w1 in Ha, Hs, Hb.
  destruct (restore_volume_audible _ Hneg) as (Hnz & Hle & Hdef & Hsame).
  cbv zeta in Hnz, Hle, Hdef, Hsame.
  set (c := clamp01 (JS.or (State.lastVolume (state w)) (Fin 0.5))) in *.
  rewrite Hnz in Ha, Hs.
  assert (Ex : x = c) by (subst x; rewrite Ha; reflexivity).
  assert (Hm1 : State.isMuted (state w1) = true) by (rewrite Hs; reflexivity).
  assert (Hl1 : State.lastVolume (state w1) = State.lastVolume (state w))
    by (rewrite Hs; reflexivity).
  destruct (onVolumeBtnClick_muted w1 Hb Hm1) as (Ha2 & Hs2 & _).
  cbv zeta in Ha2, Hs2. rewrite Hl1 in Ha2, Hs2. fold c in Ha2, Hs2.
  rewrite Hnz in Ha2, Hs2.
  rewrite Ex.
  split; [reflexivity|]. split; [exact Hnz|]. split; [exact Hle|].
  split; [exact Hdef|]. split; [exact Hsame|].
  split; [rewrite Ha; reflexivity|]. split; [exact Hm1|]. split; [exact Hl1|].
  split.
  - rewrite Ha2, Ha. reflexivity.
  - rewrite Hs2, Hs. reflexivity.
Qed.

Lemma unmute_restores_but_stays_flagged_witness :
  let w := dispatch (VolumeInput (Fin 0)) initialWorld in
  volumeBtn w <> None /\ State.isMuted (state w) = true /\
  JS.lt (State.lastVolume (state w)) (Fin 0) = false /\
  Audio.volume (audioElement (onVolumeBtnClick w)) = Fin 0.5 /\
  State.isMuted (state (onVolumeBtnClick w)) = true.
Proof.
  intros w.
  assert (Hb : volumeBtn w <> None) by discriminate.
  assert (Hm : State.isMuted (state w) = true) by reflexivity.
  assert (Hn : JS.lt (State.lastVolume (state w)) (Fin 0) = false)
    by reflexivity.
  split; [exact Hb|]. split; [exact Hm|]. split; [exact Hn|].
  destruct (unmute_restores_but_stays_flagged w Hb Hm Hn)
    as (Hx & _ & _ & _ & _ & _ & Hflag & _).
  split; [rewrite Hx; reflexivity|exact Hflag].
Defined.

(** ** Clicking a speed option *)

Lemma supported_speed_flags (i : nat) (r : number) :
  nth_error SUPPORTED_SPEEDS i = Some r ->
  includes SUPPORTED_SPEEDS r = true /\
  map (fun s => JS.seq s r) SUPPORTED_SPEEDS =
  map (fun j => Nat.eqb j i) (List.seq 0 7).
Proof.
  intros H.
  do 7 (destruct i as [|i]; [injection H as <-; split; reflexivity|]).
  destruct i; discriminate.
Qed.

Lemma nth_error_map_Some {A B : Type} (f : A -> B) (l : list A) (i : nat)
    (b : B) :
  nth_error (map f l) i = Some b ->
  exists a, nth_error l i = Some a /\ f a = b.
Proof.
  revert i. induction l as [|a l IH]; intros [|i] H; try discriminate.
  - injection H as <-. exists a. split; reflexivity.
  - apply IH. exact H.
Qed.

Lemma setPlaybackSpeed_speedMenu (r : number) (w : World) (m : Icon) :
  includes SUPPORTED_SPEEDS r = true -> speedMenu w = Some m ->
  speedMenu (setPlaybackSpeed r w) = Some (mkIcon true) /\
  option_map sb_ariaExpanded (speedButton (setPlaybackSpeed r w)) =
    option_map (fun _ => false) (speedButton w).
Proof.
  intros H Hm. unfold setPlaybackSpeed. rewrite H.
  cbv beta iota zeta delta [negb].
  destruct (speedButton w) as [b|] eqn:Eb;
    repeat first [ progress (frame; rewrite ?Eb, ?Hm; cbv beta iota)
                 | break_match ];
    split; reflexivity.
Qed.

Lemma setPlaybackSpeed_toast (r : number) (w : World) (el : FeedbackEl)
    (text : string) :
  includes SUPPORTED_SPEEDS r = true ->
  feedbackEl w = Some el -> feedbackText w = Some text ->
  feedbackText (setPlaybackSpeed r w) = Some ("Speed: " ++ JS.toString r ++ "x").
Proof.
  intros H Hel Htext. unfold setPlaybackSpeed. rewrite H.
  cbv beta iota zeta delta [negb].
  match goal with
  | |- context [showFeedback ?m ?t ?x] =>
      destruct (showFeedback_shown m t x el text) as [Ht _];
        [getset; destruct (speedButton w); getset; assumption ..|];
      revert Ht; generalize (showFeedback m t x)
  end.
  intros w5 Ht. repeat (break_match; getset); exact Ht.
Qed.

(** X13.  A click on the [i]-th speed option of the control built by
    [createSpeedControl] selects the [i]-th supported speed: the playback
    rate of the element and of the state is that speed, the [i]-th option
    and no other is checked and highlighted, the menu is closed with
    [aria-expanded] false, and the toast reads "Speed: {r}x".  A click
    that lands on no option and outside the speed control selects
    nothing: it leaves the element, the state, the options and the toast
    alone and only closes the menu. *)
Theorem speed_option_click_selects (i : nat) (r : number) (w : World) :
  speedOptionsCreated w ->
  nth_error SUPPORTED_SPEEDS i = Some r ->
  (let w' := onDocumentClick (OnSpeedOption i) w in
   Audio.playbackRate (audioElement w') = r /\
   State.playbackRate (state w') = r /\
   map opt_ariaChecked (speedOptions w') =
     map (fun j => Nat.eqb j i) (List.seq 0 7) /\
   map opt_bgGreen (speedOptions w') = map opt_ariaChecked (speedOptions w') /\
   map opt_textGreen (speedOptions w') = map opt_ariaChecked (speedOptions w') /\
   (forall m, speedMenu w = Some m ->
      speedMenu w' = Some (mkIcon true) /\
      option_map sb_ariaExpanded (speedButton w') =
        option_map (fun _ => false) (speedButton w)) /\
   (forall el text, feedbackEl w = Some el -> feedbackText w = Some text ->
      feedbackText w' = Some ("Speed: " ++ JS.toString r ++ "x"))) /\
  (let c := onDocumentClick Elsewhere w in
   audioElement c = audioElement w /\ state c = state w /\
   speedOptions c = speedOptions w /\
   feedbackText c = feedbackText w /\ feedbackEl c = feedbackEl w /\
   (forall m, speedMenu w = Some m ->
      speedMenu c = Some (mkIcon true) /\
      option_map sb_ariaExpanded (speedButton c) =
        option_map (fun _ => false) (speedButton w)) /\
   (speedMenu w = None -> c = w)).
Proof.
  intros Hcreated Hr. split.
  - cbv zeta. unfold onDocumentClick.
    unfold speedOptionsCreated in Hcreated.
    change (map dataSpeed (sc_options createSpeedControl))
      with (map Some SUPPORTED_SPEEDS) in Hcreated.
    assert (Hd : nth_error (map dataSpeed (speedOptions w)) i = Some (Some r))
      by (rewrite Hcreated; apply map_nth_error; exact Hr).
    apply nth_error_map_Some in Hd. destruct Hd as (o & Ho & Hdo).
    rewrite Ho, Hdo. unfold JS.parseFloat.
    destruct (supported_speed_flags i r Hr) as [Hinc Hflags].
    rewrite (setPlaybackSpeed_audio r w Hinc), (setPlaybackSpeed_state r w Hinc),
      (setPlaybackSpeed_speedOptions r w Hinc).
    split; [reflexivity|]. split; [reflexivity|].
    rewrite !map_map. cbv zeta.
    cbn [opt_ariaChecked opt_bgGreen opt_textGreen set_opt_ariaChecked
         set_opt_textGreen set_opt_bgGreen].
    split; [|split; [reflexivity|split; [reflexivity|split]]].
    + rewrite <- Hflags, <- (map_map Some (fun d => JS.seq
        (match d with Some s => s | None => Fin 1 end) r)), <- Hcreated,
        map_map. reflexivity.
    + intros m Hm. apply (setPlaybackSpeed_speedMenu r w m Hinc Hm).
    + intros el text Hel Htext.
      apply (setPlaybackSpeed_toast r w el text Hinc Hel Htext).
  - cbv zeta. unfold onDocumentClick.
    destruct (speedMenu w) as [m0|] eqn:Hm.
    + cbv zeta. getset.
      destruct (speedButton w) as [b0|] eqn:Hb; getset; rewrite ?Hb; getset;
        (repeat (split; [reflexivity|])); split;
        [ intros m _; split; reflexivity | discriminate
        | intros m _; split; reflexivity | discriminate ].
    + repeat (split; [reflexivity|]). split; [discriminate|reflexivity].
Qed.

Lemma speed_option_click_selects_witness :
  speedOptionsCreated initialWorld /\
  nth_error SUPPORTED_SPEEDS 4 = Some (Fin 1.5) /\
  Audio.playbackRate
    (audioElement (onDocumentClick (OnSpeedOption 4) initialWorld)) = Fin 1.5 /\
  speedMenu
    (onDocumentClick Elsewhere (dispatch SpeedButtonClick initialWorld))
  = Some (mkIcon true).
Proof.
  split; [reflexivity|]. split; [reflexivity|].
  destruct (speed_option_click_selects 4 (Fin 1.5) initialWorld
              eq_refl eq_refl) as [H _].
  assert (Hc : speedOptionsCreated (dispatch SpeedButtonClick initialWorld))
    by reflexivity.
  destruct (speed_option_click_selects 4 (Fin 1.5)
              (dispatch SpeedButtonClick initialWorld) Hc eq_refl)
    as [_ (_ & _ & _ & _ & _ & Hmenu & _)].
  split; [apply H|].
  apply (Hmenu (mkIcon false)). reflexivity.
Defined.

(** ** The speed menu *)

Lemma menuConsistent_view (w w' : World) :
  menuView w' = menuView w -> menuConsistent w -> menuConsistent w'.
Proof. unfold menuConsistent. intros E H. rewrite E. exact H. Qed.

Ltac menu_frame := unfold menuView; crush_matches; reflexivity.

Lemma updatePlayPauseIcon_menuView (w : World) :
  menuView (updatePlayPauseIcon w) = menuView w.
Proof. unfold updatePlayPauseIcon. menu_frame. Qed.

Lemma updateProgress_menuView (w : World) :
  menuView (updateProgress w) = menuView w.
Proof. unfold updateProgress. menu_frame. Qed.

Lemma updateDuration_menuView (w : World) :
  menuView (updateDuration w) = menuView w.
Proof. unfold updateDuration. menu_frame. Qed.

Lemma showFeedback_menuView (m : string) (t : FeedbackType) (w : World) :
  menuView (showFeedback m t w) = menuView w.
Proof. unfold menuView. autorewrite with frame. reflexivity. Qed.

Lemma onCanPlay_menuView (w : World) : menuView (onCanPlay w) = menuView w.
Proof. unfold onCanPlay. menu_frame. Qed.

Lemma updateVolume_menuView (v : number) (w : World) :
  menuView (updateVolume v w) = menuView w.
Proof. unfold updateVolume, updateVolumeSliderBackground. menu_frame. Qed.

Lemma onSeekInput_menuView (w : World) :
  menuView (onSeekInput w) = menuView w.
Proof. unfold onSeekInput, clearTimeout, setTimeout. menu_frame. Qed.

Lemma userSetsSeek_menuView (v : number) (w : World) :
  menuView (userSetsSeek v w) = menuView w.
Proof. unfold userSetsSeek. menu_frame. Qed.

Lemma userSetsVolume_menuView (v : number) (w : World) :
  menuView (userSetsVolume v w) = menuView w.
Proof. unfold userSetsVolume. menu_frame. Qed.

Lemma onTimer_menuView (id : nat) (w : World) :
  menuView (onTimer id w) = menuView w.
Proof.
  unfold onTimer. destruct (find _ (timers w)) as [[i task]|]; [|reflexivity].
  destruct task; unfold runTask, seekPreview, clearTimeout; menu_frame.
Qed.

Lemma menuConsistent_closed (w : World) (m : Icon) :
  speedMenu w = Some m ->
  menuConsistent
    (match speedButton (set_speedMenu (Some (mkIcon true)) w) with
     | Some b =>
         set_speedButton (Some (set_sb_ariaExpanded false b))
           (set_speedMenu (Some (mkIcon true)) w)
     | None => set_speedMenu (Some (mkIcon true)) w
     end).
Proof.
  intros Hm. unfold menuConsistent, menuView. getset.
  destruct (speedButton w) as [b|] eqn:Eb; getset; rewrite ?Hm, ?Eb;
    cbn [option_map sb_ariaExpanded set_sb_ariaExpanded];
    intros expanded m' E;
    [injection E as <- <-; reflexivity|discriminate].
Qed.

Lemma menuConsistent_setPlaybackSpeed (r : number) (w : World) :
  menuConsistent w -> menuConsistent (setPlaybackSpeed r w).
Proof.
  intros H. unfold setPlaybackSpeed.
  destruct (includes SUPPORTED_SPEEDS r); [|exact H].
  cbv beta iota zeta delta [negb].
  match goal with
  | |- context [showFeedback ?m ?t ?x] =>
      assert (H5 : menuConsistent (showFeedback m t x));
        [eapply menuConsistent_view; [apply showFeedback_menuView|];
         eapply menuConsistent_view; [|exact H];
         unfold menuView; getset;
         destruct (speedButton w) eqn:Eb; getset; rewrite ?Eb; reflexivity|];
      revert H5; generalize (showFeedback m t x)
  end.
  intros w5 H5. destruct (speedMenu w5) as [m|] eqn:Em; [|exact H5].
  apply (menuConsistent_closed w5 m Em).
Qed.

Lemma menuConsistent_clickElsewhere (w : World) :
  menuConsistent w -> menuConsistent (onDocumentClick Elsewhere w).
Proof.
  intros H. unfold onDocumentClick.
  destruct (speedMenu w) as [m|] eqn:Em; [|exact H].
  apply (menuConsistent_closed w m Em).
Qed.

Lemma menuConsistent_onSpeedButtonClick (w : World) :
  menuConsistent w -> menuConsistent (onSpeedButtonClick w).
Proof.
  intros H. unfold onSpeedButtonClick.
  destruct (speedButton w) as [b|]; [|exact H].
  destruct (speedMenu w) as [m|]; [|exact H].
  unfold menuConsistent, menuView. getset.
  cbn [option_map sb_ariaExpanded set_sb_ariaExpanded].
  intros expanded m' E. injection E as <- <-.
  cbn [hidden]. rewrite negb_involutive. reflexivity.
Qed.

(** X14.  [aria-expanded] of the speed button always tells whether the
    speed menu is shown: if it does before a sequence of events, it does
    after it, whatever the events are; the control built by
    [createSpeedControl] starts that way (menu hidden, not expanded). *)
Theorem speed_menu_aria_follows_visibility (evs : list Event) (w : World) :
  menuConsistent w ->
  menuConsistent (run evs w) /\
  menuConsistent (insertSpeedControl true w).
Proof.
  intros H. split.
  - apply (invariant_run menuConsistent); try exact H;
      try (intros; eapply menuConsistent_view; [|eassumption];
           first [ reflexivity
                 | apply updatePlayPauseIcon_menuView
                 | apply updateProgress_menuView
                 | apply updateDuration_menuView
                 | apply showFeedback_menuView
                 | apply onCanPlay_menuView
                 | apply updateVolume_menuView
                 | apply onSeekInput_menuView
                 | apply userSetsSeek_menuView
                 | apply userSetsVolume_menuView
                 | apply onTimer_menuView ]; fail).
    + apply play_preserves; intros; eapply menuConsistent_view;
        try eassumption; reflexivity.
    + apply onPlaySettled_preserves; intros;
        eapply menuConsistent_view; try eassumption;
        first [reflexivity | apply showFeedback_menuView].
    + intros; apply menuConsistent_setPlaybackSpeed; assumption.
    + intros; apply menuConsistent_onSpeedButtonClick; assumption.
    + intros; apply menuConsistent_clickElsewhere; assumption.
  - unfold menuConsistent, menuView, insertSpeedControl. getset.
    cbn. intros expanded m E. injection E as <- <-. reflexivity.
Qed.

Lemma speed_menu_aria_follows_visibility_witness :
  menuConsistent initialWorld /\
  menuConsistent
    (run [SpeedButtonClick; KeyDown PlayStarts true (mkKeyboardEvent "l" false);
          SpeedButtonClick; DocumentClick (OnSpeedOption 2)] initialWorld) /\
  option_map sb_ariaExpanded (speedButton (dispatch SpeedButtonClick initialWorld))
    = Some true.
Proof.
  assert (H0 : menuConsistent initialWorld).
  { intros expanded m E. injection E as <- <-. reflexivity. }
  split; [exact H0|]. split; [|reflexivity].
  apply (proj1 (speed_menu_aria_follows_visibility
                  [SpeedButtonClick;
                   KeyDown PlayStarts true (mkKeyboardEvent "l" false);
                   SpeedButtonClick; DocumentClick (OnSpeedOption 2)]
                  initialWorld H0)).
Defined.

(** ** Formatting a time *)

Lemma Qfloor_unique (y : Q) (z : Z) :
  inject_Z z <= y -> y < inject_Z (z + 1) -> Qfloor y = z.
Proof.
  intros Hlo Hhi.
  pose proof (Qfloor_le y) as H1. pose proof (Qlt_floor y) as H2.
  assert (Ha : (Qfloor y < z + 1)%Z).
  { rewrite Zlt_Qlt. eapply Qle_lt_trans; eassumption. }
  assert (Hb : (z < Qfloor y + 1)%Z).
  { rewrite Zlt_Qlt. eapply Qle_lt_trans; eassumption. }
  lia.
Qed.

Lemma Qtrunc_nonneg (y : Q) : 0 <= y -> JS.Qtrunc y = Qfloor y.
Proof.
  intros H. destruct y as [n d]. unfold JS.Qtrunc, Qfloor. cbn [Qnum Qden].
  apply Z.quot_div_nonneg; [|lia]. unfold Qle in H. cbn in H. lia.
Qed.

(** A whole number below 1e21 is printed with all its digits. *)
Lemma toString_nat (n : nat) :
  (Z.of_nat n < 1000000000000000000000)%Z ->
  JS.toString (Fin (inject_Z (Z.of_nat n))) =
  NilZero.string_of_int (Z.to_int (Z.of_nat n)).
Proof.
  intros Hn.
  assert (H0 : 0 <= inject_Z (Z.of_nat n))
    by (change 0 with (inject_Z 0); rewrite <- Zle_Qle; lia).
  assert (Hp : JS.plainNotation (inject_Z (Z.of_nat n)) = true).
  { apply plainNotation_nonneg; [exact H0|].
    destruct n as [|n]; [left; reflexivity|right]. split.
    - apply Qle_trans with (y := 1); [discriminate|].
      change 1 with (inject_Z 1). rewrite <- Zle_Qle. lia.
    - change (1000000000000000000000 # 1)
        with (inject_Z 1000000000000000000000).
      rewrite <- Zlt_Qlt. exact Hn. }
  unfold JS.toString. rewrite Hp. unfold inject_Z. cbn [Qnum Qden].
  rewrite Z.quot_1_r, Z.rem_1_r. reflexivity.
Qed.

Lemma time_split (m s : nat) (q : Q) :
  (s < 60)%nat -> 0 <= q -> q < 1 ->
  let x := inject_Z (Z.of_nat (60 * m + s)) + q in
  0 <= x /\
  Qfloor (x / 60) = Z.of_nat m /\
  Qfloor (x - 60 * inject_Z (JS.Qtrunc (x / 60))) = Z.of_nat s.
Proof.
  intros Hs H0 H1 x.
  assert (Hm : 0 <= inject_Z (Z.of_nat m))
    by (change 0 with (inject_Z 0); rewrite <- Zle_Qle; lia).
  assert (Hs0 : 0 <= inject_Z (Z.of_nat s))
    by (change 0 with (inject_Z 0); rewrite <- Zle_Qle; lia).
  assert (Hs59 : inject_Z (Z.of_nat s) <= 59)
    by (change 59 with (inject_Z 59); rewrite <- Zle_Qle; lia).
  assert (Ex : x == 60 * inject_Z (Z.of_nat m) + inject_Z (Z.of_nat s) + q).
  { subst x. rewrite Nat2Z.inj_add, Nat2Z.inj_mul, inject_Z_plus,
      inject_Z_mult. reflexivity. }
  assert (Hx0 : 0 <= x) by lra.
  assert (Hdiv : Qfloor (x / 60) = Z.of_nat m).
  { apply Qfloor_unique.
    - apply Qle_shift_div_l; [reflexivity|]. lra.
    - rewrite inject_Z_plus. apply Qlt_shift_div_r; [reflexivity|].
      change (inject_Z 1) with 1. lra. }
  split; [exact Hx0|]. split; [exact Hdiv|].
  rewrite Qtrunc_nonneg, Hdiv.
  - apply Qfloor_unique.
    + lra.
    + rewrite inject_Z_plus. change (inject_Z 1) with 1. lra.
  - apply Qle_shift_div_l; [reflexivity|]. lra.
Qed.

(** X15.  [formatTime] prints whole minutes and whole seconds, each padded
    to two digits: a time of [m] minutes, [s < 60] seconds and a fraction
    of a second, below 2^53 seconds in all (up to there a number holds
    every whole second), reads "mm:ss", the fraction being dropped and
    minutes above 99 printed in full.  [NaN] and every negative time, the
    negative infinity included, read "00:00". *)
Theorem formatTime_minutes_seconds (m s : nat) (q : Q) :
  (s < 60)%nat -> 0 <= q -> q < 1 ->
  (Z.of_nat (60 * m + s) < 2 ^ 53)%Z ->
  formatTime (Fin (inject_Z (Z.of_nat (60 * m + s)) + q)) =
    twoDigits m ++ ":" ++ twoDigits s /\
  formatTime NaN = "00:00" /\
  (forall x, JS.lt x (Fin 0) = true -> formatTime x = "00:00").
Proof.
  intros Hs H0 H1 Hb. change (2 ^ 53)%Z with 9007199254740992%Z in Hb.
  split; [|split].
  - destruct (time_split m s q Hs H0 H1) as (Hx0 & Hmin & Hsec).
    cbv zeta in Hx0, Hmin, Hsec.
    set (x := inject_Z (Z.of_nat (60 * m + s)) + q) in *.
    unfold formatTime.
    assert (Hguard : JS.isNaN (Fin x) || JS.lt (Fin x) (Fin 0) = false).
    { unfold JS.isNaN, JS.lt. cbn [orb]. qsolve. }
    rewrite Hguard. cbv zeta.
    assert (Hd : JS.div (Fin x) (Fin 60) = Fin (x / 60)) by reflexivity.
    assert (Hr : JS.rem (Fin x) (Fin 60) =
                 Fin (x - 60 * inject_Z (JS.Qtrunc (x / 60)))) by reflexivity.
    rewrite Hd, Hr. unfold JS.floor. rewrite Hmin, Hsec.
    rewrite !toString_nat by lia.
    reflexivity.
  - reflexivity.
  - intros x Hx. unfold formatTime. rewrite Hx, orb_true_r. reflexivity.
Qed.

Lemma formatTime_minutes_seconds_witness :
  (40 < 60)%nat /\ 0 <= 0.5 /\ 0.5 < 1 /\
  (Z.of_nat (60 * 1 + 40) < 2 ^ 53)%Z /\
  formatTime (Fin (inject_Z (Z.of_nat (60 * 1 + 40)) + 0.5)) = "01:40".
Proof.
  assert (Hs : (40 < 60)%nat) by lia.
  assert (H0 : 0 <= 0.5) by discriminate.
  assert (H1 : 0.5 < 1) by reflexivity.
  assert (Hb : (Z.of_nat (60 * 1 + 40) < 2 ^ 53)%Z) by reflexivity.
  split; [exact Hs|]. split; [exact H0|]. split; [exact H1|].
  split; [exact Hb|].
  apply (formatTime_minutes_seconds 1 40 0.5 Hs H0 H1 Hb).
Defined.

(** ** Rejections and exceptions *)

Ltac promise_frame := unfold promiseView; crush_matches; reflexivity.

Lemma updatePlayPauseIcon_promiseView (w : World) :
  promiseView (updatePlayPauseIcon w) = promiseView w.
Proof. unfold updatePlayPauseIcon. promise_frame. Qed.

Lemma updateProgress_promiseView (w : World) :
  promiseView (updateProgress w) = promiseView w.
Proof. unfold updateProgress. promise_frame. Qed.

Lemma updateDuration_promiseView (w : World) :
  promiseView (updateDuration w) = promiseView w.
Proof. unfold updateDuration. promise_frame. Qed.

Lemma showFeedback_promiseView (m : string) (t : FeedbackType) (w : World) :
  promiseView (showFeedback m t w) = promiseView w.
Proof. unfold promiseView. autorewrite with frame. reflexivity. Qed.

Lemma onCanPlay_promiseView (w : World) :
  promiseView (onCanPlay w) = promiseView w.
Proof. unfold onCanPlay. promise_frame. Qed.

Lemma updateVolume_promiseView (v : number) (w : World) :
  promiseView (updateVolume v w) = promiseView w.
Proof. unfold updateVolume, updateVolumeSliderBackground. promise_frame. Qed.

Lemma setPlaybackSpeed_promiseView (r : number) (w : World) :
  promiseView (setPlaybackSpeed r w) = promiseView w.
Proof.
  unfold setPlaybackSpeed, promiseView.
  destruct (includes SUPPORTED_SPEEDS r); [|reflexivity].
  cbv beta iota zeta delta [negb].
  repeat (break_match; frame); reflexivity.
Qed.

Lemma onSeekInput_promiseView (w : World) :
  promiseView (onSeekInput w) = promiseView w.
Proof. unfold onSeekInput, clearTimeout, setTimeout. promise_frame. Qed.

Lemma userSetsSeek_promiseView (v : number) (w : World) :
  promiseView (userSetsSeek v w) = promiseView w.
Proof. unfold userSetsSeek. promise_frame. Qed.

Lemma userSetsVolume_promiseView (v : number) (w : World) :
  promiseView (userSetsVolume v w) = promiseView w.
Proof. unfold userSetsVolume. promise_frame. Qed.

Lemma onSpeedButtonClick_promiseView (w : World) :
  promiseView (onSpeedButtonClick w) = promiseView w.
Proof. unfold onSpeedButtonClick. promise_frame. Qed.

Lemma clickElsewhere_promiseView (w : World) :
  promiseView (onDocumentClick Elsewhere w) = promiseView w.
Proof. unfold onDocumentClick. promise_frame. Qed.

Lemma onTimer_promiseView (id : nat) (w : World) :
  promiseView (onTimer id w) = promiseView w.
Proof.
  unfold onTimer. destruct (find _ (timers w)) as [[i task]|]; [|reflexivity].
  destruct task; unfold runTask, seekPreview, clearTimeout; promise_frame.
Qed.

Lemma Forall_remove_nth {A : Type} (Q : A -> Prop) (l : list A) (i : nat) :
  Forall Q l -> Forall Q (firstn i l ++ skipn (S i) l)%list.
Proof.
  revert i. induction l as [|a l IH]; intros i H.
  - destruct i; constructor.
  - inversion H as [|? ? Ha Hl]; subst. destruct i as [|i].
    + exact Hl.
    + cbn [firstn skipn app]. constructor; [exact Ha|apply IH, Hl].
Qed.

Lemma togglePlayPause_uncaught (reply : PlayReply) (w : World) :
  exists w1, togglePlayPause reply w = Normal w1 /\ uncaught w1 = uncaught w.
Proof.
  unfold togglePlayPause.
  destruct (Audio.paused (audioElement w)); [destruct reply|];
    unfold play, pause, bind, tryCatch, console_error;
    eexists; (split; [reflexivity|]);
    try exact (f_equal snd (updatePlayPauseIcon_promiseView _));
    reflexivity.
Qed.

Lemma promisesGuarded_run (evs : list Event) (w : World) :
  promisesGuarded w -> promisesGuarded (run evs w).
Proof.
  intros H.
  assert (Hview : forall x x', playPromises x' = playPromises x ->
                               promisesGuarded x -> promisesGuarded x').
  { unfold promisesGuarded. intros x x' E Hx. rewrite E. exact Hx. }
  apply (invariant_run promisesGuarded); [.. | exact H];
    try (intros; eapply Hview; [|eassumption];
         first [ reflexivity
               | exact (f_equal fst (updatePlayPauseIcon_promiseView _))
               | exact (f_equal fst (updateProgress_promiseView _))
               | exact (f_equal fst (updateDuration_promiseView _))
               | exact (f_equal fst (showFeedback_promiseView _ _ _))
               | exact (f_equal fst (onCanPlay_promiseView _))
               | exact (f_equal fst (setPlaybackSpeed_promiseView _ _))
               | exact (f_equal fst (updateVolume_promiseView _ _))
               | exact (f_equal fst (onSeekInput_promiseView _))
               | exact (f_equal fst (userSetsSeek_promiseView _ _))
               | exact (f_equal fst (userSetsVolume_promiseView _ _))
               | exact (f_equal fst (onSpeedButtonClick_promiseView _))
               | exact (f_equal fst (clickElsewhere_promiseView _))
               | exact (f_equal fst (onTimer_promiseView _ _)) ]; fail).
  - intros reply x Hg. unfold promisesGuarded.
    destruct reply; unfold play; getset;
      try exact Hg; apply Forall_app; split; try exact Hg;
      repeat constructor.
  - intros i o x Hg. unfold promisesGuarded, onPlaySettled.
    destruct (nth_error (playPromises x) i) as [r|] eqn:En; [|exact Hg].
    assert (Hr : r = CatchPlaybackFailed).
    { apply nth_error_In in En. revert r En. apply Forall_forall. exact Hg. }
    subst r. cbv zeta.
    destruct o; unfold console_error; autorewrite with frame; getset;
      apply Forall_remove_nth; exact Hg.
Qed.

(** X16.  No failure of a play request is left uncaught.  When every
    pending play promise carries the [.catch] of [togglePlayPause] (as it
    does when only the page, the keyboard and the media element drive the
    player), this is still so after any sequence of events; and then a
    click on the play/pause button, the space bar and the settling of a
    play promise report nothing as uncaught, be it that [play()] throws
    or that its promise is rejected. *)
Theorem play_failures_never_uncaught (evs : list Event) (w : World) :
  promisesGuarded w ->
  promisesGuarded (run evs w) /\
  forall ev, playEvent ev ->
    uncaught (dispatch ev (run evs w)) = uncaught (run evs w).
Proof.
  intros H. pose proof (promisesGuarded_run evs w H) as Hg.
  split; [exact Hg|].
  generalize dependent (run evs w). clear H. intros x Hg ev Hev.
  destruct ev; cbn [playEvent] in Hev; try contradiction; unfold dispatch.
  - destruct (togglePlayPause_uncaught reply x) as (w1 & -> & Hu).
    rewrite report_Normal, <- Hu.
    exact (f_equal snd (clickElsewhere_promiseView w1)).
  - unfold onKeyDown.
    destruct (targetTakesText e); [reflexivity|].
    destruct hasFocus; [|reflexivity].
    cbv beta iota zeta delta [negb]. rewrite Hev.
    change (String.eqb " " " ") with true. cbv beta iota.
    destruct (togglePlayPause_uncaught reply x) as (w1 & -> & Hu).
    rewrite bind_Normal, report_Normal, <- Hu.
    exact (f_equal snd (showFeedback_promiseView _ _ w1)).
  - unfold onPlaySettled.
    destruct (nth_error (playPromises x) i) as [r|] eqn:En; [|reflexivity].
    assert (Hr : r = CatchPlaybackFailed).
    { apply nth_error_In in En. revert r En. apply Forall_forall. exact Hg. }
    subst r. cbv zeta.
    destruct outcome; unfold console_error; autorewrite with frame; getset;
      reflexivity.
Qed.

Lemma play_failures_never_uncaught_witness :
  promisesGuarded initialWorld /\
  playEvent (PlaySettles 0 (Rejected "NotAllowedError")) /\
  uncaught
    (dispatch (PlaySettles 0 (Rejected "NotAllowedError"))
       (run [KeyDown (PlayThrows "TypeError") true (mkKeyboardEvent " " false);
             PlayPauseClick PlayStaysPaused] initialWorld)) = [].
Proof.
  assert (H : promisesGuarded initialWorld) by constructor.
  split; [exact H|]. split; [exact I|].
  destruct (play_failures_never_uncaught
              [KeyDown (PlayThrows "TypeError") true (mkKeyboardEvent " " false);
               PlayPauseClick PlayStaysPaused] initialWorld H) as [_ Hu].
  rewrite (Hu (PlaySettles 0 (Rejected "NotAllowedError")) I). reflexivity.
Defined.

(** ** Keys that are not shortcuts *)

(** X17.  The shortcut listener leaves the player alone when the key is
    pressed in a text entry, when the document has no focus, or when the
    key is made of ASCII characters and, in lower case, is not in the
    shortcut table: the world is returned unchanged and nothing is
    thrown. *)
Theorem keyboard_ignores_other_keys (reply : PlayReply) (hasFocus : bool)
    (e : KeyboardEvent) (w : World) :
  targetTakesText e = true \/ hasFocus = false \/
  (isAscii (key e) = true /\ ~ In (toLowerCase (key e)) shortcutKeys) ->
  onKeyDown reply hasFocus e w = Normal w.
Proof.
  intros H. unfold onKeyDown.
  destruct (targetTakesText e); [reflexivity|].
  destruct hasFocus; [|reflexivity].
  destruct H as [H|[H|[_ H]]]; try discriminate.
  cbv beta iota zeta delta [negb]. unfold shortcutKeys in H.
  repeat match goal with
         | |- context [String.eqb ?a ?b] =>
             destruct (String.eqb_spec a b) as [E|_];
               [exfalso; apply H; rewrite E; cbn; tauto|]
         end.
  reflexivity.
Qed.

Lemma keyboard_ignores_other_keys_witness :
  isAscii (key (mkKeyboardEvent "Q" false)) = true /\
  ~ In (toLowerCase (key (mkKeyboardEvent "Q" false))) shortcutKeys /\
  onKeyDown PlayStarts true (mkKeyboardEvent "Q" false) initialWorld
    = Normal initialWorld /\
  onKeyDown PlayStarts true (mkKeyboardEvent "j" true) initialWorld
    = Normal initialWorld.
Proof.
  assert (H : ~ In (toLowerCase (key (mkKeyboardEvent "Q" false))) shortcutKeys).
  { cbn. intros [E|[E|[E|[E|[E|[E|[E|[E|[E|[]]]]]]]]]]; discriminate. }
  split; [reflexivity|]. split; [exact H|]. split.
  - apply keyboard_ignores_other_keys. right. right.
    split; [reflexivity|exact H].
  - apply keyboard_ignores_other_keys. left. reflexivity.
Defined.

(** ** Dragging the seek slider *)

(** X18.  Drags that follow each other before the debounce delay is over
    collapse to the last one.  On a page with the seek slider and tracked
    timers, after two drags exactly one preview timer is pending; the
    timer of the first drag is gone, so its expiry changes nothing; and
    when the timer of the second drag expires the player enters seeking
    mode and the progress bar shows the value of the second drag. *)
Theorem drags_collapse_to_the_last (v1 v2 : number) (w : World)
    (sl : SeekSlider) :
  seekSlider w = Some sl ->
  timersTracked w ->
  let n := nextTimerId w in
  let w2 := run [SeekInput v1; SeekInput v2] w in
  pending SeekPreview w2 = 1%nat /\
  onTimer n w2 = w2 /\
  let w3 := onTimer (S n) w2 in
  State.isSeeking (state w3) = true /\
  audioElement w3 = audioElement w /\
  option_map bar_width (progressBar w3) =
    option_map (fun _ => v2) (progressBar w) /\
  pending SeekPreview w3 = 0%nat.
Proof.
  intros Hsl Htr n w2.
  set (w1 := dispatch (SeekInput v1) w).
  assert (E2 : w2 = dispatch (SeekInput v2) w1) by reflexivity.
  assert (Htr1 : timersTracked w1) by (apply timersTracked_dispatch, Htr).
  assert (Htr2 : timersTracked w2)
    by (rewrite E2; apply timersTracked_dispatch, Htr1).
  (* first drag *)
  assert (Hsl0 : seekSlider (userSetsSeek v1 w) = Some (set_seek_value v1 sl))
    by (rewrite userSetsSeek_seekSlider, Hsl; reflexivity).
  pose proof (onSeekInput_timerView _ _ Hsl0) as Hv1.
  pose proof (userSetsSeek_timerView v1 w) as Hsame.
  unfold timerView in Hsame. injection Hsame as Hs1 Hs2 Hs3 Hs4.
  rewrite Hs1, Hs2, Hs3, Hs4 in Hv1. fold n in Hv1.
  change (onSeekInput (userSetsSeek v1 w)) with w1 in Hv1.
  unfold timerView in Hv1. injection Hv1 as Ht1 Hn1 Hf1 Hq1.
  assert (Hsl1 : seekSlider w1 = Some (set_seek_value v1 sl))
    by (unfold w1, dispatch; rewrite onSeekInput_seekSlider; exact Hsl0).
  (* second drag *)
  assert (Hsl1' : seekSlider (userSetsSeek v2 w1) =
                  Some (set_seek_value v2 (set_seek_value v1 sl)))
    by (rewrite userSetsSeek_seekSlider, Hsl1; reflexivity).
  pose proof (onSeekInput_timerView _ _ Hsl1') as Hv2.
  pose proof (userSetsSeek_timerView v2 w1) as Hsame.
  unfold timerView in Hsame. injection Hsame as Hr1 Hr2 Hr3 Hr4.
  rewrite Hr1, Hr2, Hr3, Hr4 in Hv2.
  change (onSeekInput (userSetsSeek v2 w1)) with w2 in Hv2.
  unfold timerView in Hv2. injection Hv2 as Ht2 Hn2 Hf2 Hq2.
  rewrite Hq1, Ht1, Hn1 in Ht2.
  destruct Htr as (Hlt & _).
  assert (Hfresh : forall t, In t (cleared (seekTimeoutId w) (timers w)) ->
                             (fst t < n)%nat)
    by (apply cleared_fresh; exact Hlt).
  rewrite (cleared_snoc_self _ n SeekPreview Hfresh) in Ht2.
  assert (Hsl2 : seekSlider w2 =
                 Some (set_seek_value v2 (set_seek_value v1 sl)))
    by (rewrite E2; unfold dispatch; rewrite onSeekInput_seekSlider;
        exact Hsl1').
  assert (Hin2 : In (S n, SeekPreview) (timers w2))
    by (rewrite Ht2; apply in_or_app; right; left; reflexivity).
  assert (Hp2 : pending SeekPreview w2 = 1%nat).
  { pose proof (timersTracked_pending SeekPreview w2 Htr2) as Hle.
    unfold pending in *.
    destruct (filter _ (timers w2)) as [|t rest] eqn:Ef; [|cbn in *; lia].
    exfalso.
    assert (Hf : In (S n, SeekPreview)
                   (filter (fun t => Task_eqb (snd t) SeekPreview) (timers w2)))
      by (apply filter_In; split; [exact Hin2|reflexivity]).
    rewrite Ef in Hf. destruct Hf. }
  split; [exact Hp2|]. split.
  { unfold onTimer. rewrite Ht2, find_absent; [reflexivity|].
    intros t Hin. apply in_app_or in Hin. destruct Hin as [Hin|[<-|[]]].
    - apply Hfresh in Hin. lia.
    - cbn. lia. }
  destruct Htr2 as (_ & Hnd2 & _ & Hseek2 & _).
  assert (Hfire : onTimer (S n) w2 =
                  seekPreview (clearTimeout (Some (S n)) w2)).
  { unfold onTimer.
    rewrite (find_unique _ (S n) SeekPreview Hnd2 Hin2). reflexivity. }
  cbv zeta. rewrite Hfire.
  assert (Hsl3 : seekSlider (clearTimeout (Some (S n)) w2) =
                 Some (set_seek_value v2 (set_seek_value v1 sl)))
    by exact Hsl2.
  destruct (seekPreview_isSeeking _ _ Hsl3) as [Hs Ha].
  split; [exact Hs|]. split.
  { rewrite Ha. unfold clearTimeout. getset. rewrite E2. unfold dispatch.
    assert (Hau : forall x, audioElement (onSeekInput x) = audioElement x).
    { intros x. unfold onSeekInput, clearTimeout, setTimeout.
      crush_matches; reflexivity. }
    rewrite Hau, userSetsSeek_audio. unfold w1, dispatch.
    rewrite Hau, userSetsSeek_audio. reflexivity. }
  split.
  { rewrite (seekPreview_eq _ _ Hsl3). getset. unfold clearTimeout. getset.
    assert (Hbar : forall x, progressBar (onSeekInput x) = progressBar x).
    { intros x. unfold onSeekInput, clearTimeout, setTimeout.
      crush_matches; reflexivity. }
    assert (Hbar' : forall v x, progressBar (userSetsSeek v x) = progressBar x).
    { intros v x. unfold userSetsSeek. crush_matches; reflexivity. }
    rewrite E2. unfold dispatch. rewrite Hbar, Hbar'. unfold w1, dispatch.
    rewrite Hbar, Hbar'. destruct (progressBar w); reflexivity. }
  unfold pending.
  assert (Ht3 : timers (seekPreview (clearTimeout (Some (S n)) w2)) =
                cleared (Some (S n)) (timers w2)).
  { pose proof (seekPreview_timerView (clearTimeout (Some (S n)) w2)) as Hv.
    apply (f_equal (fun v => fst (fst (fst v)))) in Hv.
    unfold timerView in Hv. cbn [fst] in Hv. rewrite Hv. reflexivity. }
  rewrite Ht3.
  destruct (filter _ (cleared (Some (S n)) (timers w2)))
    as [|[j k] rest] eqn:Ef; [reflexivity|].
  exfalso.
  assert (Hin : In (j, k)
                  (filter (fun t => Task_eqb (snd t) SeekPreview)
                     (cleared (Some (S n)) (timers w2))))
    by (rewrite Ef; left; reflexivity).
  apply filter_In in Hin. destruct Hin as [Hin Hk].
  cbn in Hk. apply Task_eqb_eq in Hk. subst k.
  apply In_cleared in Hin. destruct Hin as [Hin Hne].
  apply Hseek2 in Hin. cbn in Hne. congruence.
Qed.

Lemma drags_collapse_to_the_last_witness :
  seekSlider initialWorld = Some (mkSeekSlider (Fin 0) false (Fin 200)) /\
  timersTracked initialWorld /\
  pending SeekPreview
    (run [SeekInput (Fin 10); SeekInput (Fin 50)] initialWorld) = 1%nat /\
  option_map bar_width
    (progressBar
       (onTimer 2 (run [SeekInput (Fin 10); SeekInput (Fin 50)] initialWorld)))
  = Some (Fin 50).
Proof.
  split; [reflexivity|]. split; [exact initialWorld_timersTracked|].
  destruct (drags_collapse_to_the_last (Fin 10) (Fin 50) initialWorld _
              eq_refl initialWorld_timersTracked)
    as (Hp & _ & _ & _ & Hbar & _).
  split; [exact Hp|exact Hbar].
Defined.

(** ** Positions that are not finite *)

Lemma seekTarget_stream (value : number) (w : World) :
  Audio.duration (audioElement w) = PosInf ->
  JS.isFinite (seekTarget value w) = false.
Proof.
  intros Hd. unfold seekTarget. rewrite Hd.
  change (JS.or PosInf (Fin 0)) with PosInf.
  destruct value as [| |v|]; try reflexivity.
  change (JS.div (Fin v) (Fin 100)) with (Fin (v / 100)).
  unfold JS.mul, JS.signedInf.
  destruct (Qcompare _ _); reflexivity.
Qed.

(** X19.  A position that is not a finite number is refused by the media
    element, and none of the places that may write one guards against it.
    On a stream, where the duration is [Infinity], the End key throws out
    of the keyboard listener and a release of the seek slider throws out
    of its 'change' listener: the exception is reported as uncaught and
    nothing else happens, so the position is not written, [isSeeking] is
    not cleared and no toast is shown.  [seekTo] with a value that is not
    finite throws to its caller and writes nothing. *)
Theorem position_that_is_not_finite_is_refused
    (reply : PlayReply) (value : number) (w : World) (sl : SeekSlider) :
  Audio.duration (audioElement w) = PosInf ->
  seekSlider w = Some sl ->
  (exists err,
     onKeyDown reply true (mkKeyboardEvent "End" false) w = Throw err w /\
     dispatch (KeyDown reply true (mkKeyboardEvent "End" false)) w =
       set_uncaught (uncaught w ++ [err])%list w) /\
  (exists err,
     onSeekChange (userSetsSeek value w) = Throw err (userSetsSeek value w) /\
     dispatch (SeekChange value) w =
       set_uncaught (uncaught w ++ [err])%list (userSetsSeek value w)) /\
  (forall time, JS.isFinite time = false ->
     exists err, audioPlayer.seekTo time w = Throw err w).
Proof.
  intros Hd Hsl. split; [|split].
  - assert (E : onKeyDown reply true (mkKeyboardEvent "End" false) w =
                if negb (JS.isNaN (Audio.duration (audioElement w))) then
                  bind (assignCurrentTime (Audio.duration (audioElement w)) w)
                    (fun w => Normal (showFeedback "End" info w))
                else Normal w) by reflexivity.
    unfold dispatch. rewrite E, Hd. unfold assignCurrentTime.
    cbv beta iota delta [negb JS.isNaN JS.isFinite bind report].
    eexists. split; reflexivity.
  - assert (Hsl' : seekSlider (userSetsSeek value w) =
                   Some (set_seek_value value sl))
      by (rewrite userSetsSeek_seekSlider, Hsl; reflexivity).
    assert (Hfin : JS.isFinite
                     (seekTarget (seek_value (set_seek_value value sl))
                        (userSetsSeek value w)) = false).
    { apply seekTarget_stream. rewrite userSetsSeek_audio. exact Hd. }
    destruct (onSeekChange_Throw _ _ Hsl' Hfin) as [err Herr].
    exists err. split; [exact Herr|].
    unfold dispatch. rewrite Herr. unfold report.
    unfold userSetsSeek at 1. rewrite Hsl. reflexivity.
  - intros time Hfin. unfold audioPlayer.seekTo, assignCurrentTime.
    rewrite Hfin. eexists. reflexivity.
Qed.

Lemma position_that_is_not_finite_is_refused_witness :
  let w := set_audioElement
             (Audio.mk (Fin 30) PosInf false (Fin 0.5) false (Fin 1))
             initialWorld in
  Audio.duration (audioElement w) = PosInf /\
  seekSlider w = Some (mkSeekSlider (Fin 0) false (Fin 200)) /\
  Audio.currentTime
    (audioElement
       (dispatch (KeyDown PlayStarts true (mkKeyboardEvent "End" false)) w))
  = Fin 30 /\
  List.length
    (uncaught
       (dispatch (KeyDown PlayStarts true (mkKeyboardEvent "End" false)) w))
  = 1%nat.
Proof.
  intros w. split; [reflexivity|]. split; [reflexivity|].
  destruct (position_that_is_not_finite_is_refused PlayStarts (Fin 50) w _
              eq_refl eq_refl) as ((err & _ & Hk) & _).
  rewrite Hk. split; reflexivity.
Defined.
